(** * bind_exporter: stats acquisition and normalisation pipeline

    A shallow embedding of [bind_exporter.go] (the exporter with version
    detection, the Gen2/Gen3 fetchers, the mappers and the two histogram
    builders) and of the earlier single-schema exporter, followed by the
    properties of the specification stated over these definitions.

    Conventions.
    - Go [string]s are byte strings: [String.string] over 8-bit [ascii].
    - [float64] is the kernel's binary64 [PrimFloat.float]; [==] and [<] on
      floats are [PrimFloat.eqb] and [PrimFloat.ltb].
    - [uint64] values are [Z] with the wrap-around modulo [2^64] written out.
    - [map[float64]uint64] is an association list read and written through
      the key comparison [==], as the Go runtime does.
    - Methods on [*Exporter] thread a state holding the exporter object, the
      log of HTTP requests and the metric channel; a run-time panic is an
      outcome of its own. *)

From Stdlib Require Import ZArith List String Ascii Bool Lia.
From Stdlib Require Import Permutation Sorted.
From Stdlib Require Import Floats.
Import ListNotations.

Set Warnings "-inexact-float".

Local Open Scope string_scope.
Local Open Scope Z_scope.

(* ================================================================== *)
(** ** Go strings: the functions of package [strings] the code calls   *)
(* ================================================================== *)

Module strings.

(** [strings.HasPrefix(s, prefix)] *)
Definition HasPrefix (s pre : string) : bool := String.prefix pre s.

(** [strings.HasSuffix(s, suffix)]:
    [len(s) >= len(suffix) && s[len(s)-len(suffix):] == suffix] *)
Definition HasSuffix (s suf : string) : bool :=
  (String.length suf <=? String.length s)%nat &&
  String.eqb
    (String.substring (String.length s - String.length suf)
                      (String.length suf) s)
    suf.

(** [strings.TrimPrefix(s, prefix)]: [s] without the leading [prefix],
    [s] itself when it does not start with [prefix]. *)
Definition TrimPrefix (s pre : string) : string :=
  if HasPrefix s pre
  then String.substring (String.length pre)
                        (String.length s - String.length pre) s
  else s.

End strings.

(* ================================================================== *)
(** ** Numbers                                                         *)
(* ================================================================== *)

Definition float64 := PrimFloat.float.

Definition two64 : Z := 2 ^ 64.

(** The conversion [uint64(x)] of an integer. *)
Definition uint64 (x : Z) : Z := x mod two64.

(** Addition on [uint64]. *)
Definition add64 (a b : Z) : Z := (a + b) mod two64.

(** The conversion [float64(x)] of an integer: round to nearest even. *)
Definition float64_of_int (x : Z) : float64 :=
  SF2Prim (binary_normalize FloatOps.prec FloatOps.emax x 0 false).

Module math.
(** [math.Inf(sign)]: [+Inf] when [sign >= 0]. *)
Definition Inf (sign : Z) : float64 :=
  if 0 <=? sign then infinity else neg_infinity.
(** [math.NaN()] *)
Definition NaN : float64 := nan.
(** [math.IsNaN(f)]: [f != f] *)
Definition IsNaN (f : float64) : bool := negb (f =? f)%float.
End math.

(* ================================================================== *)
(** ** [map[float64]uint64]                                            *)
(* ================================================================== *)

Module fmap.

Definition t := list (float64 * Z).

Definition empty : t := [].

(** [m[k]]: the value stored under a key equal ([==]) to [k], the zero
    value when there is none. A NaN key is never found. *)
Fixpoint index (m : t) (k : float64) : Z :=
  match m with
  | [] => 0
  | (k', v) :: m' => if (k' =? k)%float then v else index m' k
  end.

(** [m[k] = v]: overwrite the entry whose key equals ([==]) [k] (the
    runtime stores the new key as well, float keys need the update), or
    add a new entry. A NaN key always adds an entry. *)
Fixpoint assign (m : t) (k : float64) (v : Z) : t :=
  match m with
  | [] => [(k, v)]
  | (k', v') :: m' =>
      if (k' =? k)%float then (k, v) :: m'
      else (k', v') :: assign m' k v
  end.

(** The keys, in iteration order. *)
Definition keys (m : t) : list float64 := List.map fst m.

End fmap.

(* ================================================================== *)
(** ** [sort.Float64s]                                                 *)
(* ================================================================== *)

Module sort.

(** [Float64Slice.Less]: [x[i] < x[j] || (isNaN(x[i]) && !isNaN(x[j]))] *)
Definition less (x y : float64) : bool :=
  (x <? y)%float || (math.IsNaN x && negb (math.IsNaN y)).

Fixpoint insert (x : float64) (l : list float64) : list float64 :=
  match l with
  | [] => [x]
  | y :: l' => if less y x then y :: insert x l' else x :: l
  end.

(** Sorting in increasing order (by insertion). *)
Definition Float64s (l : list float64) : list float64 :=
  List.fold_right insert [] l.

End sort.

(* ================================================================== *)
(** ** Statistics records                                              *)
(* ================================================================== *)

(** A named counter of the Gen2 schema. The integer type of [Counter] is
    declared with the schema; every use converts it. *)
Record StatV2 := { StatV2_Name : string; StatV2_Counter : Z }.

(** A named counter of the Gen3 schema. *)
Record CounterV3 := { CounterV3_Name : string; CounterV3_Counter : Z }.

Definition qryRTT : string := "QryRTT".

(** The error value of [fmt.Errorf]: its message. *)
Definition error := string.

Section Histograms.

(** [strconv.ParseFloat(s, bitSize)]: the parsed value, [None] for a
    non-nil error. *)
Variable ParseFloat : string -> Z -> option float64.

(** The bucket bound of one RTT counter name, as both builders compute
    it: [+Inf] for a name ending in [+], else the parsed remainder;
    [inr rrt] when the remainder does not parse. *)
Definition bound (name : string) : float64 + string :=
  if negb (strings.HasSuffix name "+") then
    let rrt := strings.TrimPrefix name qryRTT in
    match ParseFloat rrt 32 with
    | Some b => inl b
    | None => inr rrt
    end
  else inl (math.Inf 0).

(** The loop of [histogramV2]: [inr] carries the early return. *)
Fixpoint histogramV2_loop (stats : list StatV2) (buckets : fmap.t) (count : Z)
  : (fmap.t * Z) + (fmap.t * Z * error) :=
  match stats with
  | [] => inl (buckets, count)
  | s :: rest =>
      if strings.HasPrefix (StatV2_Name s) qryRTT then
        match bound (StatV2_Name s) with
        | inr rrt => inr (buckets, 0, "could not parse RTT: " ++ rrt)
        | inl b =>
            let buckets' :=
              fmap.assign buckets (b / 1000)%float
                          (add64 count (uint64 (StatV2_Counter s))) in
            histogramV2_loop rest buckets'
                             (add64 count (uint64 (StatV2_Counter s)))
        end
      else histogramV2_loop rest buckets count
  end.

(** [histogramV2(stats)]: buckets, count and error. *)
Definition histogramV2 (stats : list StatV2) : fmap.t * Z * option error :=
  match histogramV2_loop stats fmap.empty 0 with
  | inl (buckets, count) => (buckets, count, None)
  | inr (buckets, count, err) => (buckets, count, Some err)
  end.

(** The first loop of [histogramV3]: the raw count of every bound. *)
Fixpoint histogramV3_collect (counters : list CounterV3) (buckets : fmap.t)
  : fmap.t + (fmap.t * Z * error) :=
  match counters with
  | [] => inl buckets
  | s :: rest =>
      if strings.HasPrefix (CounterV3_Name s) qryRTT then
        match bound (CounterV3_Name s) with
        | inr rrt => inr (buckets, 0, "could not parse RTT: " ++ rrt)
        | inl b =>
            histogramV3_collect rest
              (fmap.assign buckets (b / 1000)%float
                           (uint64 (CounterV3_Counter s)))
        end
      else histogramV3_collect rest buckets
  end.

(** The last loop of [histogramV3]: the running sum over the sorted
    keys, written back into the map. *)
Fixpoint histogramV3_cumulate (keys : list float64) (buckets : fmap.t)
         (count : Z) : fmap.t * Z :=
  match keys with
  | [] => (buckets, count)
  | k :: rest =>
      let count' := add64 count (fmap.index buckets k) in
      histogramV3_cumulate rest (fmap.assign buckets k count') count'
  end.

(** [histogramV3(counters)]: buckets, count and error. *)
Definition histogramV3 (counters : list CounterV3)
  : fmap.t * Z * option error :=
  match histogramV3_collect counters fmap.empty with
  | inr (buckets, count, err) => (buckets, count, Some err)
  | inl buckets =>
      let keys := sort.Float64s (fmap.keys buckets) in
      let '(buckets', count) := histogramV3_cumulate keys buckets 0 in
      (buckets', count, None)
  end.

End Histograms.

(** An instance of [strconv.ParseFloat] for the examples: it reads a
    non-empty run of decimal digits whose value is below [2^24], where
    the rounding to [float32] that bit size 32 asks for changes nothing,
    as the library does, and refuses every other string. *)
Fixpoint digits_value (s : string) (acc : Z) : option Z :=
  match s with
  | EmptyString => Some acc
  | String c s' =>
      let n := Z.of_nat (nat_of_ascii c) in
      if (48 <=? n) && (n <=? 57) then digits_value s' (10 * acc + (n - 48))
      else None
  end.

Definition ParseFloat_digits (s : string) (bitSize : Z) : option float64 :=
  match s with
  | EmptyString => None
  | _ =>
      match digits_value s 0 with
      | Some v => if v <? 2 ^ 24 then Some (float64_of_int v) else None
      | None => None
      end
  end.

(* ================================================================== *)
(** ** Metrics and descriptors (package [prometheus])                  *)
(* ================================================================== *)

Module prometheus.

Record Desc := NewDesc
  { fqName : string; help : string; variableLabels : list string }.

(** [BuildFQName]: the non-empty parts joined by an underscore. *)
Definition BuildFQName (namespace subsystem name : string) : string :=
  if String.eqb name "" then ""
  else if negb (String.eqb namespace "") && negb (String.eqb subsystem "")
    then namespace ++ "_" ++ subsystem ++ "_" ++ name
  else if negb (String.eqb namespace "") then namespace ++ "_" ++ name
  else if negb (String.eqb subsystem "") then subsystem ++ "_" ++ name
  else name.

Inductive ValueType := CounterValue | GaugeValue.

(** What is sent on the metric channel. *)
Inductive Metric :=
  | ConstMetric (desc : Desc) (valueType : ValueType) (value : float64)
              (labelValues : list string)
  | ConstHistogram (desc : Desc) (count : Z) (sum : float64)
                 (buckets : fmap.t) (labelValues : list string).

End prometheus.
Import prometheus.

Definition namespace : string := "bind".
Definition resolver : string := "resolver".

Definition up : Desc :=
  NewDesc (BuildFQName namespace "" "up")
          "Was the Bind instance query successful?" [].
Definition incomingQueries : Desc :=
  NewDesc (BuildFQName namespace "" "incoming_queries_total")
          "Number of incomming DNS queries." ["type"].
Definition incomingRequests : Desc :=
  NewDesc (BuildFQName namespace "" "incoming_requests_total")
          "Number of incomming DNS requests." ["name"].
Definition resolverCache : Desc :=
  NewDesc (BuildFQName namespace resolver "cache_rrsets")
          "Number of RRSets in Cache database." ["view"; "type"].
Definition resolverQueries : Desc :=
  NewDesc (BuildFQName namespace resolver "queries_total")
          "Number of outgoing DNS queries." ["view"; "type"].
Definition resolverQueryDuration : Desc :=
  NewDesc (BuildFQName namespace resolver "query_duration_seconds")
          "Resolver query round-trip time in seconds." ["view"].
Definition resolverQueryErrors : Desc :=
  NewDesc (BuildFQName namespace resolver "query_errors_total")
          "Number of resolver queries failed." ["view"; "error"].
Definition resolverResponseErrors : Desc :=
  NewDesc (BuildFQName namespace resolver "response_errors_total")
          "Number of resolver reponse errors received." ["view"; "error"].
Definition resolverDNSSECSucess : Desc :=
  NewDesc (BuildFQName namespace resolver "dnssec_validation_success_total")
          "Number of DNSSEC validation attempts succeeded." ["view"; "result"].

(** A [map[string]*prometheus.Desc] literal: its entries; [lookup] is the
    two-valued index expression [desc, ok := m[name]]. *)
Definition desc_table := list (string * Desc).

Fixpoint lookup (m : desc_table) (name : string) : option Desc :=
  match m with
  | [] => None
  | (k, d) :: m' => if String.eqb k name then Some d else lookup m' name
  end.

Definition resolverMetricStats : desc_table :=
  [ ("Lame",
     NewDesc (BuildFQName namespace resolver "response_lame_total")
             "Number of lame delegation responses received." ["view"]);
    ("EDNS0Fail",
     NewDesc (BuildFQName namespace resolver "query_edns0_errors_total")
             "Number of EDNS(0) query errors." ["view"]);
    ("Mismatch",
     NewDesc (BuildFQName namespace resolver "response_mismatch_total")
             "Number of mismatch responses received." ["view"]);
    ("Retry",
     NewDesc (BuildFQName namespace resolver "query_retries_total")
             "Number of resolver query retries." ["view"]);
    ("Truncated",
     NewDesc (BuildFQName namespace resolver "response_truncated_total")
             "Number of truncated responses received." ["view"]);
    ("ValFail",
     NewDesc (BuildFQName namespace resolver "dnssec_validation_errors_total")
             "Number of DNSSEC validation attempt errors." ["view"]) ].

Definition resolverLabelStats : desc_table :=
  [ ("QueryAbort", resolverQueryErrors);
    ("QuerySockFail", resolverQueryErrors);
    ("QueryTimeout", resolverQueryErrors);
    ("NXDOMAIN", resolverResponseErrors);
    ("SERVFAIL", resolverResponseErrors);
    ("FORMERR", resolverResponseErrors);
    ("OtherError", resolverResponseErrors);
    ("ValOk", resolverDNSSECSucess);
    ("ValNegOk", resolverDNSSECSucess) ].

Definition serverQueryErrors : Desc :=
  NewDesc (BuildFQName namespace "" "query_errors_total")
          "Number of query failures." ["error"].
Definition serverReponses : Desc :=
  NewDesc (BuildFQName namespace "" "responses_total")
          "Number of responses sent." ["result"].

Definition serverLabelStats : desc_table :=
  [ ("QryDuplicate", serverQueryErrors);
    ("QryDropped", serverQueryErrors);
    ("QryFailure", serverQueryErrors);
    ("QrySuccess", serverReponses);
    ("QryReferral", serverReponses);
    ("QryNxrrset", serverReponses);
    ("QrySERVFAIL", serverReponses);
    ("QryFORMERR", serverReponses);
    ("QryNXDOMAIN", serverReponses) ].

Definition tasksRunning : Desc :=
  NewDesc (BuildFQName namespace "" "tasks_running")
          "Number of running tasks." [].
Definition workerThreads : Desc :=
  NewDesc (BuildFQName namespace "" "worker_threads")
          "Total number of available worker threads." [].

(** [prometheus.MustNewConstMetric]; every call of the exporter passes as
    many label values as the descriptor has labels. *)
Definition MustNewConstMetric (desc : Desc) (vt : ValueType) (value : float64)
           (labelValues : list string) : Metric :=
  ConstMetric desc vt value labelValues.

Definition MustNewConstHistogram (desc : Desc) (count : Z) (sum : float64)
           (buckets : fmap.t) (labelValues : list string) : Metric :=
  ConstHistogram desc count sum buckets labelValues.

(* ================================================================== *)
(** ** The statistics trees                                            *)
(* ================================================================== *)

(** The schema types are declared next to the exporter; the records below
    have the fields the exporter reads, under the names it reads them. *)

Record ThreadModel := { TasksRunning : Z; WorkerThreads : Z }.
Record TaskManager := { ThreadModel_ : ThreadModel }.

(** Gen2 *)
Record ViewV2 :=
  { ViewV2_Name : string;
    ViewV2_Cache : list StatV2;
    ViewV2_Rdtype : list StatV2;
    ViewV2_Resstat : list StatV2 }.
Record ServerV2 :=
  { QueriesIn_Rdtype : list StatV2;     (* Server.QueriesIn.Rdtype *)
    Requests_Opcode : list StatV2;      (* Server.Requests.Opcode *)
    NsStats : list StatV2 }.
Record StatisticsV2 :=
  { StatisticsV2_Server : ServerV2;
    StatisticsV2_Views : list ViewV2;
    StatisticsV2_Taskmgr : TaskManager }.
Record BindRootV2 := { Bind_Statistics : StatisticsV2 }.   (* root.Bind.Statistics *)

(** Gen3 *)
Record CountersV3 :=
  { CountersV3_Type : string; CountersV3_Counter : list CounterV3 }.
Record ViewV3 :=
  { ViewV3_Name : string;
    ViewV3_Cache : list CounterV3;
    ViewV3_Counters : list CountersV3 }.
Record BindRootV3 :=
  { Server_Counters : list CountersV3;  (* root.Server.Counters *)
    BindRootV3_Views : list ViewV3;
    BindRootV3_Taskmgr : TaskManager }.

Definition zero_TaskManager : TaskManager :=
  {| ThreadModel_ := {| TasksRunning := 0; WorkerThreads := 0 |} |}.

(** [BindRootV2{}] *)
Definition zero_BindRootV2 : BindRootV2 :=
  {| Bind_Statistics :=
       {| StatisticsV2_Server :=
            {| QueriesIn_Rdtype := []; Requests_Opcode := []; NsStats := [] |};
          StatisticsV2_Views := [];
          StatisticsV2_Taskmgr := zero_TaskManager |} |}.

(** [BindRootV3{}] *)
Definition zero_BindRootV3 : BindRootV3 :=
  {| Server_Counters := []; BindRootV3_Views := [];
     BindRootV3_Taskmgr := zero_TaskManager |}.

(* ================================================================== *)
(** ** The effects of a scrape                                         *)
(* ================================================================== *)

(** A Go function result [(value, error)] whose value is nil when the
    error is not. *)
Inductive result (A : Type) :=
| Ok (a : A)
| Err (e : error).
Arguments Ok {A} a.
Arguments Err {A} e.

(** An HTTP response as the exporter reads it: the status line, the status
    code, and what [ioutil.ReadAll(resp.Body)] returns. *)
Record Response :=
  { Status : string; StatusCode : Z; Body : result string }.

Inductive Level := ErrorLevel | WarnLevel.

(** What a scrape acts on: the exporter object behind the receiver [e],
    the URIs requested so far by its client, the metrics sent on [ch],
    and the log. *)
Record State (E : Type) :=
  { self : E;
    requests : list string;
    ch : list Metric;
    logs : list (Level * string) }.
Arguments self {E} s.
Arguments requests {E} s.
Arguments ch {E} s.
Arguments logs {E} s.

(** A call returns a value or panics. *)
Inductive Outcome (A : Type) :=
| Return (a : A)
| Panic (msg : string).
Arguments Return {A} a.
Arguments Panic {A} msg.

Definition M (E A : Type) : Type := State E -> Outcome A * State E.

Definition ret {E A} (a : A) : M E A := fun st => (Return a, st).

Definition bind {E A B} (m : M E A) (k : A -> M E B) : M E B :=
  fun st =>
    match m st with
    | (Return a, st') => k a st'
    | (Panic msg, st') => (Panic msg, st')
    end.

Notation "x <- m ;; k" := (bind m (fun x => k))
  (at level 61, m at next level, right associativity).
Notation "m ;;; k" := (bind m (fun _ => k))
  (at level 61, right associativity).

Definition get_self {E} : M E E := fun st => (Return (self st), st).

Definition panic {E A} (msg : string) : M E A := fun st => (Panic msg, st).

(** [ch <- m] for each metric of [ms], in order. *)
Definition send {E} (ms : list Metric) : M E unit :=
  fun st =>
    (Return tt,
     {| self := self st; requests := requests st;
        ch := ch st ++ ms; logs := logs st |}).

(** [log.Error(...)] and [log.Warn(...)], one entry per message. *)
Definition log {E} (ls : list (Level * string)) : M E unit :=
  fun st =>
    (Return tt,
     {| self := self st; requests := requests st;
        ch := ch st; logs := logs st ++ ls |}).

(** [s[i]] on a string: a run-time panic outside [0 <= i < len(s)]. *)
Definition index_string {E} (s : string) (i : Z) : M E ascii :=
  if (i <? 0) || (Z.of_nat (String.length s) <=? i)
  then panic "runtime error: index out of range"
  else match String.get (Z.to_nat i) s with
       | Some b => ret b
       | None => panic "runtime error: index out of range"
       end.

(** [http.Client]: the dial and deadline timeout it was built with. *)
Record Client := { Timeout : Z }.

(** The exporter object. *)
Record Exporter :=
  { URI : string;
    metrics : list string;
    version : string;
    client : Client }.

(** [NewExporter(URI, metrics, timeout)]; [version] keeps its zero value. *)
Definition NewExporter (uri : string) (ms : list string) (timeout : Z)
  : Exporter :=
  {| URI := uri; metrics := ms; version := "";
     client := {| Timeout := timeout |} |}.

Section Scrape.

Variable ParseFloat : string -> Z -> option float64.

(** The name server as the client sees it: the answer to a GET of a URI,
    given the requests made before. *)
Variable server : list string -> string -> result Response.

(** [xml.Unmarshal(data, &root)] at the two root types: the value left
    in [root] and the error. *)
Variable xml_Unmarshal_V2 : string -> BindRootV2 -> BindRootV2 * option error.
Variable xml_Unmarshal_V3 : string -> BindRootV3 -> BindRootV3 * option error.

(** [root.dedup()], declared with the Gen3 schema. *)
Variable dedup : BindRootV3 -> BindRootV3.

(** [e.client.Get(uri)] *)
Definition client_Get {E} (uri : string) : M E (result Response) :=
  fun st =>
    (Return (server (requests st) uri),
     {| self := self st; requests := requests st ++ [uri];
        ch := ch st; logs := logs st |}).

Definition GetV3URI (metric : string) : M Exporter string :=
  e <- get_self ;;
  b <- index_string (URI e) (Z.of_nat (String.length (URI e)) - 1) ;;
  if Ascii.eqb b "/"
  then ret (URI e ++ "xml/v3/" ++ metric)
  else ret (URI e ++ "/xml/v3/" ++ metric).

Definition GetVersion : M Exporter (string * option error) :=
  e <- get_self ;;
  (* cached, use that *)
  if negb (String.eqb (version e) "") then ret (version e, None)
  else
    uri <- GetV3URI "status" ;;
    r <- client_Get uri ;;
    match r with
    | Err err =>
        log [(ErrorLevel, "Error while querying Bind: " ++ err)] ;;;
        ret ("", Some err)
    | Ok resp =>
        if 500 <=? StatusCode resp then
          (* 5xx is for server errors, abort search *)
          log [(ErrorLevel, "Error while querying Bind: " ++ Status resp)] ;;;
          ret ("", Some (Status resp))
        else if (StatusCode resp <? 300) && (200 <=? StatusCode resp) then
          ret ("v3", None)
        else ret ("v2", None)
    end.

Definition Fetch {E} (uri : string) : M E (result string) :=
  r <- client_Get uri ;;
  match r with
  | Err err => ret (Err err)
  | Ok resp =>
      match Body resp with
      | Err err => ret (Err err)
      | Ok body => ret (Ok body)
      end
  end.

Definition FetchV2 : M Exporter (result BindRootV2) :=
  e <- get_self ;;
  r <- Fetch (URI e) ;;
  match r with
  | Err err => ret (Err err)
  | Ok data =>
      match xml_Unmarshal_V2 data zero_BindRootV2 with
      | (_, Some err) => ret (Err err)
      | (root, None) => ret (Ok root)
      end
  end.

(** The loop of [FetchV3] over the metric groups still to fetch. *)
Fixpoint FetchV3_loop (ms : list string) (root : BindRootV3)
  : M Exporter (result BindRootV3) :=
  match ms with
  | [] => ret (Ok root)
  | metric :: rest =>
      uri <- GetV3URI metric ;;
      r <- Fetch uri ;;
      match r with
      | Err err => ret (Err err)
      | Ok body =>
          match xml_Unmarshal_V3 body root with
          | (_, Some err) => ret (Err err)
          | (root', None) => FetchV3_loop rest root'
          end
      end
  end.

Definition FetchV3 : M Exporter (result BindRootV3) :=
  e <- get_self ;;
  r <- FetchV3_loop (metrics e) zero_BindRootV3 ;;
  match r with
  | Err err => ret (Err err)
  | Ok root => ret (Ok (dedup root))
  end.

(** *** The mappers

    A mapper's sends and warnings, in order: what the loops of
    [UpdateV2] and [UpdateV3] put on [ch] and in the log. *)

Definition Output : Type := list Metric * list (Level * string).

Definition out_app (a b : Output) : Output :=
  ((fst a ++ fst b)%list, (snd a ++ snd b)%list).

Definition out_concat (l : list Output) : Output :=
  List.fold_right out_app ([], []) l.

Definition sends (ms : list Metric) : Output := (ms, []).

(** The loop over name-server operational counters. *)
Definition nsstat_V2 (stats : list StatV2) : list Metric :=
  List.flat_map
    (fun s =>
       match lookup serverLabelStats (StatV2_Name s) with
       | Some desc =>
           let r := strings.TrimPrefix (StatV2_Name s) "Qry" in
           [MustNewConstMetric desc CounterValue
                               (float64_of_int (StatV2_Counter s)) [r]]
       | None => []
       end)
    stats.

(** The loop over the resolver-operation counters of a view. *)
Definition resstat_V2 (view : string) (stats : list StatV2) : list Metric :=
  List.flat_map
    (fun s =>
       (match lookup resolverMetricStats (StatV2_Name s) with
       | Some desc =>
           [MustNewConstMetric desc CounterValue
                               (float64_of_int (StatV2_Counter s)) [view]]
       | None => []
       end ++
       match lookup resolverLabelStats (StatV2_Name s) with
       | Some desc =>
           [MustNewConstMetric desc CounterValue
                               (float64_of_int (StatV2_Counter s))
                               [view; StatV2_Name s]]
       | None => []
       end)%list)
    stats.

(** The histogram of a view, or the warning. *)
Definition duration_V2 (view : string) (stats : list StatV2) : Output :=
  match histogramV2 ParseFloat stats with
  | (buckets, count, None) =>
      ([MustNewConstHistogram resolverQueryDuration count math.NaN
                              buckets [view]], [])
  | (_, _, Some err) => ([], [(WarnLevel, "Error parsing RTT:" ++ err)])
  end.

Definition view_V2 (v : ViewV2) : Output :=
  out_concat
    [ sends (List.map
               (fun s => MustNewConstMetric resolverCache GaugeValue
                           (float64_of_int (StatV2_Counter s))
                           [ViewV2_Name v; StatV2_Name s])
               (ViewV2_Cache v));
      sends (List.map
               (fun s => MustNewConstMetric resolverQueries CounterValue
                           (float64_of_int (StatV2_Counter s))
                           [ViewV2_Name v; StatV2_Name s])
               (ViewV2_Rdtype v));
      sends (resstat_V2 (ViewV2_Name v) (ViewV2_Resstat v));
      duration_V2 (ViewV2_Name v) (ViewV2_Resstat v) ].

Definition taskmgr_out (t : TaskManager) : Output :=
  sends
    [ MustNewConstMetric tasksRunning GaugeValue
        (float64_of_int (TasksRunning (ThreadModel_ t))) [];
      MustNewConstMetric workerThreads GaugeValue
        (float64_of_int (WorkerThreads (ThreadModel_ t))) [] ].

Definition UpdateV2_out (root : BindRootV2) : Output :=
  let stats := Bind_Statistics root in
  out_concat
    [ sends (List.map
               (fun s => MustNewConstMetric incomingQueries CounterValue
                           (float64_of_int (StatV2_Counter s))
                           [StatV2_Name s])
               (QueriesIn_Rdtype (StatisticsV2_Server stats)));
      sends (List.map
               (fun s => MustNewConstMetric incomingRequests CounterValue
                           (float64_of_int (StatV2_Counter s))
                           [StatV2_Name s])
               (Requests_Opcode (StatisticsV2_Server stats)));
      sends (nsstat_V2 (NsStats (StatisticsV2_Server stats)));
      out_concat (List.map view_V2 (StatisticsV2_Views stats));
      taskmgr_out (StatisticsV2_Taskmgr stats) ].

Definition UpdateV2 {E} (root : BindRootV2) : M E unit :=
  send (fst (UpdateV2_out root)) ;;; log (snd (UpdateV2_out root)).

(** One counter group of the Gen3 server node. *)
Definition server_counters_V3 (counters : CountersV3) : list Metric :=
  if String.eqb (CountersV3_Type counters) "qtype" then
    List.map
      (fun c => MustNewConstMetric incomingQueries CounterValue
                  (float64_of_int (CounterV3_Counter c)) [CounterV3_Name c])
      (CountersV3_Counter counters)
  else if String.eqb (CountersV3_Type counters) "opcode" then
    List.map
      (fun c => MustNewConstMetric incomingRequests CounterValue
                  (float64_of_int (CounterV3_Counter c)) [CounterV3_Name c])
      (CountersV3_Counter counters)
  else if String.eqb (CountersV3_Type counters) "nsstat" then
    List.flat_map
      (fun c =>
         match lookup serverLabelStats (CounterV3_Name c) with
         | Some desc =>
             let r := strings.TrimPrefix (CounterV3_Name c) "Qry" in
             [MustNewConstMetric desc CounterValue
                                 (float64_of_int (CounterV3_Counter c)) [r]]
         | None => []
         end)
      (CountersV3_Counter counters)
  else [].

Definition resstats_V3 (view : string) (counters : list CounterV3)
  : list Metric :=
  List.flat_map
    (fun c =>
       (match lookup resolverMetricStats (CounterV3_Name c) with
       | Some desc =>
           [MustNewConstMetric desc CounterValue
                               (float64_of_int (CounterV3_Counter c)) [view]]
       | None => []
       end ++
       match lookup resolverLabelStats (CounterV3_Name c) with
       | Some desc =>
           [MustNewConstMetric desc CounterValue
                               (float64_of_int (CounterV3_Counter c))
                               [view; CounterV3_Name c]]
       | None => []
       end)%list)
    counters.

Definition duration_V3 (view : string) (counters : list CounterV3) : Output :=
  match histogramV3 ParseFloat counters with
  | (buckets, count, None) =>
      ([MustNewConstHistogram resolverQueryDuration count math.NaN
                              buckets [view]], [])
  | (_, _, Some err) => ([], [(WarnLevel, "Error parsing RTT:" ++ err)])
  end.

(** One counter group of a Gen3 view. *)
Definition view_counters_V3 (view : string) (c : CountersV3) : Output :=
  out_app
    (if String.eqb (CountersV3_Type c) "resqtype" then
       sends (List.map
                (fun c' => MustNewConstMetric resolverQueries CounterValue
                             (float64_of_int (CounterV3_Counter c'))
                             [view; CounterV3_Name c'])
                (CountersV3_Counter c))
     else ([], []))
    (if String.eqb (CountersV3_Type c) "resstats" then
       out_app (sends (resstats_V3 view (CountersV3_Counter c)))
               (duration_V3 view (CountersV3_Counter c))
     else ([], [])).

Definition view_V3 (v : ViewV3) : Output :=
  out_app
    (sends (List.map
              (fun c => MustNewConstMetric resolverCache GaugeValue
                          (float64_of_int (CounterV3_Counter c))
                          [ViewV3_Name v; CounterV3_Name c])
              (ViewV3_Cache v)))
    (out_concat (List.map (view_counters_V3 (ViewV3_Name v))
                          (ViewV3_Counters v))).

Definition UpdateV3_out (root : BindRootV3) : Output :=
  out_concat
    [ sends (List.flat_map server_counters_V3 (Server_Counters root));
      out_concat (List.map view_V3 (BindRootV3_Views root));
      taskmgr_out (BindRootV3_Taskmgr root) ].

Definition UpdateV3 {E} (root : BindRootV3) : M E unit :=
  send (fst (UpdateV3_out root)) ;;; log (snd (UpdateV3_out root)).

(** *** Collect *)

(** The body of [Collect] up to its return or panic, with the value the
    local [status] has at that point. *)
Definition Collect_body (st : State Exporter)
  : float64 * Outcome unit * State Exporter :=
  match GetVersion st with
  | (Panic msg, st1) => (0%float, Panic msg, st1)
  | (Return (_, Some _), st1) =>
      (* could not fetch metrics / determin the status of bind *)
      (0%float, Return tt, st1)
  | (Return (version, None), st1) =>
      if String.eqb version "v3" then
        match FetchV3 st1 with
        | (Panic msg, st2) => (0%float, Panic msg, st2)
        | (Return (Err err), st2) =>
            (0%float, Return tt,
             snd (log [(ErrorLevel,
                        "Failed to fetch/unmarshal XML (v3): " ++ err)] st2))
        | (Return (Ok root), st2) =>
            let '(out, st3) := UpdateV3 root st2 in (1%float, out, st3)
        end
      else
        match FetchV2 st1 with
        | (Panic msg, st2) => (0%float, Panic msg, st2)
        | (Return (Err err), st2) =>
            (0%float, Return tt,
             snd (log [(ErrorLevel,
                        "Failed to fetch/unmarshal XML (v3): " ++ err)] st2))
        | (Return (Ok root), st2) =>
            let '(out, st3) := UpdateV2 root st2 in (1%float, out, st3)
        end
  end.

(** [Collect]: the body, then the deferred send of [up] with the final
    [status], which also runs when the body panics. *)
Definition Collect : M Exporter unit :=
  fun st =>
    let '(status, out, st1) := Collect_body st in
    (out, snd (send [MustNewConstMetric up GaugeValue status []] st1)).

End Scrape.

(** [Describe]: the descriptors sent on its channel. The descriptors of
    [resolverMetricStats] are sent in the order the map is ranged over,
    which the language leaves open; here in the order of the table. *)
Definition Describe : list Desc :=
  ([ up; incomingQueries; incomingRequests; resolverDNSSECSucess;
     resolverQueries; resolverQueryDuration; resolverQueryErrors;
     resolverResponseErrors ] ++
   List.map snd resolverMetricStats ++
   [ serverReponses; tasksRunning; workerThreads ])%list.

(* ================================================================== *)
(** ** The earlier exporter: one schema, no version detection          *)
(* ================================================================== *)

Module Legacy.

Record Stat := { Name : string; Counter : Z }.

(** [root.Bind.Statistics.Server], with the two lists [Collect] reads. *)
Record Server :=
  { QueriesIn_Rdtype : list Stat; Requests_Opcode : list Stat }.
Record Isc := { Bind_Statistics_Server : Server }.

(** [Isc{}] *)
Definition zero_Isc : Isc :=
  {| Bind_Statistics_Server :=
       {| QueriesIn_Rdtype := []; Requests_Opcode := [] |} |}.

Record Exporter := { URI : string; client : Client }.

Definition NewExporter (uri : string) (timeout : Z) : Exporter :=
  {| URI := uri; client := {| Timeout := timeout |} |}.

Definition up : Desc :=
  NewDesc (BuildFQName namespace "" "up")
          "Was the Bind instance query successful?" [].
Definition incomingQueries : Desc :=
  NewDesc (BuildFQName namespace "" "incoming_queries_total")
          "Number of incomming DNS queries." ["name"].
Definition incomingRequests : Desc :=
  NewDesc (BuildFQName namespace "" "incoming_requests_total")
          "Number of incomming DNS queries." ["name"].

(** [Describe]: the descriptors sent on its channel. *)
Definition Describe : list Desc := [up; incomingQueries; incomingRequests].

Section Scrape.

Variable server : list string -> string -> result Response.
Variable xml_Unmarshal : string -> Isc -> Isc * option error.

(** The body of [Collect] with the value of [status] at its return. *)
Definition Collect_body (st : State Exporter)
  : float64 * Outcome unit * State Exporter :=
  match client_Get server (URI (self st)) st with
  | (Panic msg, st1) => (0%float, Panic msg, st1)
  | (Return (Err err), st1) =>
    (0%float, Return tt,
     snd (log [(ErrorLevel, "Error while querying Bind: " ++ err)] st1))
  | (Return (Ok resp), st1) =>
    match Body resp with
    | Err err =>
        (0%float, Return tt,
         snd (log [(ErrorLevel,
                    "Failed to read XML response body: " ++ err)] st1))
    | Ok body =>
        (* status = 1 *)
        match xml_Unmarshal body zero_Isc with
        | (_, Some err) =>
            (1%float, Return tt,
             snd (log [(ErrorLevel,
                        "Failed to unmarshal XML response: " ++ err)]
                      st1))
        | (root, None) =>
            let serverNode := Bind_Statistics_Server root in
            let '(out, st2) :=
              send
                (List.map
                   (fun s => MustNewConstMetric incomingQueries
                               CounterValue (float64_of_int (Counter s))
                               [Name s])
                   (QueriesIn_Rdtype serverNode) ++
                 List.map
                   (fun s => MustNewConstMetric incomingRequests
                               CounterValue (float64_of_int (Counter s))
                               [Name s])
                   (Requests_Opcode serverNode)) st1 in
            (1%float, out, st2)
        end
    end
  end.

Definition Collect : M Exporter unit :=
  fun st =>
  let '(status, out, st1) := Collect_body st in
  (out, snd (send [MustNewConstMetric up GaugeValue status []] st1)).

End Scrape.

End Legacy.

(* ================================================================== *)
(** ** Vocabulary of the properties                                    *)
(* ================================================================== *)

(** The RTT-prefixed counters of a Gen2 list, in declaration order. *)
Definition rtt_V2 (stats : list StatV2) : list StatV2 :=
  List.filter (fun s => strings.HasPrefix (StatV2_Name s) qryRTT) stats.

(** The RTT-prefixed counters of a Gen3 list. *)
Definition rtt_V3 (counters : list CounterV3) : list CounterV3 :=
  List.filter (fun s => strings.HasPrefix (CounterV3_Name s) qryRTT) counters.

Definition mkStatV2 (name : string) (c : Z) : StatV2 :=
  {| StatV2_Name := name; StatV2_Counter := c |}.

Definition mkCounterV3 (name : string) (c : Z) : CounterV3 :=
  {| CounterV3_Name := name; CounterV3_Counter := c |}.

(** The liveness sample with value [v]. *)
Definition up_sample (v : float64) : Metric :=
  ConstMetric up GaugeValue v [].

(** The state in which a fresh exporter starts. *)
Definition state_of (e : Exporter) : State Exporter :=
  {| self := e; requests := []; ch := []; logs := [] |}.

(** A name server that answers every request with the given status code
    and body. *)
Definition constant_server (code : Z) (status body : string)
  : list string -> string -> result Response :=
  fun _ _ => Ok {| Status := status; StatusCode := code; Body := Ok body |}.

(** A Gen3 name server whose [net] group cannot be reached. *)
Definition net_down_server : list string -> string -> result Response :=
  fun _ uri =>
    if String.eqb uri "http://localhost:8053/xml/v3/net"
    then Err "connection refused"
    else Ok {| Status := "200 OK"; StatusCode := 200;
               Body := Ok "<statistics/>" |}.

(** Decoders that accept every document and leave the tree as it is, and
    one that refuses every document. *)
Definition Unmarshal_accept {A : Type} (data : string) (root : A)
  : A * option error := (root, None).
Definition Unmarshal_refuse {A : Type} (data : string) (root : A)
  : A * option error := (root, Some "XML syntax error").

(** A Gen2 tree with other name-server operational counters. *)
Definition with_NsStats (root : BindRootV2) (stats : list StatV2) : BindRootV2 :=
  let st := Bind_Statistics root in
  {| Bind_Statistics :=
       {| StatisticsV2_Server :=
            {| QueriesIn_Rdtype := QueriesIn_Rdtype (StatisticsV2_Server st);
               Requests_Opcode := Requests_Opcode (StatisticsV2_Server st);
               NsStats := stats |};
          StatisticsV2_Views := StatisticsV2_Views st;
          StatisticsV2_Taskmgr := StatisticsV2_Taskmgr st |} |}.

(** The state after the GETs of [us], nothing else changed. *)
Definition add_requests {E} (st : State E) (us : list string) : State E :=
  {| self := self st; requests := requests st ++ us;
     ch := ch st; logs := logs st |}.

(** The state after the log entries [ls], nothing else changed. *)
Definition add_logs {E} (st : State E) (ls : list (Level * string)) : State E :=
  {| self := self st; requests := requests st;
     ch := ch st; logs := logs st ++ ls |}.

(** What fetching may change: the exporter and the channel stay, requests
    are only added. *)
Definition fetch_frame {E} (st st' : State E) : Prop :=
  self st' = self st /\ ch st' = ch st /\
  exists us, requests st' = (requests st ++ us)%list.

(** The request path of a metric group, read off the exporter. *)
Definition v3uri (e : Exporter) (metric : string) : string :=
  if strings.HasSuffix (URI e) "/"
  then URI e ++ "xml/v3/" ++ metric
  else URI e ++ "/xml/v3/" ++ metric.

Section GroupRuns.

Variable server : list string -> string -> result Response.
Variable xml_Unmarshal_V3 : string -> BindRootV3 -> BindRootV3 * option error.

(** What the GET of [uri] and the read of its body yield after the
    requests [reqs]. *)
Definition fetch_result (reqs : list string) (uri : string) : result string :=
  match server reqs uri with
  | Err err => Err err
  | Ok resp => Body resp
  end.

(** What fetching and parsing one metric group yields, after the
    requests [reqs] and into the accumulator [root]. *)
Definition group_step (e : Exporter) (reqs : list string) (root : BindRootV3)
           (metric : string) : result BindRootV3 :=
  match fetch_result reqs (v3uri e metric) with
  | Err err => Err err
  | Ok body =>
      match xml_Unmarshal_V3 body root with
      | (_, Some err) => Err err
      | (root', None) => Ok root'
      end
  end.

(** The accumulator after the groups [ms] when each of them fetches and
    parses. *)
Fixpoint groups_ok (e : Exporter) (reqs : list string) (root : BindRootV3)
         (ms : list string) : option BindRootV3 :=
  match ms with
  | [] => Some root
  | m :: rest =>
      match group_step e reqs root m with
      | Ok root' => groups_ok e (reqs ++ [v3uri e m]) root' rest
      | Err _ => None
      end
  end.

(** The run of the group loop: its result and the paths it requests. *)
Fixpoint group_run (e : Exporter) (reqs : list string) (root : BindRootV3)
         (ms : list string) : result BindRootV3 * list string :=
  match ms with
  | [] => (Ok root, [])
  | m :: rest =>
      match group_step e reqs root m with
      | Err err => (Err err, [v3uri e m])
      | Ok root' =>
          let '(r, us) := group_run e (reqs ++ [v3uri e m]) root' rest in
          (r, v3uri e m :: us)
      end
  end.

End GroupRuns.

(** What a scrape may change besides the channel and the log. *)
Definition grows {E} (st st' : State E) : Prop :=
  self st' = self st /\ exists us, requests st' = (requests st ++ us)%list.

Section Cycles.

Variable ParseFloat : string -> Z -> option float64.
Variable server : list string -> string -> result Response.
Variable xml_Unmarshal_V2 : string -> BindRootV2 -> BindRootV2 * option error.
Variable xml_Unmarshal_V3 : string -> BindRootV3 -> BindRootV3 * option error.
Variable dedup : BindRootV3 -> BindRootV3.

(** Detection returned a generation and the fetch of that generation
    returned a tree: none of detection, fetch and unmarshal failed. *)
Definition scrape_succeeds (st : State Exporter) : Prop :=
  exists v st1,
    GetVersion server st = (Return (v, None), st1) /\
    if String.eqb v "v3"
    then exists root st2,
        FetchV3 server xml_Unmarshal_V3 dedup st1 = (Return (Ok root), st2)
    else exists root st2,
        FetchV2 server xml_Unmarshal_V2 st1 = (Return (Ok root), st2).

(** The state after [n] scrape cycles, one after the other. *)
Fixpoint scrapes (n : nat) (st : State Exporter) : State Exporter :=
  match n with
  | O => st
  | S n' =>
      snd (Collect ParseFloat server xml_Unmarshal_V2 xml_Unmarshal_V3 dedup
                   (scrapes n' st))
  end.

End Cycles.

(** *** The order of [float64]

    The place of a float in the order of [<]: its class, then exponent and
    mantissa; the two zeros share one place. *)
Definition rank (x : spec_float) : Z * (Z * Z) :=
  match x with
  | S754_zero _ => (0, (0, 0))
  | S754_infinity false => (2, (0, 0))
  | S754_infinity true => (-2, (0, 0))
  | S754_nan => (3, (0, 0))
  | S754_finite false m e => (1, (e, Zpos m))
  | S754_finite true m e => (-1, (- e, Zneg m))
  end.

Definition rank_cmp (a b : Z * (Z * Z)) : comparison :=
  match fst a ?= fst b with
  | Eq => match fst (snd a) ?= fst (snd b) with
          | Eq => snd (snd a) ?= snd (snd b)
          | c => c
          end
  | c => c
  end.

Definition rank_lt (a b : Z * (Z * Z)) : Prop :=
  fst a < fst b \/
  (fst a = fst b /\
   (fst (snd a) < fst (snd b) \/
    (fst (snd a) = fst (snd b) /\ snd (snd a) < snd (snd b)))).

Definition frank (x : float64) : Z * (Z * Z) := rank (Prim2SF x).

(** [x == x]: [x] is a number. *)
Definition is_num (x : float64) : Prop := (x =? x)%float = true.

(** [x < y] as a relation. *)
Definition flt (x y : float64) : Prop := (x <? y)%float = true.

(** *** Bucket bounds that do not collide *)

(** [a != b] *)
Definition fne (a b : float64) : Prop := (a =? b)%float = false.

(** Keys no two of which are equal under [==]. *)
Definition pairwise_ne (ks : list float64) : Prop := ForallOrdPairs fne ks.

(** The same, decided. *)
Fixpoint distinct (ks : list float64) : bool :=
  match ks with
  | [] => true
  | k :: rest =>
      forallb (fun k' => negb (k =? k')%float) rest && distinct rest
  end.

(** The order [sort.Float64s] sorts by: a NaN before everything, numbers
    by [<]. *)
Definition nan_first (a b : float64) : Prop :=
  (a =? a)%float = false \/ flt a b.

(** The entry [m[k] = v] written into an entry of the map. *)
Definition setv (k : float64) (v : Z) (kv : float64 * Z) : float64 * Z :=
  (fst kv, if (fst kv =? k)%float then v else snd kv).

Section Entries.

Variable ParseFloat : string -> Z -> option float64.

(** The key and raw count [histogramV3] stores for an RTT counter. *)
Definition entry (c : CounterV3) : option (float64 * Z) :=
  match bound ParseFloat (CounterV3_Name c) with
  | inl b => Some ((b / 1000)%float, uint64 (CounterV3_Counter c))
  | inr _ => None
  end.

(** The entries of the RTT counters of a list, when all of them parse. *)
Fixpoint entries (l : list CounterV3) : option fmap.t :=
  match l with
  | [] => Some []
  | c :: rest =>
      if strings.HasPrefix (CounterV3_Name c) qryRTT then
        match entry c, entries rest with
        | Some e, Some es => Some (e :: es)
        | _, _ => None
        end
      else entries rest
  end.

(** Every RTT counter of the list parses and no two of them have the
    same bound. *)
Definition distinct_bounds (l : list CounterV3) : bool :=
  match entries l with
  | Some es => distinct (fmap.keys es)
  | None => false
  end.

End Entries.

(** The sum of what a map holds under the keys [ks]. *)
Fixpoint raw_sum (m : fmap.t) (ks : list float64) : Z :=
  match ks with
  | [] => 0
  | k :: rest => fmap.index m k + raw_sum m rest
  end.

(** The sum of the values of a map. *)
Fixpoint total (m : fmap.t) : Z :=
  match m with
  | [] => 0
  | (_, v) :: rest => v + total rest
  end.

(** The sum of the raw counts of the RTT counters of a Gen3 list. *)
Definition raw_total (l : list CounterV3) : Z :=
  List.fold_right (fun c acc => uint64 (CounterV3_Counter c) + acc) 0
                  (rtt_V3 l).

(** Two results of a histogram builder with the same buckets (the same
    entries, a map has no order) and the same count. *)
Definition same_histogram (h h' : fmap.t * Z * option error) : Prop :=
  Permutation (fst (fst h)) (fst (fst h')) /\ snd (fst h) = snd (fst h').

(** *** Vocabulary of the histogram properties *)

(** The Gen3 counter with the name and the count of a Gen2 counter. *)
Definition as_CounterV3 (s : StatV2) : CounterV3 :=
  mkCounterV3 (StatV2_Name s) (StatV2_Counter s).

(** The sum of the raw counts of the RTT counters of a Gen2 list. *)
Definition raw_total_V2 (l : list StatV2) : Z :=
  List.fold_right (fun s acc => uint64 (StatV2_Counter s) + acc) 0
                  (rtt_V2 l).

(** The running sums of the values of a list of entries, from [count],
    and the last of them. *)
Fixpoint running (es : fmap.t) (count : Z) : fmap.t :=
  match es with
  | [] => []
  | (k, v) :: rest => (k, add64 count v) :: running rest (add64 count v)
  end.

Fixpoint running_count (es : fmap.t) (count : Z) : Z :=
  match es with
  | [] => count
  | (_, v) :: rest => running_count rest (add64 count v)
  end.

(** Keys that are numbers in strictly ascending order, decided. *)
Fixpoint ascending (ks : list float64) : bool :=
  match ks with
  | [] => true
  | k :: rest =>
      (k =? k)%float && forallb (fun k' => (k <? k')%float) rest &&
      ascending rest
  end.

Section Unparsed.

Variable ParseFloat : string -> Z -> option float64.

(** The remainder of the first RTT-prefixed name that does not parse. *)
Fixpoint first_unparsed (names : list string) : option string :=
  match names with
  | [] => None
  | n :: rest =>
      if strings.HasPrefix n qryRTT then
        match bound ParseFloat n with
        | inr rrt => Some rrt
        | inl _ => first_unparsed rest
        end
      else first_unparsed rest
  end.

(** Every RTT counter of the Gen3 list parses, to numbers in strictly
    ascending order of bound. *)
Definition ascending_bounds (l : list CounterV3) : bool :=
  match entries ParseFloat l with
  | Some es => ascending (fmap.keys es)
  | None => false
  end.

End Unparsed.

(** The error a histogram builder returns for an unparsed remainder. *)
Definition parse_error (rrt : option string) : option error :=
  match rrt with
  | Some rrt => Some ("could not parse RTT: " ++ rrt)
  | None => None
  end.

(** *** Vocabulary of the mapper properties *)

Definition desc_of (m : Metric) : Desc :=
  match m with
  | ConstMetric d _ _ _ => d
  | ConstHistogram d _ _ _ _ => d
  end.

Definition labelValues_of (m : Metric) : list string :=
  match m with
  | ConstMetric _ _ _ ls => ls
  | ConstHistogram _ _ _ _ ls => ls
  end.

(** A metric with as many label values as its descriptor has labels: what
    [MustNewConstMetric] and [MustNewConstHistogram] panic without. *)
Definition labelled (m : Metric) : Prop :=
  List.length (labelValues_of m) = List.length (variableLabels (desc_of m)).

(** The shapes of the series the two mappers send. *)
Inductive emitted : Metric -> Prop :=
| emitted_incomingQueries v n :
    emitted (ConstMetric incomingQueries CounterValue v [n])
| emitted_incomingRequests v n :
    emitted (ConstMetric incomingRequests CounterValue v [n])
| emitted_server d v r :
    In d [serverQueryErrors; serverReponses] ->
    emitted (ConstMetric d CounterValue v [r])
| emitted_cache v view n :
    emitted (ConstMetric resolverCache GaugeValue v [view; n])
| emitted_queries v view n :
    emitted (ConstMetric resolverQueries CounterValue v [view; n])
| emitted_resolver_metric d v view :
    In d (List.map snd resolverMetricStats) ->
    emitted (ConstMetric d CounterValue v [view])
| emitted_resolver_label d v view n :
    In d [resolverQueryErrors; resolverResponseErrors; resolverDNSSECSucess] ->
    emitted (ConstMetric d CounterValue v [view; n])
| emitted_duration count buckets view :
    emitted (ConstHistogram resolverQueryDuration count math.NaN buckets [view])
| emitted_tasks v :
    emitted (ConstMetric tasksRunning GaugeValue v [])
| emitted_workers v :
    emitted (ConstMetric workerThreads GaugeValue v []).

(** The counters of a list without the RTT-prefixed ones. *)
Definition other_V2 (stats : list StatV2) : list StatV2 :=
  List.filter (fun s => negb (strings.HasPrefix (StatV2_Name s) qryRTT)) stats.

Definition other_V3 (counters : list CounterV3) : list CounterV3 :=
  List.filter (fun c => negb (strings.HasPrefix (CounterV3_Name c) qryRTT))
              counters.




(** The state after sends and log entries, nothing else changed. *)
Definition add_output {E} (st : State E) (ms : list Metric)
           (ls : list (Level * string)) : State E :=
  {| self := self st; requests := requests st;
     ch := ch st ++ ms; logs := logs st ++ ls |}.

(** *** Vocabulary of the request paths *)

(** [path] joins [uri] and [suffix] with exactly one separator: [uri] is
    a base that does not end in a separator, alone or followed by one
    separator, and [path] is the base, one separator and the suffix. *)
Definition one_separator (uri suffix path : string) : Prop :=
  exists base,
    strings.HasSuffix base "/" = false /\
    (uri = base \/ uri = base ++ "/") /\
    path = base ++ "/" ++ suffix.

(* ================================================================== *)
(** ** The Gen2 histogram builder                                      *)
(* ================================================================== *)

Section HistogramV2_facts.

Variable ParseFloat : string -> Z -> option float64.

(** Counters without the RTT prefix do not take part. *)
Lemma histogramV2_loop_rtt (stats : list StatV2) :
  forall buckets count,
    histogramV2_loop ParseFloat stats buckets count =
    histogramV2_loop ParseFloat (rtt_V2 stats) buckets count.
Proof.
  induction stats as [|s rest IH]; intros buckets count; [reflexivity|].
  simpl.
  destruct (strings.HasPrefix (StatV2_Name s) qryRTT) eqn:Hp; simpl.
  - rewrite Hp. destruct (bound ParseFloat (StatV2_Name s)); [|reflexivity].
    apply IH.
  - apply IH.
Qed.

Lemma histogramV2_rtt (stats : list StatV2) :
  histogramV2 ParseFloat stats = histogramV2 ParseFloat (rtt_V2 stats).
Proof. unfold histogramV2. now rewrite histogramV2_loop_rtt. Qed.

End HistogramV2_facts.

(** C3. A Gen2 resolver-operation list whose RTT-prefixed counters are, in
    declaration order, QryRTT10 = 5, QryRTT100 = 3 and QryRTT100+ = 2
    yields the buckets 0.01 -> 5, 0.1 -> 8, +Inf -> 10 and the total count
    10: the running sum follows the input order. The decimal parser is
    only asked to read "10" and "100". *)
Theorem histogramV2_declaration_order
        (ParseFloat : string -> Z -> option float64)
        (stats : list StatV2)
        (H10 : ParseFloat "10" 32 = Some 10%float)
        (H100 : ParseFloat "100" 32 = Some 100%float)
        (Hrtt : rtt_V2 stats =
                [mkStatV2 "QryRTT10" 5; mkStatV2 "QryRTT100" 3;
                 mkStatV2 "QryRTT100+" 2]) :
  histogramV2 ParseFloat stats =
  ([(0.01%float, 5); (0.1%float, 8); (infinity, 10)], 10, None).
Proof.
  rewrite histogramV2_rtt, Hrtt.
  unfold histogramV2, histogramV2_loop, bound.
  cbn [mkStatV2 StatV2_Name StatV2_Counter].
  change (strings.HasPrefix "QryRTT10" qryRTT) with true.
  change (strings.HasPrefix "QryRTT100" qryRTT) with true.
  change (strings.HasPrefix "QryRTT100+" qryRTT) with true.
  change (strings.HasSuffix "QryRTT10" "+") with false.
  change (strings.HasSuffix "QryRTT100" "+") with false.
  change (strings.HasSuffix "QryRTT100+" "+") with true.
  change (strings.TrimPrefix "QryRTT10" qryRTT) with "10".
  change (strings.TrimPrefix "QryRTT100" qryRTT) with "100".
  cbn [negb]. rewrite H10, H100.
  vm_compute. reflexivity.
Qed.

Lemma histogramV2_declaration_order_witness :
  histogramV2 ParseFloat_digits
    [mkStatV2 "Lame" 7; mkStatV2 "QryRTT10" 5; mkStatV2 "QryRTT100" 3;
     mkStatV2 "Retry" 1; mkStatV2 "QryRTT100+" 2] =
  ([(0.01%float, 5); (0.1%float, 8); (infinity, 10)], 10, None).
Proof.
  apply (histogramV2_declaration_order ParseFloat_digits);
    vm_compute; reflexivity.
Defined.

(* ================================================================== *)
(** ** Request paths and version detection                             *)
(* ================================================================== *)

Section Detection.

Variable server : list string -> string -> result Response.

(** The last byte of a string that ends in [/] is [/]. *)
Lemma get_last_slash (base : string) :
  String.get (String.length base) (base ++ "/") = Some "/"%char.
Proof. induction base as [|c base IH]; [reflexivity|exact IH]. Qed.

Lemma length_append_slash (base : string) :
  String.length (base ++ "/") = S (String.length base).
Proof. induction base as [|c base IH]; simpl; congruence. Qed.

Lemma append_assoc (a b c : string) : (a ++ b) ++ c = a ++ (b ++ c).
Proof. induction a as [|x a IH]; simpl; congruence. Qed.

(** Indexing inside the string returns. *)
Lemma get_in_range (s : string) (n : nat) :
  (n < String.length s)%nat -> exists b, String.get n s = Some b.
Proof.
  revert n; induction s as [|c s IH]; intros n Hn; simpl in Hn; [lia|].
  destruct n as [|n]; simpl; [eauto|]. apply IH; lia.
Qed.

(** [HasSuffix s "/"] reads the last byte. *)
Lemma HasSuffix_slash_get (s : string) :
  s <> "" ->
  strings.HasSuffix s "/" = false ->
  String.get (String.length s - 1) s <> Some "/"%char.
Proof.
  induction s as [|c s IH]; intros Hne; [congruence|].
  destruct s as [|c' s'].
  - unfold strings.HasSuffix; simpl.
    destruct (Ascii.eqb_spec c "/"%char) as [->|Hc]; simpl;
      [discriminate|congruence].
  - assert (Hne' : String c' s' <> "") by discriminate.
    specialize (IH Hne').
    unfold strings.HasSuffix in *.
    change (String.length (String c (String c' s')))
      with (S (String.length (String c' s'))).
    change (String.length "/") with 1%nat in *.
    replace (S (String.length (String c' s')) - 1)%nat
      with (S (String.length (String c' s') - 1)) by (simpl; lia).
    exact IH.
Qed.

(** [GetV3URI] on an exporter whose URI is [base/]. *)
Lemma GetV3URI_with_slash (st : State Exporter) (metric base : string) :
  URI (self st) = base ++ "/" ->
  GetV3URI metric st = (Return (base ++ "/xml/v3/" ++ metric), st).
Proof.
  intros HU. unfold GetV3URI, bind, get_self, index_string.
  rewrite HU, length_append_slash.
  replace (Z.of_nat (S (String.length base)) - 1)
    with (Z.of_nat (String.length base)) by lia.
  replace (Z.of_nat (String.length base) <? 0) with false
    by (symmetry; apply Z.ltb_ge; lia).
  replace (Z.of_nat (S (String.length base)) <=? Z.of_nat (String.length base))
    with false by (symmetry; apply Z.leb_gt; lia).
  cbn [orb]. rewrite Nat2Z.id, get_last_slash.
  unfold ret. cbn. now rewrite append_assoc.
Qed.

(** [GetV3URI] on an exporter whose non-empty URI does not end in [/]. *)
Lemma GetV3URI_without_slash (st : State Exporter) (metric : string) :
  URI (self st) <> "" ->
  strings.HasSuffix (URI (self st)) "/" = false ->
  GetV3URI metric st = (Return (URI (self st) ++ "/xml/v3/" ++ metric), st).
Proof.
  intros Hne Hs. unfold GetV3URI, bind, get_self, index_string.
  assert (Hlen : (0 < String.length (URI (self st)))%nat).
  { destruct (URI (self st)); [congruence|simpl; lia]. }
  replace (Z.of_nat (String.length (URI (self st))) - 1 <? 0) with false
    by (symmetry; apply Z.ltb_ge; lia).
  replace (Z.of_nat (String.length (URI (self st))) <=?
           Z.of_nat (String.length (URI (self st))) - 1)
    with false by (symmetry; apply Z.leb_gt; lia).
  cbn [orb].
  replace (Z.to_nat (Z.of_nat (String.length (URI (self st))) - 1))
    with (String.length (URI (self st)) - 1)%nat by lia.
  pose proof (HasSuffix_slash_get (URI (self st)) Hne Hs) as Hnot.
  destruct (get_in_range (URI (self st)) (String.length (URI (self st)) - 1))
    as [b Hb]; [lia|].
  rewrite Hb in *. unfold ret. cbn.
  destruct (Ascii.eqb_spec b "/"%char) as [->|Hb']; [congruence|reflexivity].
Qed.

(** A string that ends in [/] is some [base ++ "/"]. *)
Lemma HasSuffix_slash_split (s : string) :
  strings.HasSuffix s "/" = true -> exists base, s = base ++ "/".
Proof.
  induction s as [|c s IH]; intros H; [discriminate H|].
  destruct s as [|c' s'].
  - unfold strings.HasSuffix in H; simpl in H.
    destruct (Ascii.eqb_spec c "/"%char) as [->|Hc]; [|discriminate H].
    exists ""; reflexivity.
  - destruct IH as [base Hb].
    + revert H. unfold strings.HasSuffix.
      change (String.length (String c (String c' s')))
        with (S (String.length (String c' s'))).
      change (String.length "/") with 1%nat.
      replace (S (String.length (String c' s')) - 1)%nat
        with (S (String.length (String c' s') - 1))
        by (simpl; lia).
      intros H; exact H.
    + exists (String c base). simpl. now rewrite <- Hb.
Qed.

(** [GetV3URI] returns for every non-empty URI and leaves the state as
    it is. *)
Lemma GetV3URI_total (st : State Exporter) (metric : string) :
  URI (self st) <> "" ->
  exists u, GetV3URI metric st = (Return u, st).
Proof.
  intros Hne.
  destruct (strings.HasSuffix (URI (self st)) "/") eqn:Hs.
  - destruct (HasSuffix_slash_split _ Hs) as [base Hb].
    eexists. exact (GetV3URI_with_slash st metric base Hb).
  - eexists. exact (GetV3URI_without_slash st metric Hne Hs).
Qed.

(** [GetV3URI] panics on the empty URI. *)
Lemma GetV3URI_empty (st : State Exporter) (metric : string) :
  URI (self st) = "" ->
  GetV3URI metric st = (Panic "runtime error: index out of range", st).
Proof.
  intros HU. unfold GetV3URI, bind, get_self, index_string.
  rewrite HU. reflexivity.
Qed.

(** [GetVersion] when nothing is cached and the probe was answered. *)
Lemma GetVersion_probe (st : State Exporter) (uri : string) :
  version (self st) = "" ->
  GetV3URI "status" st = (Return uri, st) ->
  GetVersion server st =
  (r <- client_Get server uri ;;
   match r with
   | Err err =>
       log [(ErrorLevel, "Error while querying Bind: " ++ err)] ;;;
       ret ("", Some err)
   | Ok resp =>
       if 500 <=? StatusCode resp then
         log [(ErrorLevel, "Error while querying Bind: " ++ Status resp)] ;;;
         ret ("", Some (Status resp))
       else if (StatusCode resp <? 300) && (200 <=? StatusCode resp) then
         ret ("v3", None)
       else ret ("v2", None)
   end) st.
Proof.
  intros Hv Hu. unfold GetVersion at 1.
  unfold bind at 1. unfold get_self at 1. cbn iota beta.
  rewrite Hv. cbn [String.eqb negb].
  unfold bind at 1. rewrite Hu. reflexivity.
Qed.

End Detection.

(** A string that ends in two separators. *)
Lemma substring_two_slashes (base : string) :
  String.substring (String.length base) 2 ((base ++ "/") ++ "/") = "//".
Proof. induction base as [|c base IH]; [reflexivity|exact IH]. Qed.

Lemma HasSuffix_two_slashes (base : string) :
  strings.HasSuffix ((base ++ "/") ++ "/") "//" = true.
Proof.
  unfold strings.HasSuffix. rewrite !length_append_slash.
  change (String.length "//") with 2%nat.
  replace (S (S (String.length base)) - 2)%nat with (String.length base)
    by lia.
  rewrite substring_two_slashes. reflexivity.
Qed.

Lemma append_slash_inj (a b : string) : a ++ "/" = b ++ "/" -> a = b.
Proof.
  revert b; induction a as [|x a IH]; intros [|y b] H; simpl in H.
  - reflexivity.
  - injection H as _ H. destruct b; discriminate H.
  - injection H as _ H. destruct a; discriminate H.
  - injection H as -> H. f_equal. now apply IH.
Qed.

(** A URI that does not end in two separators is a base that ends in
    none, alone or followed by one. *)
Lemma one_slash_split (uri : string) :
  strings.HasSuffix uri "//" = false ->
  exists base,
    strings.HasSuffix base "/" = false /\ (uri = base \/ uri = base ++ "/").
Proof.
  intros H2.
  destruct (strings.HasSuffix uri "/") eqn:H1.
  - destruct (HasSuffix_slash_split uri H1) as [base ->].
    exists base. split; [|now right].
    destruct (strings.HasSuffix base "/") eqn:Hb; [|reflexivity].
    destruct (HasSuffix_slash_split base Hb) as [b' ->].
    rewrite HasSuffix_two_slashes in H2. discriminate H2.
  - exists uri. split; [exact H1|now left].
Qed.

(** C6. For a non-empty base URI that does not end in two separators,
    the request path of a metric group has exactly one separator between
    the base and [xml/v3/<group>]: it is added when the URI does not end
    in one, and the URI's own trailing separator is the one used when it
    does, so that the URI with and without its trailing separator give
    the same path. *)
Theorem GetV3URI_one_separator (st : State Exporter) (metric : string) :
  URI (self st) <> "" ->
  strings.HasSuffix (URI (self st)) "//" = false ->
  exists path,
    GetV3URI metric st = (Return path, st) /\
    one_separator (URI (self st)) ("xml/v3/" ++ metric) path.
Proof.
  intros Hne H2.
  destruct (one_slash_split (URI (self st)) H2) as (base & Hb & [Hu|Hu]).
  - exists (base ++ "/" ++ "xml/v3/" ++ metric). split.
    + rewrite (GetV3URI_without_slash st metric Hne); rewrite Hu; auto.
    + exists base. auto.
  - exists (base ++ "/" ++ "xml/v3/" ++ metric). split.
    + exact (GetV3URI_with_slash st metric base Hu).
    + exists base. auto.
Qed.

Lemma GetV3URI_one_separator_witness :
  (exists path,
      GetV3URI "server"
        (state_of (NewExporter "http://localhost:8053" ["server"] 10)) =
      (Return path,
       state_of (NewExporter "http://localhost:8053" ["server"] 10)) /\
      one_separator "http://localhost:8053" "xml/v3/server" path) /\
  (exists path,
      GetV3URI "server"
        (state_of (NewExporter "http://localhost:8053/" ["server"] 10)) =
      (Return path,
       state_of (NewExporter "http://localhost:8053/" ["server"] 10)) /\
      one_separator "http://localhost:8053/" "xml/v3/server" path).
Proof.
  split.
  - apply (GetV3URI_one_separator
             (state_of (NewExporter "http://localhost:8053" ["server"] 10))
             "server"); [discriminate | reflexivity].
  - apply (GetV3URI_one_separator
             (state_of (NewExporter "http://localhost:8053/" ["server"] 10))
             "server"); [discriminate | reflexivity].
Defined.

(** C6, as stated for every non-empty base URI, fails: [GetV3URI] looks
    at the last byte only, so a URI that ends in two separators keeps
    both, and the path has a doubled separator before [xml/v3/<group>]. *)
Lemma GetV3URI_doubled_separator :
  GetV3URI "server"
    (state_of (NewExporter "http://localhost:8053//" ["server"] 10)) =
  (Return "http://localhost:8053//xml/v3/server",
   state_of (NewExporter "http://localhost:8053//" ["server"] 10)) /\
  ~ (forall (st : State Exporter) (metric : string),
        URI (self st) <> "" ->
        exists path,
          GetV3URI metric st = (Return path, st) /\
          one_separator (URI (self st)) ("xml/v3/" ++ metric) path).
Proof.
  split; [reflexivity|].
  intros H.
  destruct (H (state_of (NewExporter "http://localhost:8053//" ["server"] 10))
              "server")
    as (path & _ & base & Hb & Hu & _); [discriminate|].
  cbn in Hu. destruct Hu as [Hu|Hu].
  - rewrite <- Hu in Hb. discriminate Hb.
  - apply (append_slash_inj "http://localhost:8053/" base) in Hu.
    rewrite <- Hu in Hb. discriminate Hb.
Qed.

(** C2. When nothing is cached and the probe of [xml/v3/status] is
    answered with status code [s], [GetVersion] returns "v3" for
    [200 <= s < 300], "v2" for every other [s] below 500, and an error
    (the status line, no generation) for [s >= 500]. *)
Theorem GetVersion_by_status
        (server : list string -> string -> result Response)
        (st : State Exporter) (uri : string) (resp : Response)
        (Hcache : version (self st) = "")
        (Huri : GetV3URI "status" st = (Return uri, st))
        (Hresp : server (requests st) uri = Ok resp) :
  (200 <= StatusCode resp < 300 ->
   fst (GetVersion server st) = Return ("v3", None)) /\
  (StatusCode resp < 500 -> ~ 200 <= StatusCode resp < 300 ->
   fst (GetVersion server st) = Return ("v2", None)) /\
  (500 <= StatusCode resp ->
   fst (GetVersion server st) = Return ("", Some (Status resp))).
Proof.
  rewrite (GetVersion_probe server st uri Hcache Huri).
  unfold bind, client_Get. rewrite Hresp.
  split; [|split].
  - intros [Hlo Hhi].
    destruct (Z.leb_spec 500 (StatusCode resp)); [lia|].
    destruct (Z.ltb_spec (StatusCode resp) 300); [|lia].
    destruct (Z.leb_spec 200 (StatusCode resp)); [|lia].
    reflexivity.
  - intros Hlt Hout.
    destruct (Z.leb_spec 500 (StatusCode resp)); [lia|].
    destruct (Z.ltb_spec (StatusCode resp) 300);
      destruct (Z.leb_spec 200 (StatusCode resp)); try reflexivity; lia.
  - intros Hge.
    destruct (Z.leb_spec 500 (StatusCode resp)); [|lia].
    reflexivity.
Qed.

Lemma GetVersion_by_status_witness :
  fst (GetVersion (constant_server 404 "404 Not Found" "")
                  (state_of (NewExporter "http://localhost:8053/" [] 10))) =
  Return ("v2", None).
Proof.
  refine (proj1 (proj2 (GetVersion_by_status
            (constant_server 404 "404 Not Found" "")
            (state_of (NewExporter "http://localhost:8053/" [] 10))
            "http://localhost:8053/xml/v3/status"
            {| Status := "404 Not Found"; StatusCode := 404; Body := Ok "" |}
            eq_refl eq_refl eq_refl)) _ _); cbn; lia.
Defined.

(* ================================================================== *)
(** ** Fetching                                                        *)
(* ================================================================== *)

Section Fetching.

Variable server : list string -> string -> result Response.
Variable xml_Unmarshal_V2 : string -> BindRootV2 -> BindRootV2 * option error.
Variable xml_Unmarshal_V3 : string -> BindRootV3 -> BindRootV3 * option error.
Variable dedup : BindRootV3 -> BindRootV3.

Lemma add_requests_nil {E} (st : State E) : add_requests st [] = st.
Proof. destruct st; unfold add_requests; simpl. now rewrite app_nil_r. Qed.

Lemma add_requests_app {E} (st : State E) (a b : list string) :
  add_requests (add_requests st a) b = add_requests st (a ++ b).
Proof. unfold add_requests; simpl. now rewrite app_assoc. Qed.

Lemma GetV3URI_v3uri (st : State Exporter) (metric : string) :
  URI (self st) <> "" ->
  GetV3URI metric st = (Return (v3uri (self st) metric), st).
Proof.
  intros Hne. unfold v3uri.
  destruct (strings.HasSuffix (URI (self st)) "/") eqn:Hs.
  - destruct (HasSuffix_slash_split _ Hs) as [base Hb].
    rewrite (GetV3URI_with_slash st metric base Hb), Hb.
    now rewrite append_assoc.
  - now apply GetV3URI_without_slash.
Qed.

Lemma Fetch_eq {E} (st : State E) (uri : string) :
  Fetch server uri st =
  (Return (fetch_result server (requests st) uri), add_requests st [uri]).
Proof.
  unfold Fetch, bind, client_Get, fetch_result, add_requests, ret.
  destruct (server (requests st) uri) as [resp|err]; [|reflexivity].
  destruct (Body resp); reflexivity.
Qed.

(** The group loop, for a non-empty URI, is its run. *)
Lemma FetchV3_loop_run (ms : list string) :
  forall (st : State Exporter) (root : BindRootV3),
    URI (self st) <> "" ->
    FetchV3_loop server xml_Unmarshal_V3 ms root st =
    (Return (fst (group_run server xml_Unmarshal_V3 (self st)
                            (requests st) root ms)),
     add_requests st (snd (group_run server xml_Unmarshal_V3 (self st)
                                     (requests st) root ms))).
Proof.
  induction ms as [|m rest IH]; intros st root Hne.
  - simpl. now rewrite add_requests_nil.
  - cbn [FetchV3_loop group_run]. unfold bind at 1.
    rewrite (GetV3URI_v3uri st m Hne).
    unfold bind at 1. rewrite Fetch_eq.
    unfold group_step.
    destruct (fetch_result server (requests st) (v3uri (self st) m))
      as [body|err]; [|reflexivity].
    destruct (xml_Unmarshal_V3 body root) as [root' [err|]]; [reflexivity|].
    rewrite IH by exact Hne.
    cbn [add_requests self requests].
    destruct (group_run server xml_Unmarshal_V3 (self st)
                        (requests st ++ [v3uri (self st) m]) root' rest)
      as [r us].
    cbn [fst snd]. rewrite add_requests_app. reflexivity.
Qed.

Lemma FetchV3_run (st : State Exporter) :
  URI (self st) <> "" ->
  FetchV3 server xml_Unmarshal_V3 dedup st =
  (Return
     match fst (group_run server xml_Unmarshal_V3 (self st) (requests st)
                          zero_BindRootV3 (metrics (self st))) with
     | Err err => Err err
     | Ok root => Ok (dedup root)
     end,
   add_requests st (snd (group_run server xml_Unmarshal_V3 (self st)
                                   (requests st) zero_BindRootV3
                                   (metrics (self st))))).
Proof.
  intros Hne. unfold FetchV3, bind, get_self.
  rewrite (FetchV3_loop_run _ st _ Hne).
  destruct (fst (group_run server xml_Unmarshal_V3 (self st) (requests st)
                           zero_BindRootV3 (metrics (self st))));
    reflexivity.
Qed.

Lemma FetchV2_eq (st : State Exporter) :
  FetchV2 server xml_Unmarshal_V2 st =
  (Return
     match fetch_result server (requests st) (URI (self st)) with
     | Err err => Err err
     | Ok data =>
         match xml_Unmarshal_V2 data zero_BindRootV2 with
         | (_, Some err) => Err err
         | (root, None) => Ok root
         end
     end,
   add_requests st [URI (self st)]).
Proof.
  unfold FetchV2, bind, get_self. rewrite Fetch_eq.
  destruct (fetch_result server (requests st) (URI (self st)))
    as [data|err]; [|reflexivity].
  destruct (xml_Unmarshal_V2 data zero_BindRootV2) as [root [err|]];
    reflexivity.
Qed.

(** The run of the groups [pre ++ g :: post] when those of [pre] succeed
    and [g] fails: the error of [g], and no request after that of [g]. *)
Lemma group_run_first_failure (e : Exporter) (pre : list string) :
  forall (reqs : list string) (root root' : BindRootV3)
         (g : string) (post : list string) (err : error),
    groups_ok server xml_Unmarshal_V3 e reqs root pre = Some root' ->
    group_step server xml_Unmarshal_V3 e
               (reqs ++ List.map (v3uri e) pre) root' g = Err err ->
    group_run server xml_Unmarshal_V3 e reqs root (pre ++ g :: post) =
    (Err err, List.map (v3uri e) (pre ++ [g])).
Proof.
  induction pre as [|m pre IH]; intros reqs root root' g post err Hok Hg.
  - simpl in *. injection Hok as <-. rewrite app_nil_r in Hg.
    now rewrite Hg.
  - simpl in Hok |- *.
    destruct (group_step server xml_Unmarshal_V3 e reqs root m)
      as [root1|err1]; [|discriminate Hok].
    rewrite (IH (reqs ++ [v3uri e m])%list root1 root' g post err Hok).
    + reflexivity.
    + rewrite <- app_assoc. exact Hg.
Qed.

End Fetching.

(* ================================================================== *)
(** ** Frames: what detection and fetching leave alone                 *)
(* ================================================================== *)

Section Frames.

Variable server : list string -> string -> result Response.
Variable xml_Unmarshal_V2 : string -> BindRootV2 -> BindRootV2 * option error.
Variable xml_Unmarshal_V3 : string -> BindRootV3 -> BindRootV3 * option error.
Variable dedup : BindRootV3 -> BindRootV3.

Lemma fetch_frame_refl {E} (st : State E) : fetch_frame st st.
Proof.
  repeat split. exists []. now rewrite app_nil_r.
Qed.

Lemma fetch_frame_trans {E} (a b c : State E) :
  fetch_frame a b -> fetch_frame b c -> fetch_frame a c.
Proof.
  intros (Hs1 & Hc1 & us1 & Hr1) (Hs2 & Hc2 & us2 & Hr2).
  split; [congruence|]. split; [congruence|].
  exists (us1 ++ us2)%list. rewrite Hr2, Hr1. now rewrite app_assoc.
Qed.

Lemma fetch_frame_add_requests {E} (st : State E) (us : list string) :
  fetch_frame st (add_requests st us).
Proof. repeat split. now exists us. Qed.

Lemma fetch_frame_add_logs {E} (st : State E) (ls : list (Level * string)) :
  fetch_frame st (add_logs st ls).
Proof. repeat split. exists []. simpl. now rewrite app_nil_r. Qed.

(** [GetV3URI] never changes the state. *)
Lemma GetV3URI_state (st : State Exporter) (metric : string) :
  snd (GetV3URI metric st) = st.
Proof.
  destruct (String.eqb_spec (URI (self st)) "") as [He|Hne].
  - now rewrite (GetV3URI_empty st metric He).
  - now rewrite (GetV3URI_v3uri st metric Hne).
Qed.

(** [GetVersion] with nothing cached, on a non-empty URI. *)
Lemma GetVersion_cases (st : State Exporter) :
  version (self st) = "" ->
  URI (self st) <> "" ->
  GetVersion server st =
  match server (requests st) (v3uri (self st) "status") with
  | Err err =>
      (Return ("", Some err),
       add_logs (add_requests st [v3uri (self st) "status"])
                [(ErrorLevel, "Error while querying Bind: " ++ err)])
  | Ok resp =>
      if 500 <=? StatusCode resp then
        (Return ("", Some (Status resp)),
         add_logs (add_requests st [v3uri (self st) "status"])
                  [(ErrorLevel, "Error while querying Bind: " ++ Status resp)])
      else if (StatusCode resp <? 300) && (200 <=? StatusCode resp) then
        (Return ("v3", None), add_requests st [v3uri (self st) "status"])
      else
        (Return ("v2", None), add_requests st [v3uri (self st) "status"])
  end.
Proof.
  intros Hv Hne.
  rewrite (GetVersion_probe server st _ Hv (GetV3URI_v3uri st "status" Hne)).
  unfold bind, client_Get.
  destruct (server (requests st) (v3uri (self st) "status")) as [resp|err];
    [|reflexivity].
  destruct (500 <=? StatusCode resp); [reflexivity|].
  destruct ((StatusCode resp <? 300) && (200 <=? StatusCode resp));
    reflexivity.
Qed.

(** [GetVersion] with a cached version returns it and does nothing. *)
Lemma GetVersion_cached (st : State Exporter) :
  version (self st) <> "" ->
  GetVersion server st = (Return (version (self st), None), st).
Proof.
  intros Hv. unfold GetVersion, bind, get_self.
  apply String.eqb_neq in Hv. now rewrite Hv.
Qed.

(** [GetVersion] on the empty URI with nothing cached panics. *)
Lemma GetVersion_empty (st : State Exporter) :
  version (self st) = "" ->
  URI (self st) = "" ->
  GetVersion server st = (Panic "runtime error: index out of range", st).
Proof.
  intros Hv He. unfold GetVersion. unfold bind at 1. unfold get_self at 1.
  cbn iota beta. rewrite Hv. cbn [String.eqb negb].
  unfold bind at 1. now rewrite (GetV3URI_empty st "status" He).
Qed.

Lemma GetVersion_frame (st : State Exporter) :
  fetch_frame st (snd (GetVersion server st)).
Proof.
  destruct (String.eqb_spec (version (self st)) "") as [Hv|Hv].
  - destruct (String.eqb_spec (URI (self st)) "") as [He|Hne].
    + rewrite (GetVersion_empty st Hv He). apply fetch_frame_refl.
    + rewrite (GetVersion_cases st Hv Hne).
      destruct (server (requests st) (v3uri (self st) "status"))
        as [resp|err].
      * destruct (500 <=? StatusCode resp).
        -- eapply fetch_frame_trans;
             [apply fetch_frame_add_requests|apply fetch_frame_add_logs].
        -- destruct ((StatusCode resp <? 300) && (200 <=? StatusCode resp));
             apply fetch_frame_add_requests.
      * eapply fetch_frame_trans;
          [apply fetch_frame_add_requests|apply fetch_frame_add_logs].
  - rewrite (GetVersion_cached st Hv). apply fetch_frame_refl.
Qed.

Lemma FetchV2_frame (st : State Exporter) :
  fetch_frame st (snd (FetchV2 server xml_Unmarshal_V2 st)).
Proof. rewrite FetchV2_eq. apply fetch_frame_add_requests. Qed.

Lemma FetchV3_loop_empty (ms : list string) (root : BindRootV3)
      (st : State Exporter) :
  URI (self st) = "" ->
  FetchV3_loop server xml_Unmarshal_V3 ms root st =
  match ms with
  | [] => (Return (Ok root), st)
  | _ :: _ => (Panic "runtime error: index out of range", st)
  end.
Proof.
  intros He. destruct ms as [|m rest]; [reflexivity|].
  cbn [FetchV3_loop]. unfold bind at 1.
  now rewrite (GetV3URI_empty st m He).
Qed.

Lemma FetchV3_frame (st : State Exporter) :
  fetch_frame st (snd (FetchV3 server xml_Unmarshal_V3 dedup st)).
Proof.
  destruct (String.eqb_spec (URI (self st)) "") as [He|Hne].
  - unfold FetchV3, bind, get_self.
    rewrite (FetchV3_loop_empty _ _ st He).
    destruct (metrics (self st)); apply fetch_frame_refl.
  - rewrite (FetchV3_run server xml_Unmarshal_V3 dedup st Hne).
    apply fetch_frame_add_requests.
Qed.

End Frames.

(* ================================================================== *)
(** ** Collect                                                         *)
(* ================================================================== *)

Section Collecting.

Variable ParseFloat : string -> Z -> option float64.
Variable server : list string -> string -> result Response.
Variable xml_Unmarshal_V2 : string -> BindRootV2 -> BindRootV2 * option error.
Variable xml_Unmarshal_V3 : string -> BindRootV3 -> BindRootV3 * option error.
Variable dedup : BindRootV3 -> BindRootV3.

Lemma grows_refl {E} (st : State E) : grows st st.
Proof. split; [reflexivity|]. exists []. now rewrite app_nil_r. Qed.

Lemma fetch_frame_grows {E} (st st' : State E) :
  fetch_frame st st' -> grows st st'.
Proof. intros (Hs & _ & Hr). now split. Qed.

Lemma grows_trans {E} (a b c : State E) :
  grows a b -> grows b c -> grows a c.
Proof.
  intros (Hs1 & us1 & Hr1) (Hs2 & us2 & Hr2).
  split; [congruence|].
  exists (us1 ++ us2)%list. rewrite Hr2, Hr1. now rewrite app_assoc.
Qed.

(** Detection returns on a non-empty URI. *)
Lemma GetVersion_returns (st : State Exporter) :
  URI (self st) <> "" -> exists r, fst (GetVersion server st) = Return r.
Proof.
  intros Hne.
  destruct (String.eqb_spec (version (self st)) "") as [Hv|Hv].
  - rewrite (GetVersion_cases server st Hv Hne).
    destruct (server (requests st) (v3uri (self st) "status")) as [resp|err];
      [|simpl; eauto].
    destruct (500 <=? StatusCode resp); [simpl; eauto|].
    destruct ((StatusCode resp <? 300) && (200 <=? StatusCode resp));
      simpl; eauto.
  - rewrite (GetVersion_cached server st Hv). simpl; eauto.
Qed.

(** The body of [Collect], case by case: what it leaves alone, the
    value of [status], and its outcome. *)
Lemma Collect_body_analysis (st : State Exporter) :
  forall status out st',
    Collect_body ParseFloat server xml_Unmarshal_V2 xml_Unmarshal_V3 dedup st
    = (status, out, st') ->
    grows (snd (GetVersion server st)) st' /\
    (exists ms, ch st' = (ch st ++ ms)%list) /\
    (status = 1%float /\
     scrape_succeeds server xml_Unmarshal_V2 xml_Unmarshal_V3 dedup st \/
     status = 0%float /\
     ~ scrape_succeeds server xml_Unmarshal_V2 xml_Unmarshal_V3 dedup st) /\
    (URI (self st) <> "" -> out = Return tt).
Proof.
  intros status out st'. unfold Collect_body.
  pose proof (GetVersion_frame server st) as HF.
  pose proof (GetVersion_returns st) as HR.
  destruct (GetVersion server st) as [[[v [e|]]|msg] st1] eqn:HG;
    cbn [snd fst] in *.
  - (* detection returned an error *)
    intros H; injection H as <- <- <-.
    split; [apply grows_refl|].
    split; [exists []; rewrite app_nil_r; apply HF|].
    split; [|reflexivity].
    right; split; [reflexivity|].
    intros (v' & st1' & HG' & _). congruence.
  - destruct HF as (Hself & Hch & Hreq).
    destruct (String.eqb v "v3") eqn:Hv3.
    + (* Gen3 *)
      pose proof (FetchV3_frame server xml_Unmarshal_V3 dedup st1) as HF3.
      pose proof (FetchV3_run server xml_Unmarshal_V3 dedup st1) as HR3.
      destruct (FetchV3 server xml_Unmarshal_V3 dedup st1)
        as [[[root|err]|msg] st2] eqn:HF3e; cbn [snd] in HF3.
      * unfold UpdateV3, bind, send, log. cbn.
        intros H; injection H as <- <- <-.
        split; [split; [apply HF3|apply HF3]|].
        split; [cbn; rewrite (proj1 (proj2 HF3)), Hch; eauto|].
        split; [|reflexivity].
        left; split; [reflexivity|].
        exists v, st1. split; [exact HG|]. rewrite Hv3. eauto.
      * intros H; injection H as <- <- <-.
        split; [split; [apply HF3|apply HF3]|].
        split; [cbn; rewrite (proj1 (proj2 HF3)), Hch;
                exists []; now rewrite app_nil_r|].
        split; [|reflexivity].
        right; split; [reflexivity|].
        intros (v' & st1' & HG' & H).
        rewrite HG in HG'. injection HG' as <- <-. rewrite Hv3 in H.
        destruct H as (root & st2' & H). congruence.
      * intros H; injection H as <- <- <-.
        split; [apply fetch_frame_grows, HF3|].
        split; [rewrite (proj1 (proj2 HF3)), Hch;
                exists []; now rewrite app_nil_r|].
        split.
        -- right; split; [reflexivity|].
           intros (v' & st1' & HG' & H).
           rewrite HG in HG'. injection HG' as <- <-. rewrite Hv3 in H.
           destruct H as (root & st2' & H). congruence.
        -- intros Hne. rewrite <- Hself in Hne.
           specialize (HR3 Hne). congruence.
    + (* Gen2 *)
      pose proof (FetchV2_frame server xml_Unmarshal_V2 st1) as HF2.
      pose proof (FetchV2_eq server xml_Unmarshal_V2 st1) as HR2.
      destruct (FetchV2 server xml_Unmarshal_V2 st1)
        as [[[root|err]|msg] st2] eqn:HF2e; cbn [snd] in HF2.
      * unfold UpdateV2, bind, send, log. cbn.
        intros H; injection H as <- <- <-.
        split; [split; [apply HF2|apply HF2]|].
        split; [cbn; rewrite (proj1 (proj2 HF2)), Hch; eauto|].
        split; [|reflexivity].
        left; split; [reflexivity|].
        exists v, st1. split; [exact HG|]. rewrite Hv3. eauto.
      * intros H; injection H as <- <- <-.
        split; [split; [apply HF2|apply HF2]|].
        split; [cbn; rewrite (proj1 (proj2 HF2)), Hch;
                exists []; now rewrite app_nil_r|].
        split; [|reflexivity].
        right; split; [reflexivity|].
        intros (v' & st1' & HG' & H).
        rewrite HG in HG'. injection HG' as <- <-. rewrite Hv3 in H.
        destruct H as (root & st2' & H). congruence.
      * congruence.
  - (* detection panicked *)
    intros H; injection H as <- <- <-.
    split; [apply grows_refl|].
    split; [exists []; rewrite app_nil_r; apply HF|].
    split.
    + right; split; [reflexivity|].
      intros (v' & st1' & HG' & _). congruence.
    + intros Hne. destruct (HR Hne) as [r Hr]. discriminate Hr.
Qed.

(** [Collect] ends by sending [up] with the final [status], which is 1
    when detection and the fetch succeeded and 0 otherwise; what a
    mapper logs about a histogram plays no part. *)
Lemma Collect_up (st : State Exporter) :
  exists ms status,
    ch (snd (Collect ParseFloat server xml_Unmarshal_V2 xml_Unmarshal_V3
                     dedup st)) = (ch st ++ ms ++ [up_sample status])%list /\
    (scrape_succeeds server xml_Unmarshal_V2 xml_Unmarshal_V3 dedup st ->
     status = 1%float) /\
    (~ scrape_succeeds server xml_Unmarshal_V2 xml_Unmarshal_V3 dedup st ->
     status = 0%float).
Proof.
  unfold Collect.
  destruct (Collect_body ParseFloat server xml_Unmarshal_V2 xml_Unmarshal_V3
                         dedup st) as [[status out] st'] eqn:HB.
  destruct (Collect_body_analysis st status out st' HB)
    as (_ & (ms & Hch) & Hst & _).
  exists ms, status. cbn. rewrite Hch, <- app_assoc.
  split; [reflexivity|].
  destruct Hst as [[-> Hs]|[-> Hn]]; split; intros H;
    first [reflexivity | contradiction].
Qed.

Lemma Collect_grows (st : State Exporter) :
  grows (snd (GetVersion server st)) (snd (Collect ParseFloat server xml_Unmarshal_V2 xml_Unmarshal_V3
                dedup st)).
Proof.
  unfold Collect.
  destruct (Collect_body ParseFloat server xml_Unmarshal_V2 xml_Unmarshal_V3
                         dedup st) as [[status out] st'] eqn:HB.
  destruct (Collect_body_analysis st status out st' HB) as (Hg & _).
  exact Hg.
Qed.

(** No method assigns a field of the exporter. *)
Lemma Collect_self (st : State Exporter) :
  self (snd (Collect ParseFloat server xml_Unmarshal_V2 xml_Unmarshal_V3
                dedup st)) = self st.
Proof.
  destruct (Collect_grows st) as [Hs _].
  destruct (GetVersion_frame server st) as [Hs' _]. congruence.
Qed.

Lemma Collect_returns (st : State Exporter) :
  URI (self st) <> "" ->
  fst (Collect ParseFloat server xml_Unmarshal_V2 xml_Unmarshal_V3 dedup st)
  = Return tt.
Proof.
  intros Hne. unfold Collect.
  destruct (Collect_body ParseFloat server xml_Unmarshal_V2 xml_Unmarshal_V3
                         dedup st) as [[status out] st'] eqn:HB.
  destruct (Collect_body_analysis st status out st' HB) as (_ & _ & _ & Ho).
  cbn. auto.
Qed.

(** With nothing cached, the first request of a cycle is the probe. *)
Lemma Collect_probe_first (st : State Exporter) :
  version (self st) = "" ->
  URI (self st) <> "" ->
  exists rest,
    requests (snd (Collect ParseFloat server xml_Unmarshal_V2 xml_Unmarshal_V3
                dedup st)) =
    (requests st ++ v3uri (self st) "status" :: rest)%list.
Proof.
  intros Hv Hne.
  destruct (Collect_grows st) as [_ [us Hus]].
  assert (Hp : requests (snd (GetVersion server st)) =
               (requests st ++ [v3uri (self st) "status"])%list).
  { rewrite (GetVersion_cases server st Hv Hne).
    destruct (server (requests st) (v3uri (self st) "status")) as [resp|err];
      [|reflexivity].
    destruct (500 <=? StatusCode resp); [reflexivity|].
    destruct ((StatusCode resp <? 300) && (200 <=? StatusCode resp));
      reflexivity. }
  exists us. rewrite Hus, Hp, <- app_assoc. reflexivity.
Qed.

Lemma scrapes_self (n : nat) (st : State Exporter) :
  self (scrapes ParseFloat server xml_Unmarshal_V2 xml_Unmarshal_V3 dedup
                n st) = self st.
Proof.
  induction n as [|n IH]; [reflexivity|].
  cbn [scrapes]. now rewrite Collect_self.
Qed.

End Collecting.

(** C9. [GetVersion] reads the cached [version] before probing and no
    method assigns it: [GetVersion] and [Collect] leave every field of the
    exporter as it was, so an exporter that starts with nothing cached
    has nothing cached after any number of scrape cycles, and each of its
    cycles starts with the probe of [xml/v3/status] (on the empty URI the
    probe path itself cannot be built, see C10). *)
Theorem version_never_cached
        (ParseFloat : string -> Z -> option float64)
        (server : list string -> string -> result Response)
        (xml_Unmarshal_V2 : string -> BindRootV2 -> BindRootV2 * option error)
        (xml_Unmarshal_V3 : string -> BindRootV3 -> BindRootV3 * option error)
        (dedup : BindRootV3 -> BindRootV3)
        (st : State Exporter) :
  self (snd (GetVersion server st)) = self st /\
  self (snd (Collect ParseFloat server xml_Unmarshal_V2 xml_Unmarshal_V3 dedup
                     st)) = self st /\
  (version (self st) = "" ->
   forall n,
     let stn := scrapes ParseFloat server xml_Unmarshal_V2 xml_Unmarshal_V3
                        dedup n st in
     version (self stn) = "" /\
     (URI (self st) <> "" ->
      exists rest,
        requests (snd (Collect ParseFloat server xml_Unmarshal_V2
                               xml_Unmarshal_V3 dedup stn)) =
        (requests stn ++ v3uri (self st) "status" :: rest)%list)).
Proof.
  split; [apply GetVersion_frame|].
  split; [apply Collect_self|].
  intros Hv n stn.
  assert (Hs : self stn = self st) by apply scrapes_self.
  split; [now rewrite Hs|].
  intros Hne. rewrite <- Hs. apply Collect_probe_first; now rewrite Hs.
Qed.

(** C10. On a non-empty base URI neither [GetV3URI] nor its callers
    [GetVersion] and [FetchV3] nor [Collect] panic. On the empty base URI
    [GetV3URI] indexes the byte before the first and panics; with nothing
    cached the panic leaves [GetVersion] and [Collect] as a panic, not as
    an error value. *)
Theorem GetV3URI_panics_on_empty_only
        (ParseFloat : string -> Z -> option float64)
        (server : list string -> string -> result Response)
        (xml_Unmarshal_V2 : string -> BindRootV2 -> BindRootV2 * option error)
        (xml_Unmarshal_V3 : string -> BindRootV3 -> BindRootV3 * option error)
        (dedup : BindRootV3 -> BindRootV3)
        (st : State Exporter) (metric : string) :
  (URI (self st) <> "" ->
   (exists u, GetV3URI metric st = (Return u, st)) /\
   (exists r, fst (GetVersion server st) = Return r) /\
   (exists r, fst (FetchV3 server xml_Unmarshal_V3 dedup st) = Return r) /\
   fst (Collect ParseFloat server xml_Unmarshal_V2 xml_Unmarshal_V3 dedup st)
   = Return tt) /\
  (URI (self st) = "" ->
   (exists msg, GetV3URI metric st = (Panic msg, st)) /\
   (version (self st) = "" ->
    exists msg,
      fst (GetVersion server st) = Panic msg /\
      fst (Collect ParseFloat server xml_Unmarshal_V2 xml_Unmarshal_V3 dedup
                   st) = Panic msg)).
Proof.
  split.
  - intros Hne.
    split; [now apply GetV3URI_total|].
    split; [now apply GetVersion_returns|].
    split; [|now apply Collect_returns].
    rewrite (FetchV3_run server xml_Unmarshal_V3 dedup st Hne).
    cbn [fst]. eauto.
  - intros He.
    split; [eexists; now apply GetV3URI_empty|].
    intros Hv. eexists.
    split; [now rewrite (GetVersion_empty server st Hv He)|].
    unfold Collect, Collect_body.
    now rewrite (GetVersion_empty server st Hv He).
Qed.

(** C8. When the groups before [g] in the configured list fetch and parse
    and [g] does not, [FetchV3] returns the error of [g] after requesting
    the groups up to [g] and no other; a cycle whose detection chose Gen3
    then sends nothing but [up = 0]. *)
Theorem FetchV3_stops_at_first_failure
        (ParseFloat : string -> Z -> option float64)
        (server : list string -> string -> result Response)
        (xml_Unmarshal_V2 : string -> BindRootV2 -> BindRootV2 * option error)
        (xml_Unmarshal_V3 : string -> BindRootV3 -> BindRootV3 * option error)
        (dedup : BindRootV3 -> BindRootV3)
        (st : State Exporter) (pre : list string) (g : string)
        (post : list string) (root' : BindRootV3) (err : error)
        (Hne : URI (self st) <> "")
        (Hms : metrics (self st) = (pre ++ g :: post)%list)
        (Hpre : groups_ok server xml_Unmarshal_V3 (self st) (requests st)
                          zero_BindRootV3 pre = Some root')
        (Hg : group_step server xml_Unmarshal_V3 (self st)
                         (requests st ++ List.map (v3uri (self st)) pre)
                         root' g = Err err) :
  FetchV3 server xml_Unmarshal_V3 dedup st =
  (Return (Err err),
   add_requests st (List.map (v3uri (self st)) (pre ++ [g]))) /\
  forall st0,
    GetVersion server st0 = (Return ("v3", None), st) ->
    let st' := snd (Collect ParseFloat server xml_Unmarshal_V2
                            xml_Unmarshal_V3 dedup st0) in
    requests st' =
    (requests st ++ List.map (v3uri (self st)) (pre ++ [g]))%list /\
    ch st' = (ch st ++ [up_sample 0%float])%list.
Proof.
  assert (HF : FetchV3 server xml_Unmarshal_V3 dedup st =
               (Return (Err err),
                add_requests st (List.map (v3uri (self st)) (pre ++ [g])))).
  { rewrite (FetchV3_run server xml_Unmarshal_V3 dedup st Hne), Hms.
    now rewrite (group_run_first_failure server xml_Unmarshal_V3 (self st)
                   pre (requests st) zero_BindRootV3 root' g post err Hpre Hg). }
  split; [exact HF|].
  intros st0 HG st'. subst st'.
  unfold Collect, Collect_body. rewrite HG.
  change (String.eqb "v3" "v3") with true. cbn iota. rewrite HF.
  split; reflexivity.
Qed.

Lemma FetchV3_stops_at_first_failure_witness :
  let e := NewExporter "http://localhost:8053/" ["server"; "net"; "zones"] 10 in
  let st' := snd (Collect ParseFloat_digits net_down_server Unmarshal_accept
                          Unmarshal_accept (fun root => root) (state_of e)) in
  requests st' =
  [ "http://localhost:8053/xml/v3/status";
    "http://localhost:8053/xml/v3/server";
    "http://localhost:8053/xml/v3/net" ] /\
  ch st' = [up_sample 0%float].
Proof.
  intros e.
  refine (proj2 (FetchV3_stops_at_first_failure
            ParseFloat_digits net_down_server Unmarshal_accept
            Unmarshal_accept (fun root => root)
            (add_requests (state_of e) ["http://localhost:8053/xml/v3/status"])
            ["server"] "net" ["zones"] zero_BindRootV3 "connection refused"
            _ eq_refl eq_refl eq_refl) (state_of e) eq_refl).
  discriminate.
Defined.

(** C1 (earlier exporter). When the GET and the read of the body succeed
    and the document does not parse, the earlier [Collect] has already
    set [status] to 1: it sends [up = 1] and nothing else. *)
Theorem Legacy_Collect_up_despite_unmarshal_error
        (server : list string -> string -> result Response)
        (xml_Unmarshal : string -> Legacy.Isc -> Legacy.Isc * option error)
        (st : State Legacy.Exporter) (resp : Response) (body : string)
        (root : Legacy.Isc) (err : error)
        (Hget : server (requests st) (Legacy.URI (self st)) = Ok resp)
        (Hbody : Body resp = Ok body)
        (Hxml : xml_Unmarshal body Legacy.zero_Isc = (root, Some err)) :
  ch (snd (Legacy.Collect server xml_Unmarshal st)) =
  (ch st ++ [ConstMetric Legacy.up GaugeValue 1%float []])%list.
Proof.
  unfold Legacy.Collect, Legacy.Collect_body, client_Get.
  rewrite Hget, Hbody, Hxml. reflexivity.
Qed.

Lemma Legacy_Collect_up_despite_unmarshal_error_witness :
  ch (snd (Legacy.Collect (constant_server 200 "200 OK" "<isc><bind>")
                          Unmarshal_refuse
                          {| self := Legacy.NewExporter "http://localhost:8053/" 10;
                             requests := []; ch := []; logs := [] |})) =
  [ConstMetric Legacy.up GaugeValue 1%float []].
Proof.
  exact (Legacy_Collect_up_despite_unmarshal_error
           (constant_server 200 "200 OK" "<isc><bind>") Unmarshal_refuse
           {| self := Legacy.NewExporter "http://localhost:8053/" 10;
              requests := []; ch := []; logs := [] |}
           {| Status := "200 OK"; StatusCode := 200; Body := Ok "<isc><bind>" |}
           "<isc><bind>" Legacy.zero_Isc "XML syntax error"
           eq_refl eq_refl eq_refl).
Defined.

Lemma version_never_cached_witness :
  let st := state_of (NewExporter "http://localhost:8053/" ["server"] 10) in
  let stn := scrapes ParseFloat_digits (constant_server 200 "200 OK" "")
                     Unmarshal_accept Unmarshal_accept (fun root => root)
                     3 st in
  version (self stn) = "" /\
  exists rest,
    requests (snd (Collect ParseFloat_digits (constant_server 200 "200 OK" "")
                           Unmarshal_accept Unmarshal_accept
                           (fun root => root) stn)) =
    (requests stn ++ v3uri (self st) "status" :: rest)%list.
Proof.
  intros st.
  destruct (proj2 (proj2 (version_never_cached
              ParseFloat_digits (constant_server 200 "200 OK" "")
              Unmarshal_accept Unmarshal_accept (fun root => root) st))
              eq_refl 3%nat) as [Hv Hp].
  split; [exact Hv|]. apply Hp. discriminate.
Defined.

Lemma GetV3URI_panics_on_empty_only_witness :
  (exists msg,
      fst (Collect ParseFloat_digits (constant_server 200 "200 OK" "")
                   Unmarshal_accept Unmarshal_accept (fun root => root)
                   (state_of (NewExporter "" ["server"] 10))) = Panic msg) /\
  fst (Collect ParseFloat_digits (constant_server 200 "200 OK" "")
               Unmarshal_accept Unmarshal_accept (fun root => root)
               (state_of (NewExporter "http://localhost:8053" ["server"] 10)))
  = Return tt.
Proof.
  split.
  - destruct (proj2 (proj2 (GetV3URI_panics_on_empty_only
                ParseFloat_digits (constant_server 200 "200 OK" "")
                Unmarshal_accept Unmarshal_accept (fun root => root)
                (state_of (NewExporter "" ["server"] 10)) "status")
                eq_refl) eq_refl) as [msg [_ H]].
    exists msg. exact H.
  - refine (proj2 (proj2 (proj2 (proj1 (GetV3URI_panics_on_empty_only
              ParseFloat_digits (constant_server 200 "200 OK" "")
              Unmarshal_accept Unmarshal_accept (fun root => root)
              (state_of (NewExporter "http://localhost:8053" ["server"] 10))
              "status") _)))).
    discriminate.
Defined.

(* ================================================================== *)
(** ** The mapping of name-server operational counters                 *)
(* ================================================================== *)

Section Mapping.

Variable ParseFloat : string -> Z -> option float64.

Lemma nsstat_V2_app (a b : list StatV2) :
  nsstat_V2 (a ++ b) = (nsstat_V2 a ++ nsstat_V2 b)%list.
Proof. unfold nsstat_V2. apply flat_map_app. Qed.

(** A counter whose name is in no table adds nothing to the loop. *)
Lemma nsstat_V2_unlisted (pre post : list StatV2) (s : StatV2) :
  lookup serverLabelStats (StatV2_Name s) = None ->
  nsstat_V2 (pre ++ s :: post) = nsstat_V2 (pre ++ post).
Proof.
  intros Hs. rewrite !nsstat_V2_app. f_equal.
  unfold nsstat_V2 at 1. cbn [flat_map]. now rewrite Hs.
Qed.

Lemma UpdateV2_out_sends (root : BindRootV2) :
  exists before after,
    fst (UpdateV2_out ParseFloat root) =
    (before ++
     nsstat_V2 (NsStats (StatisticsV2_Server (Bind_Statistics root))) ++
     after)%list.
Proof.
  unfold UpdateV2_out, out_concat. cbn [fold_right out_app fst sends].
  eexists. eexists. rewrite app_assoc. reflexivity.
Qed.

End Mapping.

(** C7. [UpdateV2] sends the name-server operational counter
    QrySuccess = 10 on the channel as the counter [bind_responses_total]
    with the label [result] set to "Success", the value 10 and the prefix
    "Qry" gone; a counter whose name is in no table changes neither what
    [UpdateV2] sends on the channel nor what it logs, and [UpdateV2]
    returns. *)
Theorem nsstat_mapping
        (ParseFloat : string -> Z -> option float64) (root : BindRootV2)
        (st : State Exporter) :
  (In (mkStatV2 "QrySuccess" 10)
      (NsStats (StatisticsV2_Server (Bind_Statistics root))) ->
   exists sent,
     ch (snd (UpdateV2 ParseFloat root st)) = (ch st ++ sent)%list /\
     In (ConstMetric serverReponses CounterValue 10%float ["Success"]) sent) /\
  fqName serverReponses = "bind_responses_total" /\
  variableLabels serverReponses = ["result"] /\
  (forall pre post s,
      lookup serverLabelStats (StatV2_Name s) = None ->
      NsStats (StatisticsV2_Server (Bind_Statistics root)) =
      (pre ++ s :: post)%list ->
      nsstat_V2 [s] = [] /\
      UpdateV2_out ParseFloat root =
      UpdateV2_out ParseFloat (with_NsStats root (pre ++ post)) /\
      UpdateV2 ParseFloat root st =
      UpdateV2 ParseFloat (with_NsStats root (pre ++ post)) st /\
      fst (UpdateV2 ParseFloat root st) = Return tt).
Proof.
  split; [|split; [reflexivity|split; [reflexivity|]]].
  - intros Hin.
    exists (fst (UpdateV2_out ParseFloat root)). split; [reflexivity|].
    destruct (UpdateV2_out_sends ParseFloat root) as (before & after & ->).
    apply in_or_app; right. apply in_or_app; left.
    unfold nsstat_V2. apply in_flat_map.
    exists (mkStatV2 "QrySuccess" 10). split; [exact Hin|].
    left. vm_compute. reflexivity.
  - intros pre post s Hs Hns.
    assert (Hout : UpdateV2_out ParseFloat root =
                   UpdateV2_out ParseFloat (with_NsStats root (pre ++ post))).
    { unfold UpdateV2_out, with_NsStats.
      cbn [Bind_Statistics StatisticsV2_Server StatisticsV2_Views
           StatisticsV2_Taskmgr QueriesIn_Rdtype Requests_Opcode NsStats].
      rewrite Hns, (nsstat_V2_unlisted pre post s Hs). reflexivity. }
    split; [|split; [exact Hout|split; [|reflexivity]]].
    + unfold nsstat_V2. cbn [flat_map]. now rewrite Hs.
    + unfold UpdateV2. now rewrite <- Hout.
Qed.

Lemma nsstat_mapping_witness :
  let root :=
    with_NsStats zero_BindRootV2
      [mkStatV2 "QrySuccess" 10; mkStatV2 "UpdateDone" 4] in
  let st := state_of (NewExporter "http://localhost:8053/" [] 10) in
  (exists sent,
      ch (snd (UpdateV2 ParseFloat_digits root st)) = (ch st ++ sent)%list /\
      In (ConstMetric serverReponses CounterValue 10%float ["Success"]) sent) /\
  UpdateV2 ParseFloat_digits root st =
  UpdateV2 ParseFloat_digits (with_NsStats root [mkStatV2 "QrySuccess" 10]) st.
Proof.
  intros root st. split.
  - refine (proj1 (nsstat_mapping ParseFloat_digits root st) _).
    left; reflexivity.
  - refine (proj1 (proj2 (proj2 (proj2 (proj2 (proj2
              (nsstat_mapping ParseFloat_digits root st)))
              [mkStatV2 "QrySuccess" 10] [] (mkStatV2 "UpdateDone" 4)
              eq_refl eq_refl)))).
Defined.

(* ================================================================== *)
(** ** The order of binary64 floats                                    *)
(* ================================================================== *)

Lemma rank_cmp_Lt (a b : Z * (Z * Z)) : rank_cmp a b = Lt <-> rank_lt a b.
Proof.
  destruct a as [a1 [a2 a3]], b as [b1 [b2 b3]].
  unfold rank_cmp, rank_lt; cbn [fst snd].
  destruct (Z.compare_spec a1 b1); destruct (Z.compare_spec a2 b2);
    destruct (Z.compare_spec a3 b3);
    split; intros Hc; try discriminate Hc; try reflexivity; lia.
Qed.

Lemma rank_cmp_Eq (a b : Z * (Z * Z)) : rank_cmp a b = Eq <-> a = b.
Proof.
  destruct a as [a1 [a2 a3]], b as [b1 [b2 b3]].
  unfold rank_cmp; cbn [fst snd].
  destruct (Z.compare_spec a1 b1); destruct (Z.compare_spec a2 b2);
    destruct (Z.compare_spec a3 b3);
    split; intros Hc; try discriminate Hc; try reflexivity;
    try (injection Hc; intros; lia); subst; reflexivity.
Qed.

Lemma SFcompare_rank (x y : spec_float) :
  x <> S754_nan -> y <> S754_nan ->
  SFcompare x y = Some (rank_cmp (rank x) (rank y)).
Proof.
  intros Hx Hy.
  destruct x as [sx|sx| |sx mx ex]; try congruence;
    destruct y as [sy|sy| |sy my ey]; try congruence;
    try destruct sx; try destruct sy; try reflexivity.
  unfold SFcompare, rank, rank_cmp; cbn [fst snd].
  change (-1 ?= -1) with Eq. cbn iota.
  rewrite Z.compare_opp, (Z.compare_antisym ex ey).
  destruct (ex ?= ey); reflexivity.
Qed.

Lemma is_num_spec (x : float) : is_num x <-> Prim2SF x <> S754_nan.
Proof.
  unfold is_num. rewrite eqb_spec. unfold SFeqb.
  destruct (Prim2SF x) as [s|s| |s m e] eqn:E.
  - split; [discriminate|reflexivity].
  - split; [discriminate|]. now destruct s.
  - split; [discriminate|congruence].
  - split; [discriminate|]. intros _.
    rewrite SFcompare_rank by discriminate.
    now rewrite (proj2 (rank_cmp_Eq _ _) eq_refl).
Qed.

Lemma SFcompare_nan_l (y : spec_float) : SFcompare S754_nan y = None.
Proof. reflexivity. Qed.

Lemma SFcompare_nan_r (x : spec_float) : SFcompare x S754_nan = None.
Proof. now destruct x. Qed.

Lemma float_eqb_rank (x y : float) :
  (x =? y)%float = true <-> is_num x /\ is_num y /\ frank x = frank y.
Proof.
  rewrite !is_num_spec, eqb_spec. unfold SFeqb, frank.
  destruct (Prim2SF x) as [sx|sx| |sx mx ex] eqn:Ex;
    try (rewrite SFcompare_nan_l; split; [discriminate|intros [H _]; congruence]);
    (destruct (Prim2SF y) as [sy|sy| |sy my ey] eqn:Ey;
     [| |rewrite SFcompare_nan_r; split;
          [discriminate|intros (_ & H & _); congruence]|]);
    rewrite SFcompare_rank by discriminate;
    (split;
     [intros H; split; [discriminate|split; [discriminate|]];
      apply rank_cmp_Eq;
      destruct (rank_cmp _ _); [reflexivity|discriminate H|discriminate H]
     |intros (_ & _ & H); now rewrite (proj2 (rank_cmp_Eq _ _) H)]).
Qed.

Lemma float_ltb_rank (x y : float) :
  (x <? y)%float = true <->
  is_num x /\ is_num y /\ rank_lt (frank x) (frank y).
Proof.
  rewrite !is_num_spec, ltb_spec. unfold SFltb, frank.
  destruct (Prim2SF x) as [sx|sx| |sx mx ex] eqn:Ex;
    try (rewrite SFcompare_nan_l; split; [discriminate|intros [H _]; congruence]);
    (destruct (Prim2SF y) as [sy|sy| |sy my ey] eqn:Ey;
     [| |rewrite SFcompare_nan_r; split;
          [discriminate|intros (_ & H & _); congruence]|]);
    rewrite SFcompare_rank by discriminate;
    (split;
     [intros H; split; [discriminate|split; [discriminate|]];
      apply rank_cmp_Lt;
      destruct (rank_cmp _ _); [discriminate H|reflexivity|discriminate H]
     |intros (_ & _ & H); now rewrite (proj2 (rank_cmp_Lt _ _) H)]).
Qed.

Lemma float_eqb_sym (x y : float) : (x =? y)%float = true -> (y =? x)%float = true.
Proof.
  rewrite !float_eqb_rank. intros (Hx & Hy & H). now repeat split.
Qed.

Lemma float_ltb_trans (x y z : float) :
  (x <? y)%float = true -> (y <? z)%float = true -> (x <? z)%float = true.
Proof.
  rewrite !float_ltb_rank. intros (Hx & _ & H1) (_ & Hz & H2).
  split; [exact Hx|split; [exact Hz|]].
  unfold rank_lt in *. lia.
Qed.

Lemma float_ltb_asym (x y : float) :
  (x <? y)%float = true -> (y <? x)%float = true -> False.
Proof.
  rewrite !float_ltb_rank. intros (_ & _ & H1) (_ & _ & H2).
  unfold rank_lt in *. lia.
Qed.

Lemma float_ltb_total (x y : float) :
  is_num x -> is_num y -> (x =? y)%float = false ->
  (x <? y)%float = true \/ (y <? x)%float = true.
Proof.
  intros Hx Hy Hne. rewrite !float_ltb_rank.
  assert (Hr : frank x <> frank y).
  { intros H. rewrite (proj2 (float_eqb_rank x y)) in Hne by now repeat split.
    discriminate Hne. }
  destruct (frank x) as [a1 [a2 a3]], (frank y) as [b1 [b2 b3]].
  unfold rank_lt; cbn [fst snd].
  destruct (Z.compare_spec a1 b1) as [E1|L1|G1];
    [destruct (Z.compare_spec a2 b2) as [E2|L2|G2];
     [destruct (Z.compare_spec a3 b3) as [E3|L3|G3];
      [subst; congruence| |]| |]| |];
    first [left; repeat split; auto; lia | right; repeat split; auto; lia].
Qed.


(* ================================================================== *)
(** ** Maps with keys that do not collide                              *)
(* ================================================================== *)

Lemma float_eqb_num (a b : float64) :
  (a =? b)%float = true -> is_num a /\ is_num b.
Proof. rewrite float_eqb_rank. intros (Ha & Hb & _). now split. Qed.

Lemma float_ltb_num (a b : float64) : flt a b -> is_num a /\ is_num b.
Proof.
  unfold flt. rewrite float_ltb_rank. intros (Ha & Hb & _). now split.
Qed.

(** A NaN is equal ([==]) to nothing. *)
Lemma float_nan_ne (a b : float64) :
  (a =? a)%float = false -> fne a b /\ fne b a.
Proof.
  intros Ha. unfold fne. split.
  - destruct (a =? b)%float eqn:E; [|reflexivity].
    apply float_eqb_num in E as [E _]. unfold is_num in E. congruence.
  - destruct (b =? a)%float eqn:E; [|reflexivity].
    apply float_eqb_num in E as [_ E]. unfold is_num in E. congruence.
Qed.

(** There is one NaN. *)
Lemma float_nan_unique (a b : float64) :
  (a =? a)%float = false -> (b =? b)%float = false -> a = b.
Proof.
  intros Ha Hb. apply Prim2SF_inj.
  assert (Hn : forall x : float64, (x =? x)%float = false ->
                                   Prim2SF x = S754_nan).
  { intros x Hx. destruct (Prim2SF x) eqn:E; try reflexivity;
      exfalso; assert (Hnum : is_num x)
        by (apply is_num_spec; rewrite E; discriminate);
      unfold is_num in Hnum; congruence. }
  now rewrite (Hn a Ha), (Hn b Hb).
Qed.

Lemma fne_sym (a b : float64) : fne a b -> fne b a.
Proof.
  unfold fne. intros H. destruct (b =? a)%float eqn:E; [|reflexivity].
  apply float_eqb_sym in E. congruence.
Qed.

Lemma pairwise_ne_perm (ks ks' : list float64) :
  Permutation ks ks' -> pairwise_ne ks -> pairwise_ne ks'.
Proof.
  unfold pairwise_ne.
  induction 1 as [|x l l' HP IH|x y l|l l' l'' HP1 IH1 HP2 IH2]; intros H.
  - exact H.
  - inversion H as [|? ? Hx Hl]; subst. constructor; [|now apply IH].
    now apply (Permutation_Forall HP).
  - inversion H as [|? ? Hy Hxl]; subst.
    inversion Hxl as [|? ? Hx Hl]; subst.
    inversion Hy as [|? ? Hyx Hyl]; subst.
    constructor; [|constructor; assumption].
    constructor; [now apply fne_sym|assumption].
  - auto.
Qed.

Lemma pairwise_ne_tail (k : float64) (ks : list float64) :
  pairwise_ne (k :: ks) -> pairwise_ne ks.
Proof. intros H. now inversion H. Qed.

(** The head differs ([!=]) from every later key. *)
Lemma pairwise_ne_head (k : float64) (ks : list float64) :
  pairwise_ne (k :: ks) -> forall k', In k' ks -> fne k k' /\ fne k' k.
Proof.
  intros H k' Hk'. inversion H as [|? ? Hk _]; subst.
  rewrite Forall_forall in Hk. split; [|apply fne_sym]; now apply Hk.
Qed.

Lemma pairwise_ne_middle (a b : list float64) (k : float64) :
  pairwise_ne (a ++ k :: b)%list -> forall k', In k' a -> fne k' k.
Proof.
  intros H k' Hk'.
  assert (H' : pairwise_ne (k :: a ++ b)%list).
  { apply (pairwise_ne_perm (a ++ k :: b)%list); [|exact H].
    apply Permutation_sym, Permutation_middle. }
  apply (pairwise_ne_head k (a ++ b)%list H' k').
  apply in_or_app; now left.
Qed.

(** A NaN can be added to keys that do not collide. *)
Lemma pairwise_ne_snoc_nan (ks : list float64) (k : float64) :
  (k =? k)%float = false -> pairwise_ne ks -> pairwise_ne (ks ++ [k])%list.
Proof.
  intros Hk H.
  apply (pairwise_ne_perm (k :: ks)).
  - change (k :: ks) with ([k] ++ ks)%list. apply Permutation_app_comm.
  - constructor; [|exact H].
    apply Forall_forall. intros k' _. exact (proj1 (float_nan_ne k k' Hk)).
Qed.

Lemma distinct_pairwise (ks : list float64) :
  distinct ks = true -> pairwise_ne ks.
Proof.
  induction ks as [|k rest IH]; intros H; [constructor|].
  cbn [distinct] in H. apply andb_prop in H as [Hall Hrest].
  constructor; [|now apply IH].
  apply Forall_forall. intros k' Hk'.
  rewrite forallb_forall in Hall. specialize (Hall k' Hk').
  now apply negb_true_iff in Hall.
Qed.

Lemma keys_setv (k : float64) (v : Z) (m : fmap.t) :
  fmap.keys (List.map (setv k v) m) = fmap.keys m.
Proof.
  unfold fmap.keys. rewrite map_map. apply map_ext. reflexivity.
Qed.

Lemma in_keys (m : fmap.t) (k : float64) :
  In k (fmap.keys m) -> exists v, In (k, v) m.
Proof.
  unfold fmap.keys. intros H. apply in_map_iff in H as [[k' v] [Hk Hin]].
  cbn in Hk. subst k'. now exists v.
Qed.

Lemma keys_in (m : fmap.t) (k : float64) (v : Z) :
  In (k, v) m -> In k (fmap.keys m).
Proof.
  intros H. unfold fmap.keys. change k with (fst (k, v)). now apply in_map.
Qed.

(** Reading a number that is a key of the map returns the value stored
    with it. *)
Lemma index_in (m : fmap.t) (k : float64) (v : Z) :
  pairwise_ne (fmap.keys m) -> is_num k -> In (k, v) m ->
  fmap.index m k = v.
Proof.
  induction m as [|[k' v'] m IH]; intros Hp Hnum Hin; [contradiction|].
  cbn [fmap.index]. destruct Hin as [Heq|Hin].
  - injection Heq as -> ->. unfold is_num in Hnum. now rewrite Hnum.
  - destruct (pairwise_ne_head k' (fmap.keys m) Hp k (keys_in m k v Hin))
      as [Hne _].
    unfold fne in Hne. rewrite Hne.
    apply IH; [|exact Hnum|exact Hin]. now apply pairwise_ne_tail in Hp.
Qed.

(** Reading a key that no key of the map equals returns the zero value. *)
Lemma index_absent (m : fmap.t) (k : float64) :
  (forall k', In k' (fmap.keys m) -> fne k' k) -> fmap.index m k = 0.
Proof.
  induction m as [|[k' v'] m IH]; intros H; [reflexivity|].
  cbn [fmap.index]. rewrite (H k' (or_introl eq_refl)).
  apply IH. intros k'' Hk''. apply H. now right.
Qed.

(** Writing a key that no key of the map equals adds the entry at the
    end. *)
Lemma assign_absent (m : fmap.t) (k : float64) (v : Z) :
  (forall k', In k' (fmap.keys m) -> fne k' k) ->
  fmap.assign m k v = (m ++ [(k, v)])%list.
Proof.
  induction m as [|[k' v'] m IH]; intros H; [reflexivity|].
  cbn [fmap.assign]. rewrite (H k' (or_introl eq_refl)).
  cbn [app]. f_equal. apply IH. intros k'' Hk''. apply H. now right.
Qed.

Lemma map_setv_absent (m : fmap.t) (k : float64) (v : Z) :
  (forall k', In k' (fmap.keys m) -> fne k' k) ->
  List.map (setv k v) m = m.
Proof.
  induction m as [|[k' v'] m IH]; intros H; [reflexivity|].
  cbn [List.map]. unfold setv at 1. cbn [fst snd].
  rewrite (H k' (or_introl eq_refl)). f_equal.
  apply IH. intros k'' Hk''. apply H. now right.
Qed.

(** Writing a number that is a key of the map changes its value in
    place. *)
Lemma assign_present (m : fmap.t) (k : float64) (v : Z) :
  pairwise_ne (fmap.keys m) -> is_num k -> In k (fmap.keys m) ->
  fmap.assign m k v = List.map (setv k v) m.
Proof.
  induction m as [|[k' v'] m IH]; intros Hp Hnum Hin; [contradiction|].
  cbn [fmap.assign List.map]. unfold setv at 1. cbn [fst snd].
  destruct Hin as [Heq|Hin].
  - cbn in Heq. subst k'. unfold is_num in Hnum. rewrite Hnum.
    f_equal. symmetry. apply map_setv_absent.
    intros k' Hk'. apply (pairwise_ne_head k (fmap.keys m) Hp k' Hk').
  - destruct (pairwise_ne_head k' (fmap.keys m) Hp k Hin) as [Hne _].
    unfold fne in Hne. rewrite Hne.
    f_equal. apply IH; [|exact Hnum|exact Hin].
    now apply pairwise_ne_tail in Hp.
Qed.

(* ================================================================== *)
(** ** Sorting keys that do not collide                                *)
(* ================================================================== *)

Lemma less_num (x y : float64) :
  is_num x -> sort.less x y = (x <? y)%float.
Proof.
  intros Hx. unfold sort.less, math.IsNaN. unfold is_num in Hx.
  rewrite Hx. cbn. apply orb_false_r.
Qed.

(** What [less] says of two keys the sort compares. *)
Lemma less_nan_first (x y : float64) :
  sort.less x y = true -> nan_first x y.
Proof.
  unfold sort.less, math.IsNaN, nan_first, flt. intros H.
  apply orb_prop in H as [H|H]; [now right|].
  apply andb_prop in H as [H _]. apply negb_true_iff in H. now left.
Qed.

Lemma not_less_nan_first (x y : float64) :
  fne x y -> sort.less y x = false -> nan_first x y.
Proof.
  unfold sort.less, math.IsNaN, nan_first, flt. intros Hne H.
  apply orb_false_elim in H as [Hlt Hnan].
  destruct (x =? x)%float eqn:Hx; [right|now left].
  destruct (y =? y)%float eqn:Hy; [|discriminate Hnan].
  destruct (float_ltb_total x y Hx Hy Hne) as [H|H]; [exact H|congruence].
Qed.

Lemma nan_first_trans (x y z : float64) :
  nan_first x y -> nan_first y z -> nan_first x z.
Proof.
  unfold nan_first. intros [Hx|Hxy] Hyz; [now left|].
  destruct Hyz as [Hy|Hyz].
  - apply float_ltb_num in Hxy as [_ Hy']. unfold is_num in Hy'. congruence.
  - right. exact (float_ltb_trans x y z Hxy Hyz).
Qed.

(** Two keys, each before the other, are the same key. *)
Lemma nan_first_antisym (x y : float64) :
  nan_first x y -> nan_first y x -> x = y.
Proof.
  unfold nan_first. intros [Hx|Hxy] [Hy|Hyx].
  - now apply float_nan_unique.
  - apply float_ltb_num in Hyx as [_ Hx']. unfold is_num in Hx'. congruence.
  - apply float_ltb_num in Hxy as [_ Hy']. unfold is_num in Hy'. congruence.
  - exfalso. exact (float_ltb_asym x y Hxy Hyx).
Qed.

Lemma insert_perm (x : float64) (l : list float64) :
  Permutation (sort.insert x l) (x :: l).
Proof.
  induction l as [|y l IH]; [reflexivity|].
  cbn [sort.insert]. destruct (sort.less y x); [|reflexivity].
  rewrite IH. apply perm_swap.
Qed.

Lemma Float64s_perm (l : list float64) : Permutation (sort.Float64s l) l.
Proof.
  induction l as [|x l IH]; [reflexivity|].
  unfold sort.Float64s in *. cbn [fold_right].
  rewrite insert_perm. now apply perm_skip.
Qed.

Lemma insert_sorted (x : float64) (l : list float64) :
  pairwise_ne (x :: l) -> StronglySorted nan_first l ->
  StronglySorted nan_first (sort.insert x l).
Proof.
  induction l as [|y l IH]; intros Hp Hs.
  - repeat constructor.
  - cbn [sort.insert].
    inversion Hs as [|? ? Hs' Hall]; subst.
    destruct (sort.less y x) eqn:Hyx.
    + constructor.
      * apply IH; [|exact Hs'].
        apply pairwise_ne_tail with (k := y).
        apply (pairwise_ne_perm (x :: y :: l)); [apply perm_swap|exact Hp].
      * apply Forall_forall. intros z Hz.
        apply (Permutation_in _ (insert_perm x l)) in Hz.
        destruct Hz as [<-|Hz]; [now apply less_nan_first|].
        rewrite Forall_forall in Hall. now apply Hall.
    + assert (Hxy : nan_first x y).
      { apply not_less_nan_first; [|exact Hyx].
        apply (pairwise_ne_head x (y :: l) Hp y). now left. }
      constructor; [exact Hs|].
      constructor; [exact Hxy|].
      apply Forall_forall. intros z Hz.
      rewrite Forall_forall in Hall.
      apply (nan_first_trans x y z Hxy). now apply Hall.
Qed.

Lemma Float64s_sorted (l : list float64) :
  pairwise_ne l -> StronglySorted nan_first (sort.Float64s l).
Proof.
  induction l as [|x l IH]; intros Hp; [constructor|].
  unfold sort.Float64s in *. cbn [fold_right].
  apply insert_sorted.
  - apply (pairwise_ne_perm (x :: l)); [|exact Hp].
    apply perm_skip. apply Permutation_sym. apply Float64s_perm.
  - apply IH. now apply pairwise_ne_tail in Hp.
Qed.

(** A list has one sorted arrangement. *)
Lemma sorted_unique (l : list float64) :
  forall l', StronglySorted nan_first l -> StronglySorted nan_first l' ->
             Permutation l l' -> l = l'.
Proof.
  induction l as [|a r IH]; intros l' Hs Hs' HP.
  - apply Permutation_nil in HP. now subst.
  - destruct l' as [|a' r'].
    + apply Permutation_sym, Permutation_nil in HP. discriminate HP.
    + inversion Hs as [|? ? Hsr Ha]; subst.
      inversion Hs' as [|? ? Hsr' Ha']; subst.
      rewrite Forall_forall in Ha, Ha'.
      assert (Haa : a = a').
      { assert (H1 : In a (a' :: r'))
          by (apply (Permutation_in _ HP); now left).
        assert (H2 : In a' (a :: r))
          by (apply (Permutation_in _ (Permutation_sym HP)); now left).
        destruct H1 as [H1|H1]; [now subst|].
        destruct H2 as [H2|H2]; [now subst|].
        apply nan_first_antisym; [now apply Ha|now apply Ha']. }
      subst a'. f_equal. apply IH; auto.
      now apply Permutation_cons_inv in HP.
Qed.

Lemma Float64s_unique (l l' : list float64) :
  pairwise_ne l -> Permutation l l' -> sort.Float64s l = sort.Float64s l'.
Proof.
  intros Hp HP. apply sorted_unique.
  - now apply Float64s_sorted.
  - apply Float64s_sorted. now apply (pairwise_ne_perm l).
  - rewrite (Float64s_perm l), (Float64s_perm l'). exact HP.
Qed.

(* ================================================================== *)
(** ** The Gen3 histogram builder                                      *)
(* ================================================================== *)

Section HistogramV3_facts.

Variable ParseFloat : string -> Z -> option float64.

(** The first loop stores the entries of the list, in order, when their
    keys do not collide. *)
Lemma collect_entries (l : list CounterV3) :
  forall (acc es : fmap.t),
    entries ParseFloat l = Some es ->
    pairwise_ne (fmap.keys (acc ++ es)%list) ->
    histogramV3_collect ParseFloat l acc = inl (acc ++ es)%list.
Proof.
  induction l as [|c rest IH]; intros acc es He Hp.
  - cbn in He. injection He as <-. cbn. now rewrite app_nil_r.
  - cbn [entries histogramV3_collect] in *.
    destruct (strings.HasPrefix (CounterV3_Name c) qryRTT); [|now apply IH].
    unfold entry in He.
    destruct (bound ParseFloat (CounterV3_Name c)) as [b|rrt];
      [|discriminate He].
    destruct (entries ParseFloat rest) as [es'|]; [|discriminate He].
    injection He as <-.
    rewrite assign_absent.
    + rewrite (IH _ es' eq_refl).
      * now rewrite <- app_assoc.
      * now rewrite <- app_assoc.
    + unfold fmap.keys in Hp. rewrite map_app in Hp. cbn [List.map fst] in Hp.
      exact (pairwise_ne_middle _ _ _ Hp).
Qed.

(** The entries of a rearranged list are the entries rearranged. *)
Lemma entries_perm (l l' : list CounterV3) :
  Permutation l l' ->
  forall es, entries ParseFloat l = Some es ->
             exists es', entries ParseFloat l' = Some es' /\
                         Permutation es es'.
Proof.
  induction 1 as [|x l l' HP IH|x y l|l l' l'' HP1 IH1 HP2 IH2]; intros es He.
  - exists es. split; [exact He|reflexivity].
  - cbn [entries] in *.
    destruct (strings.HasPrefix (CounterV3_Name x) qryRTT); [|now apply IH].
    destruct (entry ParseFloat x) as [e|]; [|discriminate He].
    destruct (entries ParseFloat l) as [es0|]; [|discriminate He].
    injection He as <-.
    destruct (IH es0 eq_refl) as (es0' & -> & HP0).
    exists (e :: es0'). split; [reflexivity|now apply perm_skip].
  - cbn [entries] in *.
    destruct (strings.HasPrefix (CounterV3_Name x) qryRTT);
      destruct (strings.HasPrefix (CounterV3_Name y) qryRTT);
      destruct (entry ParseFloat x) as [ex|];
      destruct (entry ParseFloat y) as [ey|];
      destruct (entries ParseFloat l) as [es0|];
      try discriminate He; injection He as <-;
      eexists; (split; [reflexivity|]); try reflexivity.
    apply perm_swap.
  - destruct (IH1 es He) as (es' & He' & HP').
    destruct (IH2 es' He') as (es'' & He'' & HP'').
    exists es''. split; [exact He''|]. now transitivity es'.
Qed.

(** The last loop on two arrangements of one map. A number among the
    keys has its value replaced by the running sum; a NaN is never found
    and gets a new entry with the sum so far. *)
Lemma cumulate_perm (keys : list float64) :
  forall (m m' : fmap.t) (count : Z),
    pairwise_ne (fmap.keys m) -> Permutation m m' ->
    (forall k, In k keys -> In k (fmap.keys m)) ->
    Permutation (fst (histogramV3_cumulate keys m count))
                (fst (histogramV3_cumulate keys m' count)) /\
    snd (histogramV3_cumulate keys m count) =
    snd (histogramV3_cumulate keys m' count).
Proof.
  induction keys as [|k keys IH]; intros m m' count Hp HP Hin.
  - cbn. now split.
  - cbn [histogramV3_cumulate].
    assert (HPk : Permutation (fmap.keys m) (fmap.keys m'))
      by (unfold fmap.keys; now apply Permutation_map).
    assert (Hp' : pairwise_ne (fmap.keys m'))
      by now apply (pairwise_ne_perm (fmap.keys m)).
    assert (Hk : In k (fmap.keys m)) by (apply Hin; now left).
    assert (Hk' : In k (fmap.keys m'))
      by now apply (Permutation_in _ HPk).
    destruct (k =? k)%float eqn:Hnum.
    + (* a number *)
      destruct (in_keys m k Hk) as [v Hv].
      rewrite (index_in m k v Hp Hnum Hv).
      rewrite (index_in m' k v Hp' Hnum (Permutation_in _ HP Hv)).
      rewrite (assign_present m k _ Hp Hnum Hk).
      rewrite (assign_present m' k _ Hp' Hnum Hk').
      apply IH.
      * now rewrite keys_setv.
      * now apply Permutation_map.
      * intros k0 Hk0. rewrite keys_setv. apply Hin. now right.
    + (* a NaN *)
      assert (Hno : forall m0 k', In k' (fmap.keys m0) -> fne k' k)
        by (intros m0 k' _; exact (proj2 (float_nan_ne k k' Hnum))).
      rewrite (index_absent m k (Hno m)), (index_absent m' k (Hno m')).
      rewrite (assign_absent m k _ (Hno m)), (assign_absent m' k _ (Hno m')).
      apply IH.
      * unfold fmap.keys. rewrite map_app. cbn [List.map fst].
        now apply pairwise_ne_snoc_nan.
      * now apply Permutation_app_tail.
      * intros k0 Hk0. unfold fmap.keys. rewrite map_app.
        apply in_or_app. left. apply Hin. now right.
Qed.

End HistogramV3_facts.

(* ================================================================== *)
(** ** The counts of the Gen3 builder rise with the bound              *)
(* ================================================================== *)

Lemma float_flt_fne (a b : float64) : flt a b -> fne a b /\ fne b a.
Proof.
  unfold flt, fne. rewrite float_ltb_rank. intros (_ & _ & Hlt).
  assert (Hr : frank a <> frank b).
  { intros E. rewrite E in Hlt. unfold rank_lt in Hlt. lia. }
  split.
  - destruct (a =? b)%float eqn:E; [|reflexivity].
    apply float_eqb_rank in E as (_ & _ & E). contradiction.
  - destruct (b =? a)%float eqn:E; [|reflexivity].
    apply float_eqb_rank in E as (_ & _ & E). congruence.
Qed.

Lemma float_eqb_trans (a b c : float64) :
  (a =? b)%float = true -> (a =? c)%float = true -> (b =? c)%float = true.
Proof.
  rewrite !float_eqb_rank. intros (_ & Hb & E1) (_ & Hc & E2).
  repeat split; congruence.
Qed.

(** Writing under [k] leaves what is read under another key. *)
Lemma index_setv_other (m : fmap.t) (k k' : float64) (v : Z) :
  fne k' k -> fmap.index (List.map (setv k v) m) k' = fmap.index m k'.
Proof.
  intros Hne. induction m as [|[k0 v0] m IH]; [reflexivity|].
  cbn [List.map fmap.index setv fst snd].
  destruct (k0 =? k')%float eqn:E0; [|exact IH].
  destruct (k0 =? k)%float eqn:E1; [|reflexivity].
  unfold fne in Hne. rewrite (float_eqb_trans k0 k' k E0 E1) in Hne.
  discriminate Hne.
Qed.

(** A NaN entry is never read. *)
Lemma index_snoc_nan (m : fmap.t) (k k' : float64) (v : Z) :
  (k =? k)%float = false ->
  fmap.index (m ++ [(k, v)])%list k' = fmap.index m k'.
Proof.
  intros Hk. induction m as [|[k0 v0] m IH].
  - cbn. destruct (float_nan_ne k k' Hk) as [H _]. unfold fne in H.
    now rewrite H.
  - cbn [app fmap.index]. now rewrite IH.
Qed.

Lemma raw_sum_ext (m m' : fmap.t) (ks : list float64) :
  (forall k, In k ks -> fmap.index m' k = fmap.index m k) ->
  raw_sum m' ks = raw_sum m ks.
Proof.
  induction ks as [|k ks IH]; intros H; [reflexivity|].
  cbn [raw_sum]. rewrite (H k (or_introl eq_refl)). f_equal.
  apply IH. intros k' Hk'. apply H. now right.
Qed.

Lemma index_nonneg (m : fmap.t) (k : float64) :
  (forall k' v, In (k', v) m -> 0 <= v) -> 0 <= fmap.index m k.
Proof.
  induction m as [|[k0 v0] m IH]; intros H; [cbn; lia|].
  cbn [fmap.index]. destruct (k0 =? k)%float.
  - apply (H k0 v0). now left.
  - apply IH. intros k' v Hin. apply (H k' v). now right.
Qed.

Lemma raw_sum_nonneg (m : fmap.t) (ks : list float64) :
  (forall k' v, In (k', v) m -> 0 <= v) -> 0 <= raw_sum m ks.
Proof.
  intros H. induction ks as [|k ks IH]; [cbn; lia|].
  cbn [raw_sum]. pose proof (index_nonneg m k H). lia.
Qed.

Lemma add64_small (a b : Z) : 0 <= a + b < two64 -> add64 a b = a + b.
Proof. intros H. unfold add64. now apply Z.mod_small. Qed.

(** The last loop over sorted keys, while the sum does not wrap: the
    final count; where each number among the buckets comes from; and the
    counts written under the sorted keys rise with the key. *)
Lemma cumulate_rise (keys : list float64) :
  forall (m : fmap.t) (count : Z),
    StronglySorted nan_first keys ->
    pairwise_ne (fmap.keys m) ->
    (forall k, In k keys -> In k (fmap.keys m)) ->
    (forall k v, In (k, v) m -> 0 <= v) ->
    0 <= count ->
    count + raw_sum m keys < two64 ->
    snd (histogramV3_cumulate keys m count) = count + raw_sum m keys /\
    (forall k v,
        is_num k -> In (k, v) (fst (histogramV3_cumulate keys m count)) ->
        (In k keys /\
         count <= v <= snd (histogramV3_cumulate keys m count)) \/
        (~ In k keys /\ In (k, v) m)) /\
    (forall k1 v1 k2 v2,
        In k1 keys -> In k2 keys ->
        In (k1, v1) (fst (histogramV3_cumulate keys m count)) ->
        In (k2, v2) (fst (histogramV3_cumulate keys m count)) ->
        flt k1 k2 -> v1 <= v2).
Proof.
  induction keys as [|k keys IH];
    intros m count Hs Hp Hin Hpos Hc Hsum.
  - cbn. split; [lia|]. split.
    + intros k v _ Hkv. right. split; [intros []|exact Hkv].
    + intros k1 v1 k2 v2 [].
  - inversion Hs as [|? ? Hs' Hall]; subst.
    rewrite Forall_forall in Hall.
    cbn [histogramV3_cumulate raw_sum] in *.
    pose proof (index_nonneg m k Hpos) as Hi.
    pose proof (raw_sum_nonneg m keys Hpos) as Hr.
    rewrite (add64_small count (fmap.index m k)) by lia.
    set (c1 := count + fmap.index m k) in *.
    assert (Hk : In k (fmap.keys m)) by (apply Hin; now left).
    destruct (k =? k)%float eqn:Hnum.
    + (* a number: its value becomes the running sum *)
      rewrite (assign_present m k c1 Hp Hnum Hk).
      set (m1 := List.map (setv k c1) m).
      assert (Hlater : forall k', In k' keys -> flt k k').
      { intros k' Hk'. destruct (Hall k' Hk') as [Hn|Hlt]; [congruence|].
        exact Hlt. }
      assert (Hraw : raw_sum m1 keys = raw_sum m keys).
      { apply raw_sum_ext. intros k' Hk'. apply index_setv_other.
        apply (float_flt_fne k k'). now apply Hlater. }
      assert (Hpos1 : forall k' v, In (k', v) m1 -> 0 <= v).
      { intros k' v Hkv. apply in_map_iff in Hkv as [[k0 v0] [E H0]].
        unfold setv in E; cbn [fst snd] in E. injection E as <- <-.
        destruct (k0 =? k)%float; [lia|]. now apply (Hpos k0 v0). }
      destruct (IH m1 c1 Hs') as (Hsnd & Hsrc & Hmono).
      * unfold m1. now rewrite keys_setv.
      * intros k' Hk'. unfold m1. rewrite keys_setv. apply Hin. now right.
      * exact Hpos1.
      * lia.
      * rewrite Hraw. lia.
      * rewrite Hraw in Hsnd.
        assert (Hhead : forall v,
                   In (k, v) (fst (histogramV3_cumulate keys m1 c1)) ->
                   v = c1).
        { intros v Hv. destruct (Hsrc k v Hnum Hv) as [[Hk' _]|[_ Hkv]].
          - exfalso. apply (float_ltb_asym k k); now apply Hlater.
          - apply in_map_iff in Hkv as [[k0 v0] [E H0]].
            unfold setv in E; cbn [fst snd] in E. injection E as -> <-.
            now rewrite Hnum. }
        split; [lia|]. split.
        -- intros k0 v Hk0 Hv.
           destruct (Hsrc k0 v Hk0 Hv) as [[Hk' Hb]|[Hnk Hkv]].
           ++ left. split; [now right|lia].
           ++ apply in_map_iff in Hkv as [[k0' v0] [E H0]].
              unfold setv in E; cbn [fst snd] in E. injection E as -> <-.
              destruct (k0 =? k)%float eqn:E0.
              ** left.
                 assert (k0 = k).
                 { clear - Hp H0 Hk E0.
                   revert Hp H0 Hk. unfold pairwise_ne.
                   induction m as [|[ka va] m IHm]; intros Hp H0 Hk;
                     [contradiction|].
                   cbn [fmap.keys List.map fst] in Hp, Hk.
                   inversion Hp as [|? ? Hka Hp']; subst.
                   rewrite Forall_forall in Hka.
                   destruct H0 as [H0|H0]; destruct Hk as [Hk|Hk].
                   - congruence.
                   - injection H0 as -> _. specialize (Hka k Hk).
                     unfold fne in Hka. congruence.
                   - subst ka.
                     specialize (Hka k0 (keys_in m k0 v0 H0)).
                     apply fne_sym in Hka. unfold fne in Hka. congruence.
                   - now apply IHm. }
                 subst k0. split; [now left|lia].
              ** right. split; [|exact H0].
                 intros [->|Hk']; [congruence|contradiction].
        -- intros k1 v1 k2 v2 Hk1 Hk2 Hv1 Hv2 Hlt.
           destruct Hk1 as [<-|Hk1]; destruct Hk2 as [<-|Hk2].
           ++ exfalso. exact (float_ltb_asym k k Hlt Hlt).
           ++ rewrite (Hhead v1 Hv1).
              destruct (float_ltb_num k k2 Hlt) as [_ Hn2].
              destruct (Hsrc k2 v2 Hn2 Hv2) as [[_ Hb]|[Hnk _]];
                [lia|contradiction].
           ++ exfalso. apply (float_ltb_asym k1 k Hlt). now apply Hlater.
           ++ now apply (Hmono k1 v1 k2 v2).
    + (* a NaN: never found, a new entry *)
      assert (Hno : forall k', In k' (fmap.keys m) -> fne k' k)
        by (intros k' _; exact (proj2 (float_nan_ne k k' Hnum))).
      rewrite (index_absent m k Hno) in *.
      rewrite (assign_absent m k c1 Hno).
      assert (Hc1 : c1 = count)
        by (unfold c1; rewrite (index_absent m k Hno); lia).
      set (m1 := (m ++ [(k, c1)])%list).
      assert (Hraw : raw_sum m1 keys = raw_sum m keys).
      { apply raw_sum_ext. intros k' _. now apply index_snoc_nan. }
      assert (Hpos1 : forall k' v, In (k', v) m1 -> 0 <= v).
      { intros k' v Hkv. apply in_app_or in Hkv as [Hkv|[E|[]]].
        - now apply (Hpos k' v).
        - injection E as _ <-. lia. }
      destruct (IH m1 c1 Hs') as (Hsnd & Hsrc & Hmono).
      * unfold m1, fmap.keys. rewrite map_app. cbn [List.map fst].
        now apply pairwise_ne_snoc_nan.
      * intros k' Hk'. unfold m1, fmap.keys. rewrite map_app.
        apply in_or_app. left. apply Hin. now right.
      * exact Hpos1.
      * lia.
      * rewrite Hraw. lia.
      * rewrite Hraw in Hsnd.
        split; [lia|]. split.
        -- intros k0 v Hk0 Hv.
           destruct (Hsrc k0 v Hk0 Hv) as [[Hk' Hb]|[Hnk Hkv]].
           ++ left. split; [now right|lia].
           ++ right.
              apply in_app_or in Hkv as [Hkv|[E|[]]].
              ** split; [|exact Hkv].
                 intros [->|Hk']; [unfold is_num in Hk0; congruence|].
                 contradiction.
              ** injection E as -> _. unfold is_num in Hk0. congruence.
        -- intros k1 v1 k2 v2 Hk1 Hk2 Hv1 Hv2 Hlt.
           destruct (float_ltb_num k1 k2 Hlt) as [Hn1 Hn2].
           unfold is_num in Hn1, Hn2.
           destruct Hk1 as [<-|Hk1]; [congruence|].
           destruct Hk2 as [<-|Hk2]; [congruence|].
           now apply (Hmono k1 v1 k2 v2).
Qed.

Lemma raw_sum_perm (m : fmap.t) (ks ks' : list float64) :
  Permutation ks ks' -> raw_sum m ks = raw_sum m ks'.
Proof.
  induction 1 as [|x l l' HP IH|x y l|l l' l'' HP1 IH1 HP2 IH2];
    cbn [raw_sum]; lia.
Qed.

(** What the map holds under the keys of some of its entries is at most
    the sum of these entries. *)
Lemma raw_sum_keys_le (m : fmap.t) :
  pairwise_ne (fmap.keys m) ->
  (forall k v, In (k, v) m -> 0 <= v) ->
  forall es, (forall k v, In (k, v) es -> In (k, v) m) ->
             raw_sum m (fmap.keys es) <= total es.
Proof.
  intros Hp Hpos es. induction es as [|[k v] es IH]; intros Hsub.
  - cbn. lia.
  - cbn [fmap.keys List.map fst raw_sum total].
    assert (Hkv : In (k, v) m) by (apply Hsub; now left).
    assert (Hi : fmap.index m k <= v).
    { destruct (k =? k)%float eqn:Hnum.
      - rewrite (index_in m k v Hp Hnum Hkv). lia.
      - rewrite (index_absent m k).
        + now apply (Hpos k v).
        + intros k' _. exact (proj2 (float_nan_ne k k' Hnum)). }
    assert (IH' : raw_sum m (fmap.keys es) <= total es).
    { apply IH. intros k' v' H. apply Hsub. now right. }
    unfold fmap.keys in IH'. lia.
Qed.

Section HistogramV3_counts.

Variable ParseFloat : string -> Z -> option float64.

Lemma entries_total (l : list CounterV3) (es : fmap.t) :
  entries ParseFloat l = Some es ->
  total es = raw_total l /\ (forall k v, In (k, v) es -> 0 <= v).
Proof.
  revert es. unfold raw_total, rtt_V3.
  induction l as [|c rest IH]; intros es He.
  - cbn in He. injection He as <-. cbn. split; [reflexivity|intros ? ? []].
  - cbn [entries filter] in *.
    destruct (strings.HasPrefix (CounterV3_Name c) qryRTT); [|now apply IH].
    unfold entry in He.
    destruct (bound ParseFloat (CounterV3_Name c)) as [b|rrt];
      [|discriminate He].
    destruct (entries ParseFloat rest) as [es'|]; [|discriminate He].
    injection He as <-.
    destruct (IH es' eq_refl) as [Ht Hpos].
    cbn [total fold_right]. split; [now rewrite Ht|].
    intros k v [E|Hin]; [|now apply (Hpos k v)].
    injection E as _ <-. unfold uint64.
    apply Z.mod_pos_bound. reflexivity.
Qed.

(** When the bounds do not collide and the raw counts sum below [2^64],
    the counts [histogramV3] returns rise with the bound. *)
Lemma histogramV3_counts_rise (l : list CounterV3) :
  distinct_bounds ParseFloat l = true ->
  raw_total l < two64 ->
  forall k1 v1 k2 v2,
    In (k1, v1) (fst (fst (histogramV3 ParseFloat l))) ->
    In (k2, v2) (fst (fst (histogramV3 ParseFloat l))) ->
    flt k1 k2 -> v1 <= v2.
Proof.
  intros Hd Hsum. unfold distinct_bounds in Hd.
  destruct (entries ParseFloat l) as [es|] eqn:He; [|discriminate Hd].
  apply distinct_pairwise in Hd.
  destruct (entries_total l es He) as [Ht Hpos].
  unfold histogramV3, fmap.empty.
  rewrite (collect_entries ParseFloat l [] es He Hd). cbn [app].
  set (K := sort.Float64s (fmap.keys es)).
  assert (HK : Permutation K (fmap.keys es)) by apply Float64s_perm.
  assert (Hraw : raw_sum es K <= total es).
  { rewrite (raw_sum_perm es K (fmap.keys es) HK).
    apply raw_sum_keys_le; auto. }
  destruct (cumulate_rise K es 0) as (_ & Hsrc & Hmono).
  - now apply Float64s_sorted.
  - exact Hd.
  - intros k Hk. now apply (Permutation_in _ HK).
  - exact Hpos.
  - lia.
  - lia.
  - destruct (histogramV3_cumulate K es 0) as [b c] eqn:Hb.
    cbn [fst snd] in *.
    intros k1 v1 k2 v2 H1 H2 Hlt.
    destruct (float_ltb_num k1 k2 Hlt) as [Hn1 Hn2].
    assert (HinK : forall k v, is_num k -> In (k, v) b -> In k K).
    { intros k v Hn Hkv. destruct (Hsrc k v Hn Hkv) as [[Hk _]|[Hnk Hes]].
      - exact Hk.
      - exfalso. apply Hnk.
        apply (Permutation_in _ (Permutation_sym HK)).
        exact (keys_in es k v Hes). }
    apply (Hmono k1 v1 k2 v2); eauto.
Qed.

End HistogramV3_counts.

(** C4, as the code has it. When every RTT counter of a Gen3 list parses
    and no two of them have the same bound, rearranging the list changes
    neither the buckets nor the total count of [histogramV3], and both
    runs succeed. *)
Theorem histogramV3_order_independent
        (ParseFloat : string -> Z -> option float64)
        (l l' : list CounterV3)
        (Hperm : Permutation l l')
        (Hdistinct : distinct_bounds ParseFloat l = true) :
  same_histogram (histogramV3 ParseFloat l) (histogramV3 ParseFloat l') /\
  snd (histogramV3 ParseFloat l) = None /\
  snd (histogramV3 ParseFloat l') = None.
Proof.
  unfold distinct_bounds in Hdistinct.
  destruct (entries ParseFloat l) as [es|] eqn:He; [|discriminate Hdistinct].
  apply distinct_pairwise in Hdistinct.
  destruct (entries_perm ParseFloat l l' Hperm es He) as (es' & He' & HP).
  assert (HPk : Permutation (fmap.keys es) (fmap.keys es'))
    by (unfold fmap.keys; now apply Permutation_map).
  assert (Hp' : pairwise_ne (fmap.keys es'))
    by now apply (pairwise_ne_perm (fmap.keys es)).
  unfold histogramV3, same_histogram, fmap.empty.
  rewrite (collect_entries ParseFloat l [] es He Hdistinct).
  rewrite (collect_entries ParseFloat l' [] es' He' Hp').
  cbn [app].
  rewrite <- (Float64s_unique (fmap.keys es) (fmap.keys es') Hdistinct HPk).
  destruct (cumulate_perm (sort.Float64s (fmap.keys es)) es es' 0
                          Hdistinct HP) as [Hb Hc].
  { intros k Hk. apply (Permutation_in _ (Float64s_perm _) Hk). }
  destruct (histogramV3_cumulate (sort.Float64s (fmap.keys es)) es 0)
    as [b c].
  destruct (histogramV3_cumulate (sort.Float64s (fmap.keys es)) es' 0)
    as [b' c'].
  cbn in *. auto.
Qed.

Lemma histogramV3_order_independent_witness :
  same_histogram
    (histogramV3 ParseFloat_digits
       [mkCounterV3 "QryRTT10" 5; mkCounterV3 "QryRTT100" 3;
        mkCounterV3 "Lame" 7; mkCounterV3 "QryRTT100+" 2])
    (histogramV3 ParseFloat_digits
       [mkCounterV3 "QryRTT100+" 2; mkCounterV3 "Lame" 7;
        mkCounterV3 "QryRTT100" 3; mkCounterV3 "QryRTT10" 5]).
Proof.
  refine (proj1 (histogramV3_order_independent ParseFloat_digits _ _ _ _)).
  - apply Permutation_rev.
  - vm_compute. reflexivity.
Defined.

(** C4, as stated, fails: two counters with different names and the same
    bound (10 ms written "10" and "010") overwrite each other in the
    order of the list, and the count follows. *)
Lemma histogramV3_order_dependent :
  ~ (forall l l' : list CounterV3,
        Permutation l l' ->
        same_histogram (histogramV3 ParseFloat_digits l)
                       (histogramV3 ParseFloat_digits l')).
Proof.
  intros H.
  destruct (H [mkCounterV3 "QryRTT10" 5; mkCounterV3 "QryRTT010" 3]
              [mkCounterV3 "QryRTT010" 3; mkCounterV3 "QryRTT10" 5]
              (perm_swap _ _ _)) as [_ Hc].
  vm_compute in Hc. discriminate Hc.
Qed.

(** C5 (Gen2 builder). On RTT counters that do not come in ascending
    order of bound, QryRTT100 = 3 before QryRTT10 = 5, [histogramV2]
    succeeds with the bucket 0.01 -> 8 above the bucket 0.1 -> 3: the
    count falls as the bound grows. [histogramV3] sorts the bounds first
    and returns 0.01 -> 5 and 0.1 -> 8 on the same counters. *)
Theorem histogramV2_counts_fall
        (ParseFloat : string -> Z -> option float64)
        (H10 : ParseFloat "10" 32 = Some 10%float)
        (H100 : ParseFloat "100" 32 = Some 100%float) :
  let h2 := histogramV2 ParseFloat
              [mkStatV2 "QryRTT100" 3; mkStatV2 "QryRTT10" 5] in
  let h3 := histogramV3 ParseFloat
              [mkCounterV3 "QryRTT100" 3; mkCounterV3 "QryRTT10" 5] in
  h2 = ([(0.1%float, 3); (0.01%float, 8)], 8, None) /\
  flt 0.01%float 0.1%float /\
  fmap.index (fst (fst h2)) 0.01%float = 8 /\
  fmap.index (fst (fst h2)) 0.1%float = 3 /\
  h3 = ([(0.1%float, 8); (0.01%float, 5)], 8, None).
Proof.
  intros h2 h3.
  assert (E2 : h2 = ([(0.1%float, 3); (0.01%float, 8)], 8, None)).
  { subst h2. unfold histogramV2, histogramV2_loop, bound.
    cbn [mkStatV2 StatV2_Name StatV2_Counter].
    change (strings.HasPrefix "QryRTT10" qryRTT) with true.
    change (strings.HasPrefix "QryRTT100" qryRTT) with true.
    change (strings.HasSuffix "QryRTT10" "+") with false.
    change (strings.HasSuffix "QryRTT100" "+") with false.
    change (strings.TrimPrefix "QryRTT10" qryRTT) with "10".
    change (strings.TrimPrefix "QryRTT100" qryRTT) with "100".
    cbn [negb]. rewrite H10, H100. vm_compute. reflexivity. }
  assert (E3 : h3 = ([(0.1%float, 8); (0.01%float, 5)], 8, None)).
  { subst h3. unfold histogramV3, histogramV3_collect, bound.
    cbn [mkCounterV3 CounterV3_Name CounterV3_Counter].
    change (strings.HasPrefix "QryRTT10" qryRTT) with true.
    change (strings.HasPrefix "QryRTT100" qryRTT) with true.
    change (strings.HasSuffix "QryRTT10" "+") with false.
    change (strings.HasSuffix "QryRTT100" "+") with false.
    change (strings.TrimPrefix "QryRTT10" qryRTT) with "10".
    change (strings.TrimPrefix "QryRTT100" qryRTT) with "100".
    cbn [negb]. rewrite H10, H100. vm_compute. reflexivity. }
  rewrite E2, E3. repeat split; vm_compute; reflexivity.
Qed.

Lemma histogramV2_counts_fall_witness :
  histogramV2 ParseFloat_digits
    [mkStatV2 "QryRTT100" 3; mkStatV2 "QryRTT10" 5] =
  ([(0.1%float, 3); (0.01%float, 8)], 8, None).
Proof.
  refine (proj1 (histogramV2_counts_fall ParseFloat_digits _ _));
    vm_compute; reflexivity.
Defined.

(* ================================================================== *)
(** ** More on the two histogram builders                              *)
(* ================================================================== *)

Section Histogram_more.

Variable ParseFloat : string -> Z -> option float64.

Lemma histogramV3_collect_rtt (l : list CounterV3) :
  forall acc,
    histogramV3_collect ParseFloat l acc =
    histogramV3_collect ParseFloat (rtt_V3 l) acc.
Proof.
  induction l as [|c rest IH]; intros acc; [reflexivity|].
  cbn [histogramV3_collect rtt_V3 filter].
  destruct (strings.HasPrefix (CounterV3_Name c) qryRTT) eqn:Hp.
  - cbn [histogramV3_collect]. rewrite Hp.
    destruct (bound ParseFloat (CounterV3_Name c)); [|reflexivity].
    apply IH.
  - apply IH.
Qed.

(** How the Gen2 loop ends: with the error of the first remainder that
    does not parse and the count 0, or without error. *)
Lemma histogramV2_loop_error (l : list StatV2) :
  forall buckets count,
    match histogramV2_loop ParseFloat l buckets count with
    | inl _ => first_unparsed ParseFloat (List.map StatV2_Name l) = None
    | inr (_, c, e) =>
        c = 0 /\
        parse_error (first_unparsed ParseFloat (List.map StatV2_Name l))
        = Some e
    end.
Proof.
  induction l as [|s rest IH]; intros buckets count; [reflexivity|].
  cbn [histogramV2_loop List.map first_unparsed].
  destruct (strings.HasPrefix (StatV2_Name s) qryRTT); [|apply IH].
  destruct (bound ParseFloat (StatV2_Name s)) as [b|rrt]; [apply IH|].
  split; reflexivity.
Qed.

Lemma histogramV3_collect_error (l : list CounterV3) :
  forall buckets,
    match histogramV3_collect ParseFloat l buckets with
    | inl _ => first_unparsed ParseFloat (List.map CounterV3_Name l) = None
    | inr (_, c, e) =>
        c = 0 /\
        parse_error (first_unparsed ParseFloat (List.map CounterV3_Name l))
        = Some e
    end.
Proof.
  induction l as [|s rest IH]; intros buckets; [reflexivity|].
  cbn [histogramV3_collect List.map first_unparsed].
  destruct (strings.HasPrefix (CounterV3_Name s) qryRTT); [|apply IH].
  destruct (bound ParseFloat (CounterV3_Name s)) as [b|rrt]; [apply IH|].
  split; reflexivity.
Qed.

(** The Gen2 loop adds the raw counts modulo [2^64]. *)
Lemma histogramV2_loop_count (l : list StatV2) :
  forall buckets count buckets' count',
    0 <= count < two64 ->
    histogramV2_loop ParseFloat l buckets count = inl (buckets', count') ->
    count' = (count + raw_total_V2 l) mod two64.
Proof.
  unfold raw_total_V2, rtt_V2.
  induction l as [|s rest IH]; intros buckets count buckets' count' Hc H.
  - cbn in *. injection H as _ <-. rewrite Z.add_0_r.
    symmetry. now apply Z.mod_small.
  - cbn [histogramV2_loop filter] in *.
    destruct (strings.HasPrefix (StatV2_Name s) qryRTT);
      [|now apply (IH buckets count buckets')].
    destruct (bound ParseFloat (StatV2_Name s)) as [b|rrt]; [|discriminate H].
    apply IH in H.
    + rewrite H. cbn [fold_right]. unfold add64, uint64.
      rewrite Z.add_mod_idemp_l by (unfold two64; lia).
      rewrite Z.add_assoc. reflexivity.
    + unfold add64. apply Z.mod_pos_bound. reflexivity.
Qed.

(** The Gen2 loop over two lists, one after the other. *)
Lemma histogramV2_loop_app (a r : list StatV2) :
  forall buckets count,
    histogramV2_loop ParseFloat (a ++ r) buckets count =
    match histogramV2_loop ParseFloat a buckets count with
    | inl (buckets', count') => histogramV2_loop ParseFloat r buckets' count'
    | inr e => inr e
    end.
Proof.
  induction a as [|s a IH]; intros buckets count; [reflexivity|].
  cbn [app histogramV2_loop].
  destruct (strings.HasPrefix (StatV2_Name s) qryRTT); [|apply IH].
  destruct (bound ParseFloat (StatV2_Name s)) as [b|rrt]; [apply IH|].
  reflexivity.
Qed.

(** Reading a number just written returns what was written. *)
Lemma index_assign_same (m : fmap.t) (k : float64) (v : Z) :
  is_num k -> fmap.index (fmap.assign m k v) k = v.
Proof.
  intros Hk. unfold is_num in Hk.
  induction m as [|[k' v'] m IH]; cbn [fmap.assign fmap.index].
  - now rewrite Hk.
  - destruct (k' =? k)%float eqn:E; cbn [fmap.index].
    + now rewrite Hk.
    + now rewrite E.
Qed.

End Histogram_more.

(** X1. Both histogram builders read the RTT-prefixed counters only: the
    other counters of a list change neither the buckets, nor the count,
    nor the error. *)
Theorem histogram_builders_read_rtt_only
        (ParseFloat : string -> Z -> option float64)
        (stats : list StatV2) (counters : list CounterV3) :
  histogramV2 ParseFloat stats = histogramV2 ParseFloat (rtt_V2 stats) /\
  histogramV3 ParseFloat counters = histogramV3 ParseFloat (rtt_V3 counters).
Proof.
  split; [apply histogramV2_rtt|].
  unfold histogramV3. now rewrite histogramV3_collect_rtt.
Qed.

(** X2. The two builders fail on the same names and alike: the error is
    "could not parse RTT: " followed by the remainder of the first
    RTT-prefixed name that neither ends in [+] nor parses, and the count
    returned with an error is 0. *)
Theorem histogram_builders_fail_alike
        (ParseFloat : string -> Z -> option float64)
        (stats : list StatV2) (counters : list CounterV3) :
  snd (histogramV2 ParseFloat stats) =
  parse_error (first_unparsed ParseFloat (List.map StatV2_Name stats)) /\
  snd (histogramV3 ParseFloat counters) =
  parse_error (first_unparsed ParseFloat
                              (List.map CounterV3_Name counters)) /\
  (snd (histogramV2 ParseFloat stats) <> None ->
   snd (fst (histogramV2 ParseFloat stats)) = 0) /\
  (snd (histogramV3 ParseFloat counters) <> None ->
   snd (fst (histogramV3 ParseFloat counters)) = 0).
Proof.
  pose proof (histogramV2_loop_error ParseFloat stats fmap.empty 0) as H2.
  pose proof (histogramV3_collect_error ParseFloat counters fmap.empty) as H3.
  unfold histogramV2, histogramV3.
  destruct (histogramV2_loop ParseFloat stats fmap.empty 0)
    as [[b2 c2]|[[b2 c2] e2]];
    destruct (histogramV3_collect ParseFloat counters fmap.empty)
    as [b3|[[b3 c3] e3]]; cbn [fst snd].
  - destruct (histogramV3_cumulate _ b3 0) as [b3' c3']. cbn [fst snd].
    rewrite H2, H3. repeat split; intros H; now contradiction H.
  - destruct H3 as [-> H3]. rewrite H2, H3.
    repeat split; intros H; try reflexivity; now contradiction H.
  - destruct (histogramV3_cumulate _ b3 0) as [b3' c3']. cbn [fst snd].
    destruct H2 as [-> H2]. rewrite H2, H3.
    repeat split; intros H; try reflexivity; now contradiction H.
  - destruct H2 as [-> H2]. destruct H3 as [-> H3]. rewrite H2, H3.
    repeat split; reflexivity.
Qed.

(** X3. When [histogramV2] succeeds, its count is the sum of the raw
    counts of the RTT counters modulo [2^64], in whatever order they come
    and whether or not two of them share a bound. *)
Theorem histogramV2_count_is_sum
        (ParseFloat : string -> Z -> option float64) (stats : list StatV2)
        (Hok : snd (histogramV2 ParseFloat stats) = None) :
  snd (fst (histogramV2 ParseFloat stats)) = raw_total_V2 stats mod two64.
Proof.
  unfold histogramV2 in *.
  destruct (histogramV2_loop ParseFloat stats fmap.empty 0)
    as [[b c]|[[b c] e]] eqn:E; [|discriminate Hok].
  cbn [fst snd].
  now apply (histogramV2_loop_count ParseFloat stats fmap.empty 0 b c).
Qed.

Lemma histogramV2_count_is_sum_witness :
  snd (fst (histogramV2 ParseFloat_digits
              [mkStatV2 "QryRTT100" 3; mkStatV2 "QryRTT10" 5;
               mkStatV2 "QryRTT010" 4])) = 12.
Proof.
  exact (histogramV2_count_is_sum ParseFloat_digits
           [mkStatV2 "QryRTT100" 3; mkStatV2 "QryRTT10" 5;
            mkStatV2 "QryRTT010" 4] eq_refl).
Defined.

(** X4. When [histogramV2] succeeds, the bucket of the last RTT counter
    of the list holds the total count; the [+Inf] bucket does when the
    counter that ends in [+] comes last. *)
Theorem histogramV2_last_bucket_is_count
        (ParseFloat : string -> Z -> option float64)
        (stats pre : list StatV2) (s : StatV2) (b : float64)
        (Hlast : rtt_V2 stats = (pre ++ [s])%list)
        (Hok : snd (histogramV2 ParseFloat stats) = None)
        (Hb : bound ParseFloat (StatV2_Name s) = inl b)
        (Hnum : is_num (b / 1000)%float) :
  fmap.index (fst (fst (histogramV2 ParseFloat stats))) (b / 1000)%float =
  snd (fst (histogramV2 ParseFloat stats)).
Proof.
  assert (Hs : strings.HasPrefix (StatV2_Name s) qryRTT = true).
  { assert (Hin : In s (rtt_V2 stats))
      by (rewrite Hlast; apply in_or_app; right; now left).
    unfold rtt_V2 in Hin. apply filter_In in Hin. apply Hin. }
  rewrite histogramV2_rtt in *. rewrite Hlast in *.
  unfold histogramV2 in *. rewrite histogramV2_loop_app in *.
  destruct (histogramV2_loop ParseFloat pre fmap.empty 0)
    as [[b0 c0]|[[b0 c0] e0]]; [|discriminate Hok].
  cbn [histogramV2_loop] in *. rewrite Hs, Hb in *. cbn [fst snd].
  now apply index_assign_same.
Qed.

Lemma histogramV2_last_bucket_is_count_witness :
  fmap.index
    (fst (fst (histogramV2 ParseFloat_digits
                 [mkStatV2 "QryRTT100" 3; mkStatV2 "Lame" 1;
                  mkStatV2 "QryRTT100+" 2; mkStatV2 "Retry" 9])))
    infinity = 5.
Proof.
  exact (histogramV2_last_bucket_is_count ParseFloat_digits
           [mkStatV2 "QryRTT100" 3; mkStatV2 "Lame" 1;
            mkStatV2 "QryRTT100+" 2; mkStatV2 "Retry" 9]
           [mkStatV2 "QryRTT100" 3] (mkStatV2 "QryRTT100+" 2) infinity
           eq_refl eq_refl eq_refl eq_refl).
Defined.

(** Every number is [+Inf] or below it. *)
Lemma float_le_infinity (k : float64) :
  is_num k -> k = infinity \/ flt k infinity.
Proof.
  intros Hk. pose proof Hk as Hk'. apply is_num_spec in Hk'.
  assert (Hinf : is_num infinity) by reflexivity.
  destruct (Prim2SF k) as [s|s| |s m e] eqn:E.
  - right. apply float_ltb_rank. repeat split; auto.
    unfold frank. rewrite E. left. cbn. lia.
  - destruct s.
    + right. apply float_ltb_rank. repeat split; auto.
      unfold frank. rewrite E. left. cbn. lia.
    + left. apply Prim2SF_inj. rewrite E. reflexivity.
  - congruence.
  - right. apply float_ltb_rank. repeat split; auto.
    unfold frank. rewrite E. left. destruct s; cbn; lia.
Qed.

(** The numbers among the keys after the last loop are keys of the map
    it started from. *)
Lemma cumulate_keys (keys : list float64) :
  forall (m : fmap.t) (count : Z) (g : float64) (v : Z),
    pairwise_ne (fmap.keys m) ->
    (forall k, In k keys -> In k (fmap.keys m)) ->
    is_num g ->
    In (g, v) (fst (histogramV3_cumulate keys m count)) ->
    In g (fmap.keys m).
Proof.
  induction keys as [|k keys IH]; intros m count g v Hp Hin Hg Hgv.
  - cbn in Hgv. exact (keys_in m g v Hgv).
  - cbn [histogramV3_cumulate] in Hgv.
    assert (Hk : In k (fmap.keys m)) by (apply Hin; now left).
    destruct (k =? k)%float eqn:Hnum.
    + rewrite (assign_present m k _ Hp Hnum Hk) in Hgv.
      apply IH in Hgv; auto.
      * now rewrite keys_setv in Hgv.
      * now rewrite keys_setv.
      * intros k0 Hk0. rewrite keys_setv. apply Hin. now right.
    + assert (Hno : forall k', In k' (fmap.keys m) -> fne k' k)
        by (intros k' _; exact (proj2 (float_nan_ne k k' Hnum))).
      rewrite (assign_absent m k _ Hno) in Hgv.
      apply IH in Hgv; auto.
      * unfold fmap.keys in Hgv. rewrite map_app in Hgv.
        apply in_app_or in Hgv as [Hgv|[<-|[]]]; [exact Hgv|].
        unfold is_num in Hg. cbn in Hg. congruence.
      * unfold fmap.keys. rewrite map_app. cbn [List.map fst].
        now apply pairwise_ne_snoc_nan.
      * intros k0 Hk0. unfold fmap.keys. rewrite map_app.
        apply in_or_app. left. apply Hin. now right.
Qed.

(** After the last loop over sorted keys, the greatest number among them
    holds the final count. *)
Lemma cumulate_greatest (keys : list float64) :
  forall (m : fmap.t) (count : Z) (g : float64) (v : Z),
    StronglySorted nan_first keys ->
    pairwise_ne (fmap.keys m) ->
    (forall k, In k keys -> In k (fmap.keys m)) ->
    is_num g -> In g keys ->
    (forall k, In k keys -> is_num k -> k = g \/ flt k g) ->
    In (g, v) (fst (histogramV3_cumulate keys m count)) ->
    v = snd (histogramV3_cumulate keys m count).
Proof.
  induction keys as [|k keys IH];
    intros m count g v Hs Hp Hin Hg Hgk Hmax Hgv; [contradiction|].
  inversion Hs as [|? ? Hs' Hall]; subst.
  rewrite Forall_forall in Hall.
  cbn [histogramV3_cumulate] in *.
  assert (Hk : In k (fmap.keys m)) by (apply Hin; now left).
  destruct (k =? k)%float eqn:Hnum.
  - rewrite (assign_present m k _ Hp Hnum Hk) in *.
    destruct Hgk as [->|Hgk].
    + (* the greatest key is the head: nothing comes after it *)
      destruct keys as [|k' keys].
      * cbn in *. apply in_map_iff in Hgv as [[k0 v0] [E H0]].
        unfold setv in E; cbn [fst snd] in E. injection E as -> <-.
        unfold is_num in Hg. now rewrite Hg.
      * exfalso.
        assert (Hlt : flt g k').
        { destruct (Hall k' (or_introl eq_refl)) as [Hn|Hlt];
            [congruence|exact Hlt]. }
        destruct (float_ltb_num g k' Hlt) as [_ Hk'].
        destruct (Hmax k' (or_intror (or_introl eq_refl)) Hk') as [->|Hgt].
        -- exact (float_ltb_asym g g Hlt Hlt).
        -- exact (float_ltb_asym g k' Hlt Hgt).
    + apply (IH _ _ g v); auto.
      * now rewrite keys_setv.
      * intros k0 Hk0. rewrite keys_setv. apply Hin. now right.
      * intros k0 Hk0. apply Hmax. now right.
  - assert (Hno : forall k', In k' (fmap.keys m) -> fne k' k)
      by (intros k' _; exact (proj2 (float_nan_ne k k' Hnum))).
    rewrite (assign_absent m k _ Hno) in *.
    destruct Hgk as [->|Hgk]; [unfold is_num in Hg; congruence|].
    apply (IH _ _ g v); auto.
    + unfold fmap.keys. rewrite map_app. cbn [List.map fst].
      now apply pairwise_ne_snoc_nan.
    + intros k0 Hk0. unfold fmap.keys. rewrite map_app.
      apply in_or_app. left. apply Hin. now right.
    + intros k0 Hk0. apply Hmax. now right.
Qed.

(** X5. When the bounds of a Gen3 list do not collide, the [+Inf] bucket
    [histogramV3] returns, if there is one, holds the total count;
    nothing is assumed about the size of the counts. *)
Theorem histogramV3_inf_bucket_is_count
        (ParseFloat : string -> Z -> option float64)
        (counters : list CounterV3) (v : Z)
        (Hdistinct : distinct_bounds ParseFloat counters = true)
        (Hinf : In (infinity, v)
                   (fst (fst (histogramV3 ParseFloat counters)))) :
  v = snd (fst (histogramV3 ParseFloat counters)).
Proof.
  unfold distinct_bounds in Hdistinct.
  destruct (entries ParseFloat counters) as [es|] eqn:He;
    [|discriminate Hdistinct].
  apply distinct_pairwise in Hdistinct.
  unfold histogramV3, fmap.empty in *.
  rewrite (collect_entries ParseFloat counters [] es He Hdistinct) in *.
  cbn [app] in *.
  set (K := sort.Float64s (fmap.keys es)) in *.
  assert (HK : Permutation K (fmap.keys es)) by apply Float64s_perm.
  assert (HinK : forall k, In k K -> In k (fmap.keys es))
    by (intros k Hk; now apply (Permutation_in _ HK)).
  assert (Hnum : is_num infinity) by reflexivity.
  destruct (histogramV3_cumulate K es 0) as [b c] eqn:Hb.
  cbn [fst snd] in *.
  assert (Hg : In infinity K).
  { apply (Permutation_in _ (Permutation_sym HK)).
    apply (cumulate_keys K es 0 infinity v Hdistinct HinK Hnum).
    now rewrite Hb. }
  pose proof (cumulate_greatest K es 0 infinity v) as H.
  rewrite Hb in H. cbn [fst snd] in H. apply H; auto.
  - now apply Float64s_sorted.
  - intros k _ Hk. now apply float_le_infinity.
Qed.

Lemma histogramV3_inf_bucket_is_count_witness :
  10 = snd (fst (histogramV3 ParseFloat_digits
                   [mkCounterV3 "QryRTT100+" 2; mkCounterV3 "QryRTT100" 3;
                    mkCounterV3 "QryRTT10" 5])).
Proof.
  apply (histogramV3_inf_bucket_is_count ParseFloat_digits
           [mkCounterV3 "QryRTT100+" 2; mkCounterV3 "QryRTT100" 3;
            mkCounterV3 "QryRTT10" 5] 10).
  - vm_compute. reflexivity.
  - vm_compute. left. reflexivity.
Defined.

(** X6. When the bounds of a Gen3 list do not collide and its raw counts
    sum below [2^64], [histogramV3] returns a cumulative histogram over
    the bounds that are numbers: the count of every bucket whose bound is
    a number is at most the total count, and the count of a bucket is at
    most that of every bucket with a greater bound. (A bound that is not
    a number is outside the order, and its bucket is not covered.) *)
Theorem histogramV3_cumulative
        (ParseFloat : string -> Z -> option float64)
        (counters : list CounterV3)
        (Hdistinct : distinct_bounds ParseFloat counters = true)
        (Hsmall : raw_total counters < two64) :
  (forall k v,
      In (k, v) (fst (fst (histogramV3 ParseFloat counters))) ->
      is_num k ->
      v <= snd (fst (histogramV3 ParseFloat counters))) /\
  (forall k1 v1 k2 v2,
      In (k1, v1) (fst (fst (histogramV3 ParseFloat counters))) ->
      In (k2, v2) (fst (fst (histogramV3 ParseFloat counters))) ->
      flt k1 k2 ->
      v1 <= v2).
Proof.
  split;
    [|exact (histogramV3_counts_rise ParseFloat counters Hdistinct Hsmall)].
  intros k v Hin Hnum.
  unfold distinct_bounds in Hdistinct.
  destruct (entries ParseFloat counters) as [es|] eqn:He;
    [|discriminate Hdistinct].
  apply distinct_pairwise in Hdistinct.
  destruct (entries_total ParseFloat counters es He) as [Ht Hpos].
  unfold histogramV3, fmap.empty in *.
  rewrite (collect_entries ParseFloat counters [] es He Hdistinct) in *.
  cbn [app] in *.
  set (K := sort.Float64s (fmap.keys es)) in *.
  assert (HK : Permutation K (fmap.keys es)) by apply Float64s_perm.
  assert (Hraw : raw_sum es K <= total es).
  { rewrite (raw_sum_perm es K (fmap.keys es) HK).
    apply raw_sum_keys_le; auto. }
  destruct (cumulate_rise K es 0) as (_ & Hsrc & _).
  - now apply Float64s_sorted.
  - exact Hdistinct.
  - intros k0 Hk0. now apply (Permutation_in _ HK).
  - exact Hpos.
  - lia.
  - lia.
  - destruct (histogramV3_cumulate K es 0) as [b c] eqn:Hb.
    cbn [fst snd] in *.
    destruct (Hsrc k v Hnum Hin) as [[_ Hbd]|[Hnk Hes]]; [lia|].
    exfalso. apply Hnk. apply (Permutation_in _ (Permutation_sym HK)).
    exact (keys_in es k v Hes).
Qed.

Lemma histogramV3_cumulative_witness :
  5 <= 8 <= snd (fst (histogramV3 ParseFloat_digits
                        [mkCounterV3 "QryRTT100+" 2; mkCounterV3 "QryRTT100" 3;
                         mkCounterV3 "QryRTT10" 5])).
Proof.
  split.
  - apply (proj2 (histogramV3_cumulative ParseFloat_digits
                    [mkCounterV3 "QryRTT100+" 2; mkCounterV3 "QryRTT100" 3;
                     mkCounterV3 "QryRTT10" 5]
                    eq_refl eq_refl) 0.01%float 5 0.1%float 8).
    + vm_compute. right. right. left. reflexivity.
    + vm_compute. right. left. reflexivity.
    + reflexivity.
  - apply (proj1 (histogramV3_cumulative ParseFloat_digits
                    [mkCounterV3 "QryRTT100+" 2; mkCounterV3 "QryRTT100" 3;
                     mkCounterV3 "QryRTT10" 5]
                    eq_refl eq_refl) 0.1%float 8).
    + vm_compute. right. left. reflexivity.
    + reflexivity.
Defined.

(* ================================================================== *)
(** ** The two builders on counters in ascending order                 *)
(* ================================================================== *)

Lemma ascending_sorted (ks : list float64) :
  ascending ks = true ->
  StronglySorted flt ks /\ (forall k, In k ks -> is_num k).
Proof.
  induction ks as [|k rest IH]; intros H.
  - split; [constructor|intros ? []].
  - cbn [ascending] in H.
    apply andb_prop in H as [H Hrest]. apply andb_prop in H as [Hk Hall].
    destruct (IH Hrest) as [Hs Hn]. split.
    + constructor; [exact Hs|].
      apply Forall_forall. intros k' Hk'.
      rewrite forallb_forall in Hall. exact (Hall k' Hk').
    + intros k' [<-|Hk']; [exact Hk|auto].
Qed.

Lemma sorted_flt_nan_first (ks : list float64) :
  StronglySorted flt ks -> StronglySorted nan_first ks.
Proof.
  induction 1 as [|k rest Hs IH Hall]; constructor; [exact IH|].
  apply (Forall_impl _ (fun k' H => or_intror H) Hall).
Qed.

Lemma sorted_flt_pairwise (ks : list float64) :
  StronglySorted flt ks -> pairwise_ne ks.
Proof.
  induction 1 as [|k rest Hs IH Hall]; constructor; [|exact IH].
  apply (Forall_impl _ (fun k' H => proj1 (float_flt_fne k k' H)) Hall).
Qed.

(** Sorting keys that are in ascending order changes nothing. *)
Lemma Float64s_sorted_id (ks : list float64) :
  StronglySorted flt ks -> sort.Float64s ks = ks.
Proof.
  intros Hs. apply sorted_unique.
  - apply Float64s_sorted. now apply sorted_flt_pairwise.
  - now apply sorted_flt_nan_first.
  - apply Float64s_perm.
Qed.

Lemma pairwise_ne_app_r (a b : list float64) :
  pairwise_ne (a ++ b)%list -> pairwise_ne b.
Proof.
  induction a as [|k a IH]; intros H; [exact H|].
  apply IH. now apply pairwise_ne_tail in H.
Qed.

Lemma keys_app (a b : fmap.t) :
  fmap.keys (a ++ b)%list = (fmap.keys a ++ fmap.keys b)%list.
Proof. unfold fmap.keys. apply map_app. Qed.

Lemma keys_running (es : fmap.t) :
  forall count, fmap.keys (running es count) = fmap.keys es.
Proof.
  induction es as [|[k v] es IH]; intros count; [reflexivity|].
  cbn [running fmap.keys List.map fst]. f_equal. apply IH.
Qed.

Section Ascending.

Variable ParseFloat : string -> Z -> option float64.

(** The Gen2 loop on counters whose bounds do not collide: the running
    sums of their entries, in order. *)
Lemma histogramV2_loop_entries (l : list StatV2) :
  forall (acc es : fmap.t) (count : Z),
    entries ParseFloat (List.map as_CounterV3 l) = Some es ->
    pairwise_ne (fmap.keys (acc ++ es)%list) ->
    histogramV2_loop ParseFloat l acc count =
    inl ((acc ++ running es count)%list, running_count es count).
Proof.
  induction l as [|s rest IH]; intros acc es count He Hp.
  - cbn in He. injection He as <-. cbn. now rewrite app_nil_r.
  - cbn [List.map entries histogramV2_loop as_CounterV3 mkCounterV3
         CounterV3_Name CounterV3_Counter] in *.
    destruct (strings.HasPrefix (StatV2_Name s) qryRTT);
      [|now apply IH].
    unfold entry in He.
    change (CounterV3_Name (as_CounterV3 s)) with (StatV2_Name s) in He.
    change (CounterV3_Counter (as_CounterV3 s)) with (StatV2_Counter s) in He.
    destruct (bound ParseFloat (StatV2_Name s)) as [b|rrt];
      [|discriminate He].
    destruct (entries ParseFloat (List.map as_CounterV3 rest)) as [es'|];
      [|discriminate He].
    injection He as <-.
    rewrite assign_absent.
    + rewrite (IH _ es' _ eq_refl).
      * cbn [running running_count]. now rewrite <- app_assoc.
      * rewrite !keys_app in *. now rewrite <- app_assoc.
    + rewrite keys_app in Hp. exact (pairwise_ne_middle _ _ _ Hp).
Qed.

(** The last Gen3 loop over the keys of the entries still to sum, in the
    order of the map: the running sums, in place. *)
Lemma cumulate_in_order (es : fmap.t) :
  forall (done : fmap.t) (count : Z),
    pairwise_ne (fmap.keys (done ++ es)%list) ->
    (forall k, In k (fmap.keys es) -> is_num k) ->
    histogramV3_cumulate (fmap.keys es) (done ++ es)%list count =
    ((done ++ running es count)%list, running_count es count).
Proof.
  induction es as [|[k v] es IH]; intros done count Hp Hnum.
  - cbn. reflexivity.
  - cbn [fmap.keys List.map fst histogramV3_cumulate running running_count].
    assert (Hk : is_num k) by (apply Hnum; now left).
    assert (Hin : In (k, v) (done ++ (k, v) :: es)%list)
      by (apply in_or_app; right; now left).
    rewrite (index_in _ k v Hp Hk Hin).
    rewrite (assign_present _ k _ Hp Hk (keys_in _ k v Hin)).
    assert (Hdone : List.map (setv k (add64 count v)) done = done).
    { apply map_setv_absent. rewrite keys_app in Hp.
      exact (pairwise_ne_middle _ _ _ Hp). }
    assert (Hrest : List.map (setv k (add64 count v)) es = es).
    { apply map_setv_absent. rewrite keys_app in Hp.
      apply pairwise_ne_app_r in Hp. intros k' Hk'.
      exact (proj2 (pairwise_ne_head k (fmap.keys es) Hp k' Hk')). }
    rewrite map_app. cbn [List.map]. rewrite Hdone, Hrest.
    unfold setv at 1. cbn [fst snd]. unfold is_num in Hk. rewrite Hk.
    change (done ++ (k, add64 count v) :: es)%list
      with (done ++ [(k, add64 count v)] ++ es)%list.
    rewrite app_assoc.
    fold (fmap.keys es).
    rewrite (IH (done ++ [(k, add64 count v)])%list (add64 count v)).
    + now rewrite <- app_assoc.
    + rewrite <- app_assoc. rewrite !keys_app in *. exact Hp.
    + intros k' Hk'. apply Hnum. now right.
Qed.

End Ascending.

(** X7. On counters whose RTT bounds all parse to numbers in strictly
    ascending order, the Gen2 builder and the Gen3 builder return the
    same buckets and the same count: the two differ only on lists that
    are not sorted. *)
Theorem histogram_builders_agree_on_ascending
        (ParseFloat : string -> Z -> option float64) (stats : list StatV2)
        (Hasc : ascending_bounds ParseFloat (List.map as_CounterV3 stats)
                = true) :
  histogramV3 ParseFloat (List.map as_CounterV3 stats) =
  histogramV2 ParseFloat stats.
Proof.
  unfold ascending_bounds in Hasc.
  destruct (entries ParseFloat (List.map as_CounterV3 stats)) as [es|] eqn:He;
    [|discriminate Hasc].
  destruct (ascending_sorted _ Hasc) as [Hs Hnum].
  pose proof (sorted_flt_pairwise _ Hs) as Hp.
  unfold histogramV3, histogramV2, fmap.empty.
  rewrite (collect_entries ParseFloat _ [] es He Hp).
  rewrite (histogramV2_loop_entries ParseFloat stats [] es 0 He Hp).
  cbn [app]. rewrite (Float64s_sorted_id _ Hs).
  change es with ([] ++ es)%list at 2.
  rewrite (cumulate_in_order es [] 0 Hp Hnum). reflexivity.
Qed.

Lemma histogram_builders_agree_on_ascending_witness :
  histogramV3 ParseFloat_digits
    (List.map as_CounterV3
       [mkStatV2 "QryRTT10" 5; mkStatV2 "Lame" 7; mkStatV2 "QryRTT100" 3;
        mkStatV2 "QryRTT100+" 2]) =
  histogramV2 ParseFloat_digits
    [mkStatV2 "QryRTT10" 5; mkStatV2 "Lame" 7; mkStatV2 "QryRTT100" 3;
     mkStatV2 "QryRTT100+" 2].
Proof.
  exact (histogram_builders_agree_on_ascending ParseFloat_digits
           [mkStatV2 "QryRTT10" 5; mkStatV2 "Lame" 7; mkStatV2 "QryRTT100" 3;
            mkStatV2 "QryRTT100+" 2] eq_refl).
Defined.

(* ================================================================== *)
(** ** What the mappers send                                           *)
(* ================================================================== *)

Lemma lookup_Some_in (t : desc_table) (name : string) (d : Desc) :
  lookup t name = Some d -> In (name, d) t.
Proof.
  induction t as [|[k d'] t IH]; intros H; [discriminate H|].
  cbn [lookup] in H. destruct (String.eqb_spec k name) as [->|Hne].
  - injection H as ->. now left.
  - right. now apply IH.
Qed.

Lemma serverLabelStats_descs (name : string) (d : Desc) :
  lookup serverLabelStats name = Some d ->
  In d [serverQueryErrors; serverReponses].
Proof.
  intros H. apply lookup_Some_in in H. unfold serverLabelStats in H.
  repeat (destruct H as [H|H];
          [injection H as _ <-; cbn; auto|]).
  contradiction.
Qed.

Lemma resolverLabelStats_descs (name : string) (d : Desc) :
  lookup resolverLabelStats name = Some d ->
  In d [resolverQueryErrors; resolverResponseErrors; resolverDNSSECSucess].
Proof.
  intros H. apply lookup_Some_in in H. unfold resolverLabelStats in H.
  repeat (destruct H as [H|H];
          [injection H as _ <-; cbn; auto|]).
  contradiction.
Qed.

Lemma resolverMetricStats_descs (name : string) (d : Desc) :
  lookup resolverMetricStats name = Some d ->
  In d (List.map snd resolverMetricStats).
Proof.
  intros H. apply lookup_Some_in in H.
  change d with (snd (name, d)). now apply in_map.
Qed.

Lemma Forall_map_all {A B} (P : B -> Prop) (f : A -> B) (l : list A) :
  (forall x, P (f x)) -> Forall P (List.map f l).
Proof. intros H. induction l; cbn; constructor; auto. Qed.

Lemma Forall_flat_map_all {A B} (P : B -> Prop) (f : A -> list B)
      (l : list A) :
  (forall x, Forall P (f x)) -> Forall P (List.flat_map f l).
Proof.
  intros H. induction l as [|x l IH]; cbn; [constructor|].
  apply Forall_app. split; auto.
Qed.

Lemma Forall_out_concat (P : Metric -> Prop) (l : list Output) :
  Forall (fun o => Forall P (fst o)) l -> Forall P (fst (out_concat l)).
Proof.
  induction 1 as [|o l Ho Hl IH]; cbn; [constructor|].
  apply Forall_app. split; assumption.
Qed.

(** One goal for each output of a list of outputs. *)
Ltac each_output :=
  repeat match goal with
         | |- Forall (fun o => _) (_ :: _) =>
             apply Forall_cons; [cbn [fst sends]|]
         | |- Forall (fun o => _) [] => apply Forall_nil
         end.

Section Emitted.

Variable ParseFloat : string -> Z -> option float64.

Lemma nsstat_V2_emitted (stats : list StatV2) :
  Forall emitted (nsstat_V2 stats).
Proof.
  unfold nsstat_V2. apply Forall_flat_map_all. intros s.
  destruct (lookup serverLabelStats (StatV2_Name s)) as [d|] eqn:E;
    [|constructor].
  constructor; [|constructor].
  apply emitted_server. exact (serverLabelStats_descs _ _ E).
Qed.

Lemma resstat_V2_emitted (view : string) (stats : list StatV2) :
  Forall emitted (resstat_V2 view stats).
Proof.
  unfold resstat_V2. apply Forall_flat_map_all. intros s.
  apply Forall_app. split.
  - destruct (lookup resolverMetricStats (StatV2_Name s)) as [d|] eqn:E;
      [|constructor].
    constructor; [|constructor].
    apply emitted_resolver_metric. exact (resolverMetricStats_descs _ _ E).
  - destruct (lookup resolverLabelStats (StatV2_Name s)) as [d|] eqn:E;
      [|constructor].
    constructor; [|constructor].
    apply emitted_resolver_label. exact (resolverLabelStats_descs _ _ E).
Qed.

Lemma duration_V2_emitted (view : string) (stats : list StatV2) :
  Forall emitted (fst (duration_V2 ParseFloat view stats)).
Proof.
  unfold duration_V2.
  destruct (histogramV2 ParseFloat stats) as [[b c] [e|]]; cbn;
    repeat constructor.
Qed.

Lemma taskmgr_out_emitted (t : TaskManager) :
  Forall emitted (fst (taskmgr_out t)).
Proof. cbn. repeat constructor. Qed.

Lemma view_V2_emitted (v : ViewV2) :
  Forall emitted (fst (view_V2 ParseFloat v)).
Proof.
  unfold view_V2. apply Forall_out_concat.
  each_output.
  - apply Forall_map_all. intros s. constructor.
  - apply Forall_map_all. intros s. constructor.
  - apply resstat_V2_emitted.
  - apply duration_V2_emitted.
Qed.

(** Every series [UpdateV2] sends has one of the shapes. *)
Lemma UpdateV2_out_emitted (root : BindRootV2) :
  Forall emitted (fst (UpdateV2_out ParseFloat root)).
Proof.
  unfold UpdateV2_out. apply Forall_out_concat.
  each_output.
  - apply Forall_map_all. intros s. constructor.
  - apply Forall_map_all. intros s. constructor.
  - apply nsstat_V2_emitted.
  - apply Forall_out_concat. apply Forall_map_all. apply view_V2_emitted.
  - apply taskmgr_out_emitted.
Qed.

Lemma server_counters_V3_emitted (counters : CountersV3) :
  Forall emitted (server_counters_V3 counters).
Proof.
  unfold server_counters_V3.
  destruct (String.eqb (CountersV3_Type counters) "qtype");
    [apply Forall_map_all; intros c; constructor|].
  destruct (String.eqb (CountersV3_Type counters) "opcode");
    [apply Forall_map_all; intros c; constructor|].
  destruct (String.eqb (CountersV3_Type counters) "nsstat"); [|constructor].
  apply Forall_flat_map_all. intros c.
  destruct (lookup serverLabelStats (CounterV3_Name c)) as [d|] eqn:E;
    [|constructor].
  constructor; [|constructor].
  apply emitted_server. exact (serverLabelStats_descs _ _ E).
Qed.

Lemma resstats_V3_emitted (view : string) (counters : list CounterV3) :
  Forall emitted (resstats_V3 view counters).
Proof.
  unfold resstats_V3. apply Forall_flat_map_all. intros s.
  apply Forall_app. split.
  - destruct (lookup resolverMetricStats (CounterV3_Name s)) as [d|] eqn:E;
      [|constructor].
    constructor; [|constructor].
    apply emitted_resolver_metric. exact (resolverMetricStats_descs _ _ E).
  - destruct (lookup resolverLabelStats (CounterV3_Name s)) as [d|] eqn:E;
      [|constructor].
    constructor; [|constructor].
    apply emitted_resolver_label. exact (resolverLabelStats_descs _ _ E).
Qed.

Lemma duration_V3_emitted (view : string) (counters : list CounterV3) :
  Forall emitted (fst (duration_V3 ParseFloat view counters)).
Proof.
  unfold duration_V3.
  destruct (histogramV3 ParseFloat counters) as [[b c] [e|]]; cbn;
    repeat constructor.
Qed.

Lemma view_counters_V3_emitted (view : string) (c : CountersV3) :
  Forall emitted (fst (view_counters_V3 ParseFloat view c)).
Proof.
  unfold view_counters_V3. cbn [fst out_app]. apply Forall_app. split.
  - destruct (String.eqb (CountersV3_Type c) "resqtype"); cbn;
      [|constructor].
    apply Forall_map_all. intros c'. constructor.
  - destruct (String.eqb (CountersV3_Type c) "resstats"); cbn;
      [|constructor].
    apply Forall_app. split;
      [apply resstats_V3_emitted|apply duration_V3_emitted].
Qed.

Lemma view_V3_emitted (v : ViewV3) :
  Forall emitted (fst (view_V3 ParseFloat v)).
Proof.
  unfold view_V3. cbn [fst out_app sends]. apply Forall_app. split.
  - apply Forall_map_all. intros c. constructor.
  - apply Forall_out_concat. apply Forall_map_all.
    apply view_counters_V3_emitted.
Qed.

(** Every series [UpdateV3] sends has one of the shapes. *)
Lemma UpdateV3_out_emitted (root : BindRootV3) :
  Forall emitted (fst (UpdateV3_out ParseFloat root)).
Proof.
  unfold UpdateV3_out. apply Forall_out_concat.
  each_output.
  - apply Forall_flat_map_all. apply server_counters_V3_emitted.
  - apply Forall_out_concat. apply Forall_map_all. apply view_V3_emitted.
  - apply taskmgr_out_emitted.
Qed.

End Emitted.


Lemma emitted_labelled (m : Metric) : emitted m -> labelled m.
Proof.
  intros H. destruct H as [| |d v r Hd| | |d v view Hd|d v view n Hd| | |];
    unfold labelled; cbn [labelValues_of desc_of]; try reflexivity.
  - cbn in Hd. destruct Hd as [<-|[<-|[]]]; reflexivity.
  - cbn in Hd. repeat (destruct Hd as [<-|Hd]; [reflexivity|]).
    contradiction.
  - cbn in Hd. destruct Hd as [<-|[<-|[<-|[]]]]; reflexivity.
Qed.

Lemma emitted_not_up (m : Metric) : emitted m -> desc_of m <> up.
Proof.
  intros H. destruct H as [| |d v r Hd| | |d v view Hd|d v view n Hd| | |];
    cbn [desc_of]; try discriminate.
  - cbn in Hd. destruct Hd as [<-|[<-|[]]]; discriminate.
  - cbn in Hd. repeat (destruct Hd as [<-|Hd]; [discriminate|]).
    contradiction.
  - cbn in Hd. destruct Hd as [<-|[<-|[<-|[]]]]; discriminate.
Qed.


(* ================================================================== *)
(** ** What a scrape sends                                             *)
(* ================================================================== *)

Section Sends.

Variable ParseFloat : string -> Z -> option float64.
Variable server : list string -> string -> result Response.
Variable xml_Unmarshal_V2 : string -> BindRootV2 -> BindRootV2 * option error.
Variable xml_Unmarshal_V3 : string -> BindRootV3 -> BindRootV3 * option error.
Variable dedup : BindRootV3 -> BindRootV3.

(** The channel after [Collect]: [up = 0] alone, or the series of one of
    the two mappers followed by [up = 1]. *)
Lemma Collect_sends (st : State Exporter) :
  ch (snd (Collect ParseFloat server xml_Unmarshal_V2 xml_Unmarshal_V3 dedup
                   st)) = (ch st ++ [up_sample 0%float])%list \/
  (exists root,
      ch (snd (Collect ParseFloat server xml_Unmarshal_V2 xml_Unmarshal_V3
                       dedup st)) =
      (ch st ++ fst (UpdateV2_out ParseFloat root) ++ [up_sample 1%float])%list)
  \/
  (exists root,
      ch (snd (Collect ParseFloat server xml_Unmarshal_V2 xml_Unmarshal_V3
                       dedup st)) =
      (ch st ++ fst (UpdateV3_out ParseFloat root) ++ [up_sample 1%float])%list).
Proof.
  unfold Collect, Collect_body.
  pose proof (GetVersion_frame server st) as HF.
  destruct (GetVersion server st) as [[[v [e|]]|msg] st1]; cbn [snd] in HF;
    destruct HF as (_ & Hch & _).
  - left. cbn. now rewrite Hch.
  - destruct (String.eqb v "v3").
    + pose proof (FetchV3_frame server xml_Unmarshal_V3 dedup st1) as HF3.
      destruct (FetchV3 server xml_Unmarshal_V3 dedup st1)
        as [[[root|err]|msg] st2]; cbn [snd] in HF3;
        destruct HF3 as (_ & Hch3 & _).
      * right. right. exists root. cbn. rewrite Hch3, Hch.
        now rewrite <- app_assoc.
      * left. cbn. now rewrite Hch3, Hch.
      * left. cbn. now rewrite Hch3, Hch.
    + pose proof (FetchV2_frame server xml_Unmarshal_V2 st1) as HF2.
      destruct (FetchV2 server xml_Unmarshal_V2 st1)
        as [[[root|err]|msg] st2]; cbn [snd] in HF2;
        destruct HF2 as (_ & Hch2 & _).
      * right. left. exists root. cbn. rewrite Hch2, Hch.
        now rewrite <- app_assoc.
      * left. cbn. now rewrite Hch2, Hch.
      * left. cbn. now rewrite Hch2, Hch.
  - left. cbn. now rewrite Hch.
Qed.

End Sends.

(** X8. Every series the two mappers send, and so every series a scrape
    sends, carries as many label values as its descriptor has labels:
    the calls of [MustNewConstMetric] and [MustNewConstHistogram] in
    [UpdateV2], [UpdateV3] and [Collect] cannot panic on that count. *)
Theorem mappers_send_labelled_series
        (ParseFloat : string -> Z -> option float64)
        (server : list string -> string -> result Response)
        (xml_Unmarshal_V2 : string -> BindRootV2 -> BindRootV2 * option error)
        (xml_Unmarshal_V3 : string -> BindRootV3 -> BindRootV3 * option error)
        (dedup : BindRootV3 -> BindRootV3)
        (root2 : BindRootV2) (root3 : BindRootV3) (st : State Exporter) :
  Forall labelled (fst (UpdateV2_out ParseFloat root2)) /\
  Forall labelled (fst (UpdateV3_out ParseFloat root3)) /\
  exists ms,
    ch (snd (Collect ParseFloat server xml_Unmarshal_V2 xml_Unmarshal_V3
                     dedup st)) = (ch st ++ ms)%list /\
    Forall labelled ms.
Proof.
  assert (H2 : forall r, Forall labelled (fst (UpdateV2_out ParseFloat r))).
  { intros r. apply (Forall_impl _ emitted_labelled).
    apply UpdateV2_out_emitted. }
  assert (H3 : forall r, Forall labelled (fst (UpdateV3_out ParseFloat r))).
  { intros r. apply (Forall_impl _ emitted_labelled).
    apply UpdateV3_out_emitted. }
  assert (Hup : forall v, labelled (up_sample v)) by (intros v; reflexivity).
  split; [apply H2|]. split; [apply H3|].
  destruct (Collect_sends ParseFloat server xml_Unmarshal_V2 xml_Unmarshal_V3
                          dedup st) as [H|[[r H]|[r H]]];
    rewrite H; eexists; (split; [reflexivity|]).
  - constructor; [apply Hup|constructor].
  - apply Forall_app. split; [apply H2|]. constructor; [apply Hup|constructor].
  - apply Forall_app. split; [apply H3|]. constructor; [apply Hup|constructor].
Qed.

(** X9. A scrape, however it ends, sends exactly one sample of [up]: it
    is the last metric sent, its value is 0 or 1, and no series before it
    has the descriptor of [up]. *)
Theorem Collect_sends_one_up
        (ParseFloat : string -> Z -> option float64)
        (server : list string -> string -> result Response)
        (xml_Unmarshal_V2 : string -> BindRootV2 -> BindRootV2 * option error)
        (xml_Unmarshal_V3 : string -> BindRootV3 -> BindRootV3 * option error)
        (dedup : BindRootV3 -> BindRootV3) (st : State Exporter) :
  exists ms status,
    ch (snd (Collect ParseFloat server xml_Unmarshal_V2 xml_Unmarshal_V3
                     dedup st)) = (ch st ++ ms ++ [up_sample status])%list /\
    (status = 0%float \/ status = 1%float) /\
    Forall (fun m => desc_of m <> up) ms.
Proof.
  destruct (Collect_sends ParseFloat server xml_Unmarshal_V2 xml_Unmarshal_V3
                          dedup st) as [H|[[r H]|[r H]]]; rewrite H.
  - exists [], 0%float. repeat split; auto.
  - exists (fst (UpdateV2_out ParseFloat r)), 1%float.
    repeat split; auto.
    apply (Forall_impl _ emitted_not_up). apply UpdateV2_out_emitted.
  - exists (fst (UpdateV3_out ParseFloat r)), 1%float.
    repeat split; auto.
    apply (Forall_impl _ emitted_not_up). apply UpdateV3_out_emitted.
Qed.





Lemma flat_map_filter {A B} (f : A -> list B) (p : A -> bool) (l : list A) :
  (forall x, p x = false -> f x = []) ->
  List.flat_map f (List.filter p l) = List.flat_map f l.
Proof.
  intros H. induction l as [|x l IH]; [reflexivity|].
  cbn [filter flat_map]. destruct (p x) eqn:E.
  - cbn [flat_map]. now rewrite IH.
  - rewrite (H x E). exact IH.
Qed.

(** No name of the three tables starts with the RTT tag. *)
Lemma listed_names_not_rtt (name : string) (d : Desc) :
  lookup resolverMetricStats name = Some d \/
  lookup resolverLabelStats name = Some d \/
  lookup serverLabelStats name = Some d ->
  strings.HasPrefix name qryRTT = false.
Proof.
  intros [H|[H|H]]; apply lookup_Some_in in H; cbn [In] in H;
    unfold resolverMetricStats, resolverLabelStats, serverLabelStats in H;
    cbn [In] in H;
    repeat (destruct H as [H|H]; [injection H as <- _; reflexivity|]);
    contradiction.
Qed.

Lemma rtt_name_unlisted (name : string) :
  strings.HasPrefix name qryRTT = true ->
  lookup resolverMetricStats name = None /\
  lookup resolverLabelStats name = None /\
  lookup serverLabelStats name = None.
Proof.
  intros Hp.
  assert (H : forall t, (forall d, lookup t name = Some d ->
                                   strings.HasPrefix name qryRTT = false) ->
                        lookup t name = None).
  { intros t Ht. destruct (lookup t name) as [d|] eqn:E; [|reflexivity].
    specialize (Ht d eq_refl). congruence. }
  repeat split; apply H; intros d Hd; apply (listed_names_not_rtt name d);
    auto.
Qed.

(** X11. The RTT counters go to the histogram builders and nowhere else:
    a counter whose name starts with the RTT tag is in none of the three
    mapping tables, so the generic resolver mapping of a view sends the
    same series with and without the RTT counters of the list. *)
Theorem rtt_counters_bypass_tables
        (view : string) (stats : list StatV2) (counters : list CounterV3) :
  (forall name,
      strings.HasPrefix name qryRTT = true ->
      lookup resolverMetricStats name = None /\
      lookup resolverLabelStats name = None /\
      lookup serverLabelStats name = None) /\
  resstat_V2 view stats = resstat_V2 view (other_V2 stats) /\
  resstats_V3 view counters = resstats_V3 view (other_V3 counters).
Proof.
  split; [exact rtt_name_unlisted|]. split.
  - unfold resstat_V2, other_V2. symmetry. apply flat_map_filter.
    intros s Hs. apply negb_false_iff in Hs.
    destruct (rtt_name_unlisted _ Hs) as (-> & -> & _). reflexivity.
  - unfold resstats_V3, other_V3. symmetry. apply flat_map_filter.
    intros s Hs. apply negb_false_iff in Hs.
    destruct (rtt_name_unlisted _ Hs) as (-> & -> & _). reflexivity.
Qed.

(** X12. Two different names of a mapping table never give the same
    series: different name-server counters differ in descriptor or in
    the label left after the prefix "Qry" is cut, and different
    dedicated resolver counters have different descriptors. *)
Theorem listed_names_give_distinct_series (n1 n2 : string) (d1 d2 : Desc) :
  n1 <> n2 ->
  (lookup serverLabelStats n1 = Some d1 ->
   lookup serverLabelStats n2 = Some d2 ->
   (d1, strings.TrimPrefix n1 "Qry") <> (d2, strings.TrimPrefix n2 "Qry")) /\
  (lookup resolverMetricStats n1 = Some d1 ->
   lookup resolverMetricStats n2 = Some d2 ->
   d1 <> d2).
Proof.
  intros Hne. split; intros H1 H2 E;
    apply lookup_Some_in in H1; apply lookup_Some_in in H2;
    unfold serverLabelStats, resolverMetricStats in H1, H2;
    cbn [In] in H1, H2;
    repeat (destruct H1 as [H1|H1]; [injection H1 as <- <-|]);
    try contradiction;
    repeat (destruct H2 as [H2|H2]; [injection H2 as <- <-|]);
    try contradiction;
    first [now apply Hne | vm_compute in E; discriminate E].
Qed.

Lemma listed_names_give_distinct_series_witness :
  (serverReponses, strings.TrimPrefix "QrySERVFAIL" "Qry") <>
  (serverReponses, strings.TrimPrefix "QryFORMERR" "Qry").
Proof.
  refine (proj1 (listed_names_give_distinct_series
                   "QrySERVFAIL" "QryFORMERR" serverReponses serverReponses _)
                eq_refl eq_refl).
  discriminate.
Defined.

(* ================================================================== *)
(** ** The Gen3 mapper on a Gen2 tree                                  *)
(* ================================================================== *)

Section Layouts.

Variable ParseFloat : string -> Z -> option float64.






End Layouts.



(* ================================================================== *)
(** ** The paths of a scrape                                           *)
(* ================================================================== *)

Section Paths.

Variable ParseFloat : string -> Z -> option float64.
Variable server : list string -> string -> result Response.
Variable xml_Unmarshal_V2 : string -> BindRootV2 -> BindRootV2 * option error.
Variable xml_Unmarshal_V3 : string -> BindRootV3 -> BindRootV3 * option error.
Variable dedup : BindRootV3 -> BindRootV3.

(** The run of groups that all fetch and parse. *)
Lemma group_run_ok (e : Exporter) (ms : list string) :
  forall (reqs : list string) (root root' : BindRootV3),
    groups_ok server xml_Unmarshal_V3 e reqs root ms = Some root' ->
    group_run server xml_Unmarshal_V3 e reqs root ms =
    (Ok root', List.map (v3uri e) ms).
Proof.
  induction ms as [|m ms IH]; intros reqs root root' H.
  - cbn in *. now injection H as <-.
  - cbn [groups_ok group_run List.map] in *.
    destruct (group_step server xml_Unmarshal_V3 e reqs root m)
      as [root1|err]; [|discriminate H].
    now rewrite (IH _ _ _ H).
Qed.

Lemma FetchV3_ok (st : State Exporter) (root : BindRootV3) :
  URI (self st) <> "" ->
  groups_ok server xml_Unmarshal_V3 (self st) (requests st) zero_BindRootV3
            (metrics (self st)) = Some root ->
  FetchV3 server xml_Unmarshal_V3 dedup st =
  (Return (Ok (dedup root)),
   add_requests st (List.map (v3uri (self st)) (metrics (self st)))).
Proof.
  intros Hne Hok.
  rewrite (FetchV3_run server xml_Unmarshal_V3 dedup st Hne).
  now rewrite (group_run_ok _ _ _ _ _ Hok).
Qed.

End Paths.

(** X14. When every configured group fetches and parses, [FetchV3]
    requests the path of each group once, in the configured order, each
    document being parsed into the tree the earlier ones left, and
    returns the tree after [dedup]; with no group configured it requests
    nothing. *)
Theorem FetchV3_fetches_every_group
        (server : list string -> string -> result Response)
        (xml_Unmarshal_V3 : string -> BindRootV3 -> BindRootV3 * option error)
        (dedup : BindRootV3 -> BindRootV3)
        (st : State Exporter) (root : BindRootV3)
        (Hne : URI (self st) <> "")
        (Hok : groups_ok server xml_Unmarshal_V3 (self st) (requests st)
                         zero_BindRootV3 (metrics (self st)) = Some root) :
  FetchV3 server xml_Unmarshal_V3 dedup st =
  (Return (Ok (dedup root)),
   add_requests st (List.map (v3uri (self st)) (metrics (self st)))).
Proof.
  rewrite (FetchV3_run server xml_Unmarshal_V3 dedup st Hne).
  rewrite (group_run_ok server xml_Unmarshal_V3 (self st) (metrics (self st))
                        (requests st) zero_BindRootV3 root Hok).
  reflexivity.
Qed.

Lemma FetchV3_fetches_every_group_witness :
  requests
    (snd (FetchV3 (constant_server 200 "200 OK" "<statistics/>")
                  Unmarshal_accept (fun root => root)
                  (state_of (NewExporter "http://localhost:8053"
                                         ["server"; "tasks"] 10)))) =
  ["http://localhost:8053/xml/v3/server"; "http://localhost:8053/xml/v3/tasks"].
Proof.
  rewrite (FetchV3_fetches_every_group
             (constant_server 200 "200 OK" "<statistics/>")
             Unmarshal_accept (fun root => root)
             (state_of (NewExporter "http://localhost:8053"
                                    ["server"; "tasks"] 10))
             zero_BindRootV3).
  - reflexivity.
  - discriminate.
  - reflexivity.
Defined.

(** X15. A Gen3 scrape that succeeds: with nothing cached, a probe
    answered 2xx and every group fetched and parsed, [Collect] requests
    the probe and then each group in order, sends what [UpdateV3] maps
    from the tree after [dedup], then [up = 1], and logs what [UpdateV3]
    logs. *)
Theorem Collect_Gen3_success
        (ParseFloat : string -> Z -> option float64)
        (server : list string -> string -> result Response)
        (xml_Unmarshal_V2 : string -> BindRootV2 -> BindRootV2 * option error)
        (xml_Unmarshal_V3 : string -> BindRootV3 -> BindRootV3 * option error)
        (dedup : BindRootV3 -> BindRootV3)
        (st : State Exporter) (resp : Response) (root : BindRootV3)
        (Hcache : version (self st) = "")
        (Hne : URI (self st) <> "")
        (Hprobe : server (requests st) (v3uri (self st) "status") = Ok resp)
        (H2xx : 200 <= StatusCode resp < 300)
        (Hok : groups_ok server xml_Unmarshal_V3 (self st)
                         (requests st ++ [v3uri (self st) "status"])
                         zero_BindRootV3 (metrics (self st)) = Some root) :
  let st' := snd (Collect ParseFloat server xml_Unmarshal_V2 xml_Unmarshal_V3
                          dedup st) in
  fst (Collect ParseFloat server xml_Unmarshal_V2 xml_Unmarshal_V3 dedup st)
  = Return tt /\
  requests st' =
  (requests st ++ v3uri (self st) "status" ::
   List.map (v3uri (self st)) (metrics (self st)))%list /\
  ch st' =
  (ch st ++ fst (UpdateV3_out ParseFloat (dedup root)) ++
   [up_sample 1%float])%list /\
  logs st' = (logs st ++ snd (UpdateV3_out ParseFloat (dedup root)))%list.
Proof.
  intros st'. subst st'. unfold Collect, Collect_body.
  rewrite (GetVersion_cases server st Hcache Hne), Hprobe.
  destruct (Z.leb_spec 500 (StatusCode resp)); [lia|].
  destruct (Z.ltb_spec (StatusCode resp) 300); [|lia].
  destruct (Z.leb_spec 200 (StatusCode resp)); [|lia].
  cbn [andb]. change (String.eqb "v3" "v3") with true. cbn iota.
  rewrite (FetchV3_ok server xml_Unmarshal_V3 dedup
             (add_requests st [v3uri (self st) "status"]) root Hne Hok).
  cbn. rewrite <- !app_assoc. repeat split; reflexivity.
Qed.

Lemma Collect_Gen3_success_witness :
  ch (snd (Collect ParseFloat_digits
                   (constant_server 200 "200 OK" "<statistics/>")
                   Unmarshal_accept Unmarshal_accept (fun root => root)
                   (state_of (NewExporter "http://localhost:8053/"
                                          ["server"] 10)))) =
  [ ConstMetric tasksRunning GaugeValue 0%float [];
    ConstMetric workerThreads GaugeValue 0%float [];
    up_sample 1%float ].
Proof.
  refine (proj1 (proj2 (proj2 (Collect_Gen3_success
            ParseFloat_digits (constant_server 200 "200 OK" "<statistics/>")
            Unmarshal_accept Unmarshal_accept (fun root => root)
            (state_of (NewExporter "http://localhost:8053/" ["server"] 10))
            {| Status := "200 OK"; StatusCode := 200;
               Body := Ok "<statistics/>" |}
            zero_BindRootV3 eq_refl _ eq_refl _ eq_refl)))).
  - discriminate.
  - cbn; lia.
Defined.

(** X16. A Gen2 scrape that succeeds: with nothing cached and a probe
    answered below 500 but not 2xx, [Collect] requests the probe and then
    the base URI as it is; when the body of that response can be read and
    parses, whatever its status code, it sends what [UpdateV2] maps from
    the tree, then [up = 1]. *)
Theorem Collect_Gen2_success
        (ParseFloat : string -> Z -> option float64)
        (server : list string -> string -> result Response)
        (xml_Unmarshal_V2 : string -> BindRootV2 -> BindRootV2 * option error)
        (xml_Unmarshal_V3 : string -> BindRootV3 -> BindRootV3 * option error)
        (dedup : BindRootV3 -> BindRootV3)
        (st : State Exporter) (resp resp2 : Response) (data : string)
        (root : BindRootV2)
        (Hcache : version (self st) = "")
        (Hne : URI (self st) <> "")
        (Hprobe : server (requests st) (v3uri (self st) "status") = Ok resp)
        (Hcode : StatusCode resp < 500 /\ ~ 200 <= StatusCode resp < 300)
        (Hget : server (requests st ++ [v3uri (self st) "status"])%list
                       (URI (self st)) = Ok resp2)
        (Hbody : Body resp2 = Ok data)
        (Hxml : xml_Unmarshal_V2 data zero_BindRootV2 = (root, None)) :
  let st' := snd (Collect ParseFloat server xml_Unmarshal_V2 xml_Unmarshal_V3
                          dedup st) in
  fst (Collect ParseFloat server xml_Unmarshal_V2 xml_Unmarshal_V3 dedup st)
  = Return tt /\
  requests st' =
  (requests st ++ [v3uri (self st) "status"; URI (self st)])%list /\
  ch st' =
  (ch st ++ fst (UpdateV2_out ParseFloat root) ++ [up_sample 1%float])%list /\
  logs st' = (logs st ++ snd (UpdateV2_out ParseFloat root))%list.
Proof.
  intros st'. subst st'. unfold Collect, Collect_body.
  rewrite (GetVersion_cases server st Hcache Hne), Hprobe.
  destruct Hcode as [Hlt Hout].
  destruct (Z.leb_spec 500 (StatusCode resp)); [lia|].
  assert (E : (StatusCode resp <? 300) && (200 <=? StatusCode resp) = false).
  { destruct (Z.ltb_spec (StatusCode resp) 300);
      destruct (Z.leb_spec 200 (StatusCode resp)); try reflexivity; lia. }
  rewrite E. change (String.eqb "v2" "v3") with false. cbn iota.
  rewrite FetchV2_eq. unfold fetch_result.
  cbn [add_requests requests self]. rewrite Hget, Hbody, Hxml.
  cbn. rewrite <- !app_assoc. repeat split; reflexivity.
Qed.

Lemma Collect_Gen2_success_witness :
  ch (snd (Collect ParseFloat_digits
                   (constant_server 404 "404 Not Found" "<isc/>")
                   Unmarshal_accept Unmarshal_accept (fun root => root)
                   (state_of (NewExporter "http://localhost:8053/" [] 10)))) =
  [ ConstMetric tasksRunning GaugeValue 0%float [];
    ConstMetric workerThreads GaugeValue 0%float [];
    up_sample 1%float ].
Proof.
  refine (proj1 (proj2 (proj2 (Collect_Gen2_success
            ParseFloat_digits (constant_server 404 "404 Not Found" "<isc/>")
            Unmarshal_accept Unmarshal_accept (fun root => root)
            (state_of (NewExporter "http://localhost:8053/" [] 10))
            {| Status := "404 Not Found"; StatusCode := 404;
               Body := Ok "<isc/>" |}
            {| Status := "404 Not Found"; StatusCode := 404;
               Body := Ok "<isc/>" |}
            "<isc/>" zero_BindRootV2
            eq_refl _ eq_refl _ eq_refl eq_refl eq_refl)))).
  - discriminate.
  - cbn; lia.
Defined.

(** X17. A scrape whose detection fails, by a transport error of the
    probe or by a status of 500 or more, makes no other request, sends
    [up = 0] and nothing else, logs one error and returns. *)
Theorem Collect_detection_failure
        (ParseFloat : string -> Z -> option float64)
        (server : list string -> string -> result Response)
        (xml_Unmarshal_V2 : string -> BindRootV2 -> BindRootV2 * option error)
        (xml_Unmarshal_V3 : string -> BindRootV3 -> BindRootV3 * option error)
        (dedup : BindRootV3 -> BindRootV3)
        (st : State Exporter)
        (Hcache : version (self st) = "")
        (Hne : URI (self st) <> "")
        (Hfail : (exists err,
                     server (requests st) (v3uri (self st) "status")
                     = Err err) \/
                 (exists resp,
                     server (requests st) (v3uri (self st) "status")
                     = Ok resp /\ 500 <= StatusCode resp)) :
  let st' := snd (Collect ParseFloat server xml_Unmarshal_V2 xml_Unmarshal_V3
                          dedup st) in
  fst (Collect ParseFloat server xml_Unmarshal_V2 xml_Unmarshal_V3 dedup st)
  = Return tt /\
  requests st' = (requests st ++ [v3uri (self st) "status"])%list /\
  ch st' = (ch st ++ [up_sample 0%float])%list /\
  exists msg, logs st' = (logs st ++ [(ErrorLevel, msg)])%list.
Proof.
  intros st'. subst st'. unfold Collect, Collect_body.
  rewrite (GetVersion_cases server st Hcache Hne).
  destruct Hfail as [[err ->]|[resp [-> Hcode]]].
  - cbn. repeat split; eauto.
  - destruct (Z.leb_spec 500 (StatusCode resp)); [|lia].
    cbn. repeat split; eauto.
Qed.

Lemma Collect_detection_failure_witness :
  ch (snd (Collect ParseFloat_digits
                   (constant_server 503 "503 Service Unavailable" "")
                   Unmarshal_accept Unmarshal_accept (fun root => root)
                   (state_of (NewExporter "http://localhost:8053/"
                                          ["server"] 10)))) =
  [up_sample 0%float].
Proof.
  refine (proj1 (proj2 (proj2 (Collect_detection_failure
            ParseFloat_digits
            (constant_server 503 "503 Service Unavailable" "")
            Unmarshal_accept Unmarshal_accept (fun root => root)
            (state_of (NewExporter "http://localhost:8053/" ["server"] 10))
            eq_refl _ _)))).
  - discriminate.
  - right. eexists. split; [reflexivity|]. cbn. lia.
Defined.

(** X18. On the empty base URI with nothing cached, the deferred send of
    [Collect] still runs: [up = 0] is sent before the panic goes on, no
    request is made and nothing is logged. *)
Theorem Collect_sends_up_before_panic
        (ParseFloat : string -> Z -> option float64)
        (server : list string -> string -> result Response)
        (xml_Unmarshal_V2 : string -> BindRootV2 -> BindRootV2 * option error)
        (xml_Unmarshal_V3 : string -> BindRootV3 -> BindRootV3 * option error)
        (dedup : BindRootV3 -> BindRootV3)
        (st : State Exporter)
        (Hcache : version (self st) = "")
        (Hempty : URI (self st) = "") :
  Collect ParseFloat server xml_Unmarshal_V2 xml_Unmarshal_V3 dedup st =
  (Panic "runtime error: index out of range",
   add_output st [up_sample 0%float] []).
Proof.
  unfold Collect, Collect_body.
  rewrite (GetVersion_empty server st Hcache Hempty).
  cbn. unfold add_output. now rewrite app_nil_r.
Qed.

Lemma Collect_sends_up_before_panic_witness :
  ch (snd (Collect ParseFloat_digits (constant_server 200 "200 OK" "")
                   Unmarshal_accept Unmarshal_accept (fun root => root)
                   (state_of (NewExporter "" ["server"] 10)))) =
  [up_sample 0%float].
Proof.
  now rewrite (Collect_sends_up_before_panic
                 ParseFloat_digits (constant_server 200 "200 OK" "")
                 Unmarshal_accept Unmarshal_accept (fun root => root)
                 (state_of (NewExporter "" ["server"] 10)) eq_refl eq_refl).
Defined.

(* ================================================================== *)
(** ** The older exporter                                               *)
(* ================================================================== *)

(** X19. The older [Collect], however it ends, makes one GET, of the
    base URI as it was given, and returns; it sends one sample of [up],
    last, with value 0 or 1; every series before it is a counter of one
    of the two other descriptors [Describe] lists, with its one label
    value. *)
Theorem Legacy_Collect_one_request_one_up
        (server : list string -> string -> result Response)
        (xml_Unmarshal : string -> Legacy.Isc -> Legacy.Isc * option error)
        (st : State Legacy.Exporter) :
  fst (Legacy.Collect server xml_Unmarshal st) = Return tt /\
  self (snd (Legacy.Collect server xml_Unmarshal st)) = self st /\
  requests (snd (Legacy.Collect server xml_Unmarshal st)) =
  (requests st ++ [Legacy.URI (self st)])%list /\
  exists ms status,
    ch (snd (Legacy.Collect server xml_Unmarshal st)) =
    (ch st ++ ms ++ [ConstMetric Legacy.up GaugeValue status []])%list /\
    (status = 0%float \/ status = 1%float) /\
    Forall (fun m => In (desc_of m) Legacy.Describe /\
                     desc_of m <> Legacy.up /\ labelled m) ms.
Proof.
  unfold Legacy.Collect, Legacy.Collect_body, client_Get.
  destruct (server (requests st) (Legacy.URI (self st))) as [resp|err].
  - destruct (Body resp) as [body|err].
    + destruct (xml_Unmarshal body Legacy.zero_Isc) as [root [err|]].
      * cbn. repeat split. exists [], 1%float. repeat split; auto.
      * cbn. repeat split.
        eexists _, 1%float. rewrite <- app_assoc.
        split; [reflexivity|]. split; [now right|].
        apply Forall_app. split; apply Forall_forall; intros m Hm;
          apply in_map_iff in Hm; destruct Hm as (s & <- & _); cbn.
        -- split; [auto|]. split; [discriminate|reflexivity].
        -- split; [auto|]. split; [discriminate|reflexivity].
    + cbn. repeat split. exists [], 0%float. repeat split; auto.
  - cbn. repeat split. exists [], 0%float. repeat split; auto.
Qed.

(** X20. The older [Collect] on a document that is fetched, read and
    parsed, whatever the status code of the response: it sends one
    counter per query type, then one per opcode, each in document order
    with the name as label value, then [up = 1], and logs nothing. *)
Theorem Legacy_Collect_success
        (server : list string -> string -> result Response)
        (xml_Unmarshal : string -> Legacy.Isc -> Legacy.Isc * option error)
        (st : State Legacy.Exporter) (resp : Response) (body : string)
        (root : Legacy.Isc)
        (Hget : server (requests st) (Legacy.URI (self st)) = Ok resp)
        (Hbody : Body resp = Ok body)
        (Hxml : xml_Unmarshal body Legacy.zero_Isc = (root, None)) :
  ch (snd (Legacy.Collect server xml_Unmarshal st)) =
  (ch st ++
   List.map (fun s => ConstMetric Legacy.incomingQueries CounterValue
                        (float64_of_int (Legacy.Counter s)) [Legacy.Name s])
            (Legacy.QueriesIn_Rdtype (Legacy.Bind_Statistics_Server root)) ++
   List.map (fun s => ConstMetric Legacy.incomingRequests CounterValue
                        (float64_of_int (Legacy.Counter s)) [Legacy.Name s])
            (Legacy.Requests_Opcode (Legacy.Bind_Statistics_Server root)) ++
   [ConstMetric Legacy.up GaugeValue 1%float []])%list /\
  logs (snd (Legacy.Collect server xml_Unmarshal st)) = logs st.
Proof.
  unfold Legacy.Collect, Legacy.Collect_body, client_Get.
  rewrite Hget, Hbody, Hxml. cbn.
  rewrite <- !app_assoc. split; reflexivity.
Qed.

Lemma Legacy_Collect_success_witness :
  ch (snd (Legacy.Collect
             (constant_server 404 "404 Not Found" "<isc/>")
             (fun _ _ =>
                ({| Legacy.Bind_Statistics_Server :=
                      {| Legacy.QueriesIn_Rdtype :=
                           [ {| Legacy.Name := "A"; Legacy.Counter := 7 |} ];
                         Legacy.Requests_Opcode :=
                           [ {| Legacy.Name := "QUERY";
                                Legacy.Counter := 9 |} ] |} |}, None))
             {| self := Legacy.NewExporter "http://localhost:8053/" 10;
                requests := []; ch := []; logs := [] |})) =
  [ ConstMetric Legacy.incomingQueries CounterValue 7%float ["A"];
    ConstMetric Legacy.incomingRequests CounterValue 9%float ["QUERY"];
    ConstMetric Legacy.up GaugeValue 1%float [] ].
Proof.
  exact (proj1 (Legacy_Collect_success
           (constant_server 404 "404 Not Found" "<isc/>")
           (fun _ _ =>
              ({| Legacy.Bind_Statistics_Server :=
                    {| Legacy.QueriesIn_Rdtype :=
                         [ {| Legacy.Name := "A"; Legacy.Counter := 7 |} ];
                       Legacy.Requests_Opcode :=
                         [ {| Legacy.Name := "QUERY";
                              Legacy.Counter := 9 |} ] |} |}, None))
           {| self := Legacy.NewExporter "http://localhost:8053/" 10;
              requests := []; ch := []; logs := [] |}
           {| Status := "404 Not Found"; StatusCode := 404;
              Body := Ok "<isc/>" |}
           "<isc/>" _ eq_refl eq_refl eq_refl)).
Defined.

(** X21. The older [Collect] when the GET fails or the body cannot be
    read: it sends [up = 0] and nothing else, and logs one error. *)
Theorem Legacy_Collect_fetch_failure
        (server : list string -> string -> result Response)
        (xml_Unmarshal : string -> Legacy.Isc -> Legacy.Isc * option error)
        (st : State Legacy.Exporter)
        (Hfail : (exists err,
                     server (requests st) (Legacy.URI (self st)) = Err err) \/
                 (exists resp err,
                     server (requests st) (Legacy.URI (self st)) = Ok resp /\
                     Body resp = Err err)) :
  ch (snd (Legacy.Collect server xml_Unmarshal st)) =
  (ch st ++ [ConstMetric Legacy.up GaugeValue 0%float []])%list /\
  exists msg,
    logs (snd (Legacy.Collect server xml_Unmarshal st)) =
    (logs st ++ [(ErrorLevel, msg)])%list.
Proof.
  unfold Legacy.Collect, Legacy.Collect_body, client_Get.
  destruct Hfail as [[err ->]|(resp & err & -> & ->)]; cbn; eauto.
Qed.

Lemma Legacy_Collect_fetch_failure_witness :
  ch (snd (Legacy.Collect
             (fun _ _ => Err "connection refused")
             Unmarshal_accept
             {| self := Legacy.NewExporter "http://localhost:8053/" 10;
                requests := []; ch := []; logs := [] |})) =
  [ConstMetric Legacy.up GaugeValue 0%float []].
Proof.
  refine (proj1 (Legacy_Collect_fetch_failure
           (fun _ _ => Err "connection refused") Unmarshal_accept
           {| self := Legacy.NewExporter "http://localhost:8053/" 10;
              requests := []; ch := []; logs := [] |} _)).
  left. eexists. reflexivity.
Defined.
